(** * A banking console: shallow embedding of [desafio-classes-python.py]

    The program keeps customers and checking accounts in memory, applies
    deposits and withdrawals through transaction objects, and logs every
    successful movement in the account's history.

    Conventions of the embedding:
    - a Python [float] is an IEEE-754 binary64 value, modelled by the
      executable specification [spec_float] with [prec = 53], [emax = 1024];
    - a method is a computation in the monad [M S], where [S] is the object
      the method mutates; the monad threads the console (input lines,
      printed output, clock) and carries Python exceptions;
    - Python objects that are shared between several lists live in a store
      and are named by their address. *)

From Stdlib Require Import ZArith String List Bool Lia.
From Stdlib Require Import SpecFloat.
From stdpp Require Import base list.

Local Open Scope string_scope.

(** ** Python floats *)

Module Float.
Definition t : Type := spec_float.

Definition prec : Z := 53.
Definition emax : Z := 1024.

(** [x + y] and [x - y], rounded to nearest even. *)
Definition add (x y : t) : t := SFadd prec emax x y.
Definition sub (x y : t) : t := SFsub prec emax x y.

(** [x <= y], [x > y] and [x >= y]; all three are [False] on a NaN. *)
Definition le (x y : t) : bool := SFleb x y.
Definition gt (x y : t) : bool := SFltb y x.
Definition ge (x y : t) : bool := SFleb y x.

(** The float nearest to an integer; comparing a float with the [int]
    literal [0] is the comparison with [zero]. *)
Definition of_Z (z : Z) : t := binary_normalize prec emax z 0 false.
Definition zero : t := S754_zero false.
Definition nan : t := S754_nan.
Definition inf : t := S754_infinity false.
End Float.

(** ** The console and the monad of effects *)

Definition nl : string := String (Ascii.ascii_of_nat 10) EmptyString.
Definition tab : string := String (Ascii.ascii_of_nat 9) EmptyString.

(** What [print] and the prompt of [input] write.  Constant text is kept as
    it is; the three formatted lines keep the values they are formatted
    from. *)
Inductive Saida : Type :=
  | Texto (s : string)
  (** [f"\n{tipo}:\n\tR$ {valor:.2f} em {data}"] *)
  | LinhaExtrato (tipo : string) (valor : Float.t) (data : string)
  (** [f"\nSaldo:\n\tR$ {saldo:.2f}"] *)
  | SaldoExtrato (saldo : Float.t)
  (** [textwrap.dedent(str(conta))] of a checking account *)
  | ResumoConta (agencia : string) (numero : Z) (titular : string)
  (** [str(conta)] of an object without [__str__] *)
  | ReprObjeto (numero : Z).

(** The console: the lines still to be read, what was printed so far, and
    the clock: [relogio n] is the formatted time at the [n]-th reading. *)
Record Mundo : Type := mkMundo {
  stdin : list string;
  stdout : list Saida;
  relogio : nat -> string;
  leituras : nat
}.

(** [ReferenciaInvalida] is raised when an address is not in the store; it
    stands for no Python exception, and no reachable session raises it. *)
Inductive Excecao : Type := EOFError | ValueError | ReferenciaInvalida.

Inductive Resultado (S A : Type) : Type :=
  | Ok (a : A) (s : S) (w : Mundo)
  | Raise (e : Excecao) (s : S) (w : Mundo).
Arguments Ok {S A} a s w.
Arguments Raise {S A} e s w.

Definition M (S A : Type) : Type := S -> Mundo -> Resultado S A.

#[global] Instance M_ret {S} : MRet (M S) := fun A a s w => Ok a s w.
#[global] Instance M_bind {S} : MBind (M S) := fun A B f m s w =>
  match m s w with
  | Ok a s' w' => f a s' w'
  | Raise e s' w' => Raise e s' w'
  end.

Definition get {S} : M S S := fun s w => Ok s s w.
Definition put {S} (s : S) : M S unit := fun _ w => Ok tt s w.
Definition raise {S A} (e : Excecao) : M S A := fun s w => Raise e s w.

Definition escreve (o : Saida) (w : Mundo) : Mundo :=
  mkMundo (stdin w) (stdout w ++ [o]) (relogio w) (leituras w).

Definition print {S} (s : string) : M S unit :=
  fun st w => Ok tt st (escreve (Texto s) w).

Definition emit {S} (o : Saida) : M S unit :=
  fun st w => Ok tt st (escreve o w).

(** [input(prompt)]: writes the prompt, then returns the next line, or
    raises [EOFError] when the input is exhausted. *)
Definition input {S} (prompt : string) : M S string := fun st w =>
  let w1 := escreve (Texto prompt) w in
  match stdin w1 with
  | [] => Raise EOFError st w1
  | linha :: resto =>
      Ok linha st (mkMundo resto (stdout w1) (relogio w1) (leituras w1))
  end.

(** [datetime.now().strftime("%d-%m-%Y %H:%M:%S")] *)
Definition agora {S} : M S string := fun st w =>
  Ok (relogio w (leituras w)) st
     (mkMundo (stdin w) (stdout w) (relogio w) (Datatypes.S (leituras w))).

(** [try: corpo / except e: tratador] *)
Definition try_except {S A} (corpo : M S A) (e : Excecao) (tratador : M S A)
  : M S A := fun st w =>
  match corpo st w with
  | Ok a s' w' => Ok a s' w'
  | Raise e' s' w' =>
      match e, e' with
      | EOFError, EOFError | ValueError, ValueError
      | ReferenciaInvalida, ReferenciaInvalida => tratador s' w'
      | _, _ => Raise e' s' w'
      end
  end.

Definition muda_estado {S T A} (f : S -> T) (r : Resultado S A)
  : Resultado T A :=
  match r with
  | Ok a s w => Ok a (f s) w
  | Raise e s w => Raise e (f s) w
  end.

(** Runs a method of a component [S] of [T] (an attribute that holds an
    object, or the inherited part of an instance). *)
Definition em {S T A} (proj : T -> S) (upd : S -> T -> T) (m : M S A)
  : M T A := fun t w => muda_estado (fun s' => upd s' t) (m (proj t) w).

(** ** Transactions, as data *)

(** The abstract class [Transacao] has two concrete subclasses; an
    instance of either holds its amount. *)
Module Transacao.
Inductive t : Type :=
  | Saque (_valor : Float.t)
  | Deposito (_valor : Float.t).

Definition valor (self : t) : Float.t :=
  match self with Saque v | Deposito v => v end.

Inductive classe : Type := ClasseSaque | ClasseDeposito.

Definition __class__ (self : t) : classe :=
  match self with Saque _ => ClasseSaque | Deposito _ => ClasseDeposito end.

Definition __name__ (cls : classe) : string :=
  match cls with ClasseSaque => "Saque" | ClasseDeposito => "Deposito" end.
End Transacao.

(** ** Historico *)

Module Historico.
(** The dictionary [{"tipo": ..., "valor": ..., "data": ...}]. *)
Record registro : Type := mkRegistro {
  tipo : string;
  valor : Float.t;
  data : string
}.

Record t : Type := mk { _transacoes : list registro }.

Definition __init__ : t := mk [].

Definition transacoes (self : t) : list registro := _transacoes self.

Definition adicionar_transacao (transacao : Transacao.t) : M t unit :=
  d ← agora;
  self ← get;
  put (mk (_transacoes self
           ++ [mkRegistro
                 (Transacao.__name__ (Transacao.__class__ transacao))
                 (Transacao.valor transacao) d])).
End Historico.

(** ** Conta *)

Module Conta.
Record t : Type := mk {
  _saldo : Float.t;
  _numero : Z;
  _agencia : string;
  _cliente : nat;
  _historico : Historico.t
}.

Definition __init__ (numero : Z) (cliente : nat) : t :=
  mk Float.zero numero "0001" cliente Historico.__init__.

(** [cls(numero, cliente)] with [cls = Conta] *)
Definition nova_conta (cliente : nat) (numero : Z) : t :=
  __init__ numero cliente.

Definition saldo (self : t) : Float.t := _saldo self.
Definition numero (self : t) : Z := _numero self.
Definition agencia (self : t) : string := _agencia self.
Definition cliente (self : t) : nat := _cliente self.
Definition historico (self : t) : Historico.t := _historico self.

Definition set_saldo (v : Float.t) (self : t) : t :=
  mk v (_numero self) (_agencia self) (_cliente self) (_historico self).
Definition set_historico (h : Historico.t) (self : t) : t :=
  mk (_saldo self) (_numero self) (_agencia self) (_cliente self) h.

Definition msg_invalido : string :=
  nl ++ "@@@ Operação falhou! O valor informado é inválido. @@@".
Definition msg_sem_saldo : string :=
  nl ++ "@@@ Operação falhou! Você não tem saldo suficiente. @@@".
Definition msg_saque_ok : string :=
  nl ++ "=== Saque realizado com sucesso! ===".
Definition msg_deposito_ok : string :=
  nl ++ "=== Depósito realizado com sucesso! ===".

Definition sacar (valor : Float.t) : M t bool :=
  self ← get;
  if Float.le valor Float.zero then
    print msg_invalido;; mret false
  else if Float.gt valor (_saldo self) then
    print msg_sem_saldo;; mret false
  else
    put (set_saldo (Float.sub (_saldo self) valor) self);;
    print msg_saque_ok;;
    mret true.

Definition depositar (valor : Float.t) : M t bool :=
  self ← get;
  if Float.le valor Float.zero then
    print msg_invalido;; mret false
  else
    put (set_saldo (Float.add (_saldo self) valor) self);;
    print msg_deposito_ok;;
    mret true.
End Conta.

(** ** ContaCorrente *)

(** [sum] of a sequence of integers *)
Definition sum (l : list Z) : Z := fold_left Z.add l 0%Z.

Module ContaCorrente.
(** An instance holds the attributes set by [Conta.__init__] and its own
    two. *)
Record t : Type := mk {
  super : Conta.t;
  _limite : Float.t;
  _limite_saques : Z
}.

Definition set_super (c : Conta.t) (self : t) : t :=
  mk c (_limite self) (_limite_saques self).

(** The defaults [limite = 500.0] and [limite_saques = 3]. *)
Definition limite_padrao : Float.t := Eval cbv in Float.of_Z 500.
Definition limite_saques_padrao : Z := 3.

Definition __init__ (numero : Z) (cliente : nat)
    (limite : Float.t) (limite_saques : Z) : t :=
  mk (Conta.__init__ numero cliente) limite limite_saques.

(** [cls(numero, cliente)] with [cls = ContaCorrente] *)
Definition nova_conta (cliente : nat) (numero : Z) : t :=
  __init__ numero cliente limite_padrao limite_saques_padrao.

Definition saldo (self : t) : Float.t := Conta.saldo (super self).
Definition numero (self : t) : Z := Conta.numero (super self).
Definition agencia (self : t) : string := Conta.agencia (super self).
Definition cliente (self : t) : nat := Conta.cliente (super self).
Definition historico (self : t) : Historico.t :=
  Conta.historico (super self).

Definition msg_excede_limite : string :=
  nl ++ "@@@ Operação falhou! O valor do saque excede o limite. @@@".
Definition msg_max_saques : string :=
  nl ++ "@@@ Operação falhou! Número máximo de saques excedido. @@@".

(** The number of withdrawals in a history: one for each record whose
    ["tipo"] is [Saque.__name__]. *)
Definition saques_realizados (self : t) : Z :=
  sum (map (fun _ => 1%Z)
         (List.filter
            (fun transacao =>
               String.eqb (Historico.tipo transacao)
                          (Transacao.__name__ Transacao.ClasseSaque))
            (Historico.transacoes (historico self)))).

Definition sacar (valor : Float.t) : M t bool :=
  self ← get;
  let saques_realizados := saques_realizados self in
  if Float.gt valor (_limite self) then
    print msg_excede_limite;; mret false
  else if (saques_realizados >=? _limite_saques self)%Z then
    print msg_max_saques;; mret false
  else
    em super set_super (Conta.sacar valor).

(** Inherited, not overridden. *)
Definition depositar (valor : Float.t) : M t bool :=
  em super set_super (Conta.depositar valor).
End ContaCorrente.

(** ** Instances and method dispatch *)

(** A value of static type [Conta] is an instance of [Conta] or of its
    subclass; a method call on it goes to the method of its class. *)
Inductive instancia : Type :=
  | DeConta (c : Conta.t)
  | DeContaCorrente (c : ContaCorrente.t).

Definition parte_conta (conta : instancia) : Conta.t :=
  match conta with
  | DeConta c => c
  | DeContaCorrente c => ContaCorrente.super c
  end.

Definition set_parte_conta (c : Conta.t) (conta : instancia) : instancia :=
  match conta with
  | DeConta _ => DeConta c
  | DeContaCorrente cc => DeContaCorrente (ContaCorrente.set_super c cc)
  end.

Definition saldo (conta : instancia) : Float.t :=
  Conta.saldo (parte_conta conta).
Definition numero (conta : instancia) : Z :=
  Conta.numero (parte_conta conta).
Definition historico (conta : instancia) : Historico.t :=
  Conta.historico (parte_conta conta).
Definition set_historico (h : Historico.t) (conta : instancia) : instancia :=
  set_parte_conta (Conta.set_historico h (parte_conta conta)) conta.

(** [conta.sacar(valor)] *)
Definition chama_sacar (valor : Float.t) : M instancia bool :=
  fun conta w =>
    match conta with
    | DeConta c => muda_estado DeConta (Conta.sacar valor c w)
    | DeContaCorrente c =>
        muda_estado DeContaCorrente (ContaCorrente.sacar valor c w)
    end.

(** [conta.depositar(valor)] *)
Definition chama_depositar (valor : Float.t) : M instancia bool :=
  fun conta w =>
    match conta with
    | DeConta c => muda_estado DeConta (Conta.depositar valor c w)
    | DeContaCorrente c =>
        muda_estado DeContaCorrente (ContaCorrente.depositar valor c w)
    end.

(** ** Saque and Deposito *)

Module Saque.
Definition registrar (_valor : Float.t) : M instancia unit :=
  let self := Transacao.Saque _valor in
  ok ← chama_sacar (Transacao.valor self);
  if ok : bool then
    em historico set_historico (Historico.adicionar_transacao self)
  else mret tt.
End Saque.

Module Deposito.
Definition registrar (_valor : Float.t) : M instancia unit :=
  let self := Transacao.Deposito _valor in
  ok ← chama_depositar (Transacao.valor self);
  if ok : bool then
    em historico set_historico (Historico.adicionar_transacao self)
  else mret tt.
End Deposito.

(** [transacao.registrar(conta)] *)
Definition chama_registrar (transacao : Transacao.t) : M instancia unit :=
  match transacao with
  | Transacao.Saque v => Saque.registrar v
  | Transacao.Deposito v => Deposito.registrar v
  end.

(** ** Cliente and PessoaFisica *)

Module Cliente.
(** [contas] holds the addresses of the customer's accounts. *)
Record t : Type := mk {
  endereco : string;
  contas : list nat
}.

Definition __init__ (endereco : string) : t := mk endereco [].

(** [realizar_transacao(conta, transacao)] leaves the customer as it is
    and acts on [conta], the object the computation runs on. *)
Definition realizar_transacao (transacao : Transacao.t) : M instancia unit :=
  chama_registrar transacao.

Definition adicionar_conta (conta : nat) : M t unit :=
  self ← get;
  put (mk (endereco self) (contas self ++ [conta])).
End Cliente.

Module PessoaFisica.
Record t : Type := mk {
  super : Cliente.t;
  nome : string;
  data_nascimento : string;
  cpf : string
}.

Definition set_super (c : Cliente.t) (self : t) : t :=
  mk c (nome self) (data_nascimento self) (cpf self).

Definition __init__ (nome data_nascimento cpf endereco : string) : t :=
  mk (Cliente.__init__ endereco) nome data_nascimento cpf.

Definition endereco (self : t) : string := Cliente.endereco (super self).
Definition contas (self : t) : list nat := Cliente.contas (super self).

(** Inherited. *)
Definition adicionar_conta (conta : nat) : M t unit :=
  em super set_super (Cliente.adicionar_conta conta).
End PessoaFisica.

(** ** The session *)

(** The two stores hold every customer and every account ever created; an
    address is a position in its store.  [clientes] and [contas] are the two
    lists of [main], and hold addresses. *)
Record Sessao : Type := mkSessao {
  pessoas : list PessoaFisica.t;
  instancias : list instancia;
  clientes : list nat;
  contas : list nat
}.

Definition sessao_inicial : Sessao := mkSessao [] [] [] [].

Definition le_pessoa (r : nat) : M Sessao PessoaFisica.t := fun st w =>
  match pessoas st !! r with
  | Some p => Ok p st w
  | None => Raise ReferenciaInvalida st w
  end.

Definition le_conta (r : nat) : M Sessao instancia := fun st w =>
  match instancias st !! r with
  | Some c => Ok c st w
  | None => Raise ReferenciaInvalida st w
  end.

(** Runs a method on the customer at address [r]. *)
Definition na_pessoa {A} (r : nat) (m : M PessoaFisica.t A) : M Sessao A :=
  fun st w =>
    match pessoas st !! r with
    | Some p =>
        muda_estado
          (fun p' => mkSessao (<[r := p']> (pessoas st)) (instancias st)
                              (clientes st) (contas st))
          (m p w)
    | None => Raise ReferenciaInvalida st w
    end.

(** Runs a method on the account at address [r]. *)
Definition na_conta {A} (r : nat) (m : M instancia A) : M Sessao A :=
  fun st w =>
    match instancias st !! r with
    | Some c =>
        muda_estado
          (fun c' => mkSessao (pessoas st) (<[r := c']> (instancias st))
                              (clientes st) (contas st))
          (m c w)
    | None => Raise ReferenciaInvalida st w
    end.

(** A new object goes to the end of its store. *)
Definition nova_pessoa (p : PessoaFisica.t) : M Sessao nat := fun st w =>
  Ok (length (pessoas st))
     (mkSessao (pessoas st ++ [p]) (instancias st) (clientes st) (contas st))
     w.

Definition nova_instancia (c : instancia) : M Sessao nat := fun st w =>
  Ok (length (instancias st))
     (mkSessao (pessoas st) (instancias st ++ [c]) (clientes st) (contas st))
     w.

(** [clientes.append(cliente)] and [contas.append(conta)] *)
Definition clientes_append (cliente : nat) : M Sessao unit := fun st w =>
  Ok tt
     (mkSessao (pessoas st) (instancias st) (clientes st ++ [cliente])
               (contas st))
     w.

Definition contas_append (conta : nat) : M Sessao unit := fun st w =>
  Ok tt
     (mkSessao (pessoas st) (instancias st) (clientes st)
               (contas st ++ [conta]))
     w.

(** [for x in l: f(x)] *)
Fixpoint para_cada {S A} (l : list A) (f : A -> M S unit) : M S unit :=
  match l with
  | [] => mret tt
  | x :: resto => f x;; para_cada resto f
  end.

(** [s * n] on strings *)
Fixpoint repete (s : string) (n : nat) : string :=
  match n with
  | O => ""
  | Datatypes.S n' => s ++ repete s n'
  end.

Section Programa.

(** The builtin [float] on a string: the float it denotes, or [None] where
    Python raises [ValueError]. *)
Variable float_of_str : string -> option Float.t.

Definition float {S} (s : string) : M S Float.t :=
  match float_of_str s with
  | Some v => mret v
  | None => raise ValueError
  end.

(** The prompt of the menu, after [textwrap.dedent]. *)
Definition menu_texto : string :=
  nl ++ nl ++ "================ MENU ================" ++ nl
  ++ "[d]" ++ tab ++ "Depositar" ++ nl
  ++ "[s]" ++ tab ++ "Sacar" ++ nl
  ++ "[e]" ++ tab ++ "Extrato" ++ nl
  ++ "[nc]" ++ tab ++ "Nova conta" ++ nl
  ++ "[lc]" ++ tab ++ "Listar contas" ++ nl
  ++ "[nu]" ++ tab ++ "Novo usuário" ++ nl
  ++ "[q]" ++ tab ++ "Sair" ++ nl
  ++ "=> ".

Definition menu : M Sessao string := input menu_texto.

(** [next((cliente for cliente in clientes if cliente.cpf == cpf), None)] *)
Fixpoint filtrar_cliente (cpf : string) (clientes : list nat)
  : M Sessao (option nat) :=
  match clientes with
  | [] => mret None
  | cliente :: resto =>
      p ← le_pessoa cliente;
      if String.eqb (PessoaFisica.cpf p) cpf then mret (Some cliente)
      else filtrar_cliente cpf resto
  end.

Definition recuperar_conta_cliente (cliente : nat)
  : M Sessao (option nat) :=
  p ← le_pessoa cliente;
  match PessoaFisica.contas p with
  | [] => print (nl ++ "@@@ Cliente não possui conta! @@@");; mret None
  | conta :: _ => mret (Some conta)
  end.

Definition depositar : M Sessao unit :=
  cpf ← input "Informe o CPF do cliente: ";
  st ← get;
  cliente ← filtrar_cliente cpf (clientes st);
  match cliente with
  | None => print (nl ++ "@@@ Cliente não encontrado! @@@")
  | Some cliente =>
      try_except
        (texto ← input "Informe o valor do depósito: ";
         valor ← float texto;
         let transacao := Transacao.Deposito valor in
         conta ← recuperar_conta_cliente cliente;
         match conta with
         | Some conta =>
             na_conta conta (Cliente.realizar_transacao transacao)
         | None => mret tt
         end)
        ValueError
        (print (nl ++ "@@@ Valor inválido! @@@"))
  end.

Definition sacar : M Sessao unit :=
  cpf ← input "Informe o CPF do cliente: ";
  st ← get;
  cliente ← filtrar_cliente cpf (clientes st);
  match cliente with
  | None => print (nl ++ "@@@ Cliente não encontrado! @@@")
  | Some cliente =>
      try_except
        (texto ← input "Informe o valor do saque: ";
         valor ← float texto;
         let transacao := Transacao.Saque valor in
         conta ← recuperar_conta_cliente cliente;
         match conta with
         | Some conta =>
             na_conta conta (Cliente.realizar_transacao transacao)
         | None => mret tt
         end)
        ValueError
        (print (nl ++ "@@@ Valor inválido! @@@"))
  end.

Definition exibir_extrato : M Sessao unit :=
  cpf ← input "Informe o CPF do cliente: ";
  st ← get;
  cliente ← filtrar_cliente cpf (clientes st);
  match cliente with
  | None => print (nl ++ "@@@ Cliente não encontrado! @@@")
  | Some cliente =>
      conta ← recuperar_conta_cliente cliente;
      match conta with
      | None => mret tt
      | Some conta =>
          print (nl ++ "================ EXTRATO ================");;
          c ← le_conta conta;
          let transacoes := Historico.transacoes (historico c) in
          match transacoes with
          | [] => print "Não foram realizadas movimentações."
          | _ =>
              para_cada transacoes (fun transacao =>
                emit (LinhaExtrato (Historico.tipo transacao)
                                   (Historico.valor transacao)
                                   (Historico.data transacao)))
          end;;
          emit (SaldoExtrato (saldo c));;
          print "=========================================="
      end
  end.

Definition criar_cliente : M Sessao unit :=
  cpf ← input "Informe o CPF (somente número): ";
  st ← get;
  cliente ← filtrar_cliente cpf (clientes st);
  match cliente with
  | Some _ => print (nl ++ "@@@ Já existe cliente com esse CPF! @@@")
  | None =>
      nome ← input "Informe o nome completo: ";
      data_nascimento ←
        input "Informe a data de nascimento (dd-mm-aaaa): ";
      endereco ←
        input "Informe o endereço (logradouro, nro - bairro - cidade/sigla estado): ";
      cliente ←
        nova_pessoa (PessoaFisica.__init__ nome data_nascimento cpf endereco);
      clientes_append cliente;;
      print (nl ++ "=== Cliente criado com sucesso! ===")
  end.

Definition criar_conta (numero_conta : Z) : M Sessao unit :=
  cpf ← input "Informe o CPF do cliente: ";
  st ← get;
  cliente ← filtrar_cliente cpf (clientes st);
  match cliente with
  | None =>
      print (nl ++ "@@@ Cliente não encontrado, fluxo de criação de conta encerrado! @@@")
  | Some cliente =>
      conta ←
        nova_instancia
          (DeContaCorrente (ContaCorrente.nova_conta cliente numero_conta));
      contas_append conta;;
      na_pessoa cliente (PessoaFisica.adicionar_conta conta);;
      print (nl ++ "=== Conta criada com sucesso! ===")
  end.

Definition listar_contas : M Sessao unit :=
  st ← get;
  para_cada (contas st) (fun conta =>
    print (repete "=" 100);;
    c ← le_conta conta;
    match c with
    | DeContaCorrente cc =>
        titular ← le_pessoa (ContaCorrente.cliente cc);
        emit (ResumoConta (ContaCorrente.agencia cc)
                          (ContaCorrente.numero cc)
                          (PessoaFisica.nome titular))
    | DeConta c0 => emit (ReprObjeto (Conta.numero c0))
    end).

(** One pass through the body of [while True]; [false] after [break]. *)
Definition iteracao : M Sessao bool :=
  opcao ← menu;
  if String.eqb opcao "d" then depositar;; mret true
  else if String.eqb opcao "s" then sacar;; mret true
  else if String.eqb opcao "e" then exibir_extrato;; mret true
  else if String.eqb opcao "nu" then criar_cliente;; mret true
  else if String.eqb opcao "nc" then
    st ← get;
    let numero_conta := (Z.of_nat (length (contas st)) + 1)%Z in
    criar_conta numero_conta;; mret true
  else if String.eqb opcao "lc" then listar_contas;; mret true
  else if String.eqb opcao "q" then
    print (nl ++ "Obrigado por utilizar nosso sistema bancário!");;
    mret false
  else
    print (nl ++ "@@@ Operação inválida, por favor selecione novamente a operação desejada. @@@");;
    mret true.

(** The loop of [main], for at most [n] passes: [true] when the loop was
    left by [break], [false] when the [n] passes did not end it. *)
Fixpoint laco (n : nat) : M Sessao bool :=
  match n with
  | O => mret false
  | Datatypes.S n' =>
      continua ← iteracao;
      if continua : bool then laco n' else mret true
  end.

Definition main (n : nat) (w : Mundo) : Resultado Sessao bool :=
  laco n sessao_inicial w.

(** The states of a session.  [alcancavel true st w]: the program is at
    the head of the loop of [main] in state [st], with console [w].
    [alcancavel false st w]: the program has ended in state [st], by
    [break] or by an exception that left [main]. *)
Inductive alcancavel : bool -> Sessao -> Mundo -> Prop :=
  | alcancavel_inicio (w : Mundo) :
      alcancavel true sessao_inicial w
  | alcancavel_iteracao st w continua st' w' :
      alcancavel true st w ->
      iteracao st w = Ok continua st' w' ->
      alcancavel continua st' w'
  | alcancavel_excecao st w e st' w' :
      alcancavel true st w ->
      iteracao st w = Raise e st' w' ->
      alcancavel false st' w'.

End Programa.

(** * Vocabulary of the properties *)

(** ** Outcomes *)

Definition estado_final {S A} (r : Resultado S A) : S :=
  match r with Ok _ s _ | Raise _ s _ => s end.

(** [hoare P m Q E]: from a state in [P], [m] returns in a state in [Q] or
    raises in a state in [E]. *)
Definition hoare {S A} (P : S -> Prop) (m : M S A)
    (Q : A -> S -> Prop) (E : S -> Prop) : Prop :=
  forall s w, P s ->
    match m s w with
    | Ok a s' _ => Q a s'
    | Raise _ s' _ => E s'
    end.

(** [puro m]: [m] leaves the state as it is, whatever its outcome. *)
Definition puro {S A} (m : M S A) : Prop :=
  forall s w, estado_final (m s w) = s.

Definition mundo_final {S A} (r : Resultado S A) : Mundo :=
  match r with Ok _ _ w | Raise _ _ w => w end.

(** [consome m]: [m] may read lines of the input, and adds none. *)
Definition consome {S A} (m : M S A) : Prop :=
  forall s w, length (stdin (mundo_final (m s w))) <= length (stdin w).

(** ** Floats a balance can hold *)

(** [canon prec emax m e]: [e] is the exponent the format gives to a number
    with the digits of [m]. *)
Definition canon (prec emax m e : Z) : Prop :=
  fexp prec emax (Zdigits2 m + e) = e.

(** What rounding a non-negative mantissa gives, with sign [s]. *)
Inductive arredondado (prec emax : Z) (s : bool) : spec_float -> Prop :=
  | arredondado_zero : arredondado prec emax s (S754_zero s)
  | arredondado_inf : arredondado prec emax s (S754_infinity s)
  | arredondado_finito m e :
      bounded prec emax m e = true ->
      arredondado prec emax s (S754_finite s m e).

(** A float of the format that is not below zero, and so is not NaN. *)
Definition nao_negativo (prec emax : Z) (x : spec_float) : Prop :=
  valid_binary prec emax x = true /\ SFleb (S754_zero false) x = true.

(** A float of the format that is neither NaN nor infinite. *)
Definition finito (prec emax : Z) (v : spec_float) : Prop :=
  valid_binary prec emax v = true
  /\ match v with S754_zero _ | S754_finite _ _ _ => True | _ => False end.

(** The balance is a Python float with [saldo >= 0]. *)
Definition saldo_ok (x : Float.t) : Prop :=
  nao_negativo Float.prec Float.emax x.

(** The amount is a Python float other than NaN and the infinities. *)
Definition valor_finito (v : Float.t) : Prop :=
  finito Float.prec Float.emax v.

(** ** Exact values and rounding *)

(** The value of a float in units of [2 ^ emin], the spacing of the
    smallest floats of the format: a finite float [(-1)^s * m * 2^e] of the
    format has [emin <= e], so it is a whole number of units. *)
Definition unidades (prec emax : Z) (x : spec_float) : Z :=
  match x with
  | S754_finite s m e => cond_Zopp s (Zpos m * 2 ^ (e - emin prec emax))%Z
  | _ => 0%Z
  end.

(** [mais_proximo prec emax q x]: [x] is a finite float of the format, and
    no finite float of the format is nearer than [x] to the number of [q]
    units. *)
Definition mais_proximo (prec emax : Z) (q : Z) (x : spec_float) : Prop :=
  finito prec emax x
  /\ forall z, finito prec emax z ->
       (Z.abs (unidades prec emax x - q)
        <= Z.abs (unidades prec emax z - q))%Z.

(** What is left of [M] after [k] shifts to the right: the quotient by
    [2 ^ k], whether the remainder is at least half of [2 ^ k], and whether
    it is neither zero nor that half. *)
Definition deslocado (M k : Z) : shr_record :=
  let resto := (M mod 2 ^ k)%Z in
  Build_shr_record (M / 2 ^ k)%Z (2 ^ k <=? 2 * resto)%Z
    (negb ((resto =? 0)%Z || (2 * resto =? 2 ^ k)%Z)).

(** [arredonda prec emax q x]: [x] is what rounding the number of [q] units
    to the format gives: a nearest finite float, or an infinity when [q] is
    beyond every finite float on that side. *)
Definition arredonda (prec emax : Z) (q : Z) (x : spec_float) : Prop :=
  mais_proximo prec emax q x
  \/ (x = S754_infinity false
      /\ forall z, finito prec emax z -> (unidades prec emax z < q)%Z)
  \/ (x = S754_infinity true
      /\ forall z, finito prec emax z -> (q < unidades prec emax z)%Z).

(** The exact value of a Python float, in units of [2 ^ -1074]: every
    finite binary64 number is a whole number of them. *)
Definition exato (x : Float.t) : Z := unidades Float.prec Float.emax x.

(** [x] is a finite Python float, and no finite Python float is nearer to
    the number of [q] units. *)
Definition float_mais_proximo (q : Z) (x : Float.t) : Prop :=
  mais_proximo Float.prec Float.emax q x.

(** The number of [q] units is above every finite Python float. *)
Definition acima_de_todo_float (q : Z) : Prop :=
  forall z, valor_finito z -> (exato z < q)%Z.

(** ** Transactions and withdrawals *)

(** The account operation a transaction asks for. *)
Definition operacao (transacao : Transacao.t) : M instancia bool :=
  match transacao with
  | Transacao.Saque v => chama_sacar v
  | Transacao.Deposito v => chama_depositar v
  end.

(** The kind a record of the transaction must show. *)
Definition tipo_esperado (transacao : Transacao.t) : string :=
  match transacao with
  | Transacao.Saque _ => "Saque"
  | Transacao.Deposito _ => "Deposito"
  end.

Definition e_saque (transacao : Historico.registro) : bool :=
  String.eqb (Historico.tipo transacao) "Saque".

(** A withdrawal is refused for the number of withdrawals. *)
Definition recusa_por_maximo (valor : Float.t) (self : ContaCorrente.t)
  : Prop :=
  forall w,
    ContaCorrente.sacar valor self w =
      Ok false self (escreve (Texto ContaCorrente.msg_max_saques) w).

(** ** Account numbers *)

(** The list [contas] holds the addresses of the store in order, and the
    account at address [i] has number [i + 1]. *)
Definition numerada (st : Sessao) : Prop :=
  contas st = seq 0 (length (instancias st))
  /\ forall i c, instancias st !! i = Some c ->
                 numero c = (Z.of_nat i + 1)%Z.

(** The accounts of the list [contas] are numbered 1, 2, ... in the order
    of the list, and no two positions of the list hold accounts with the
    same number. *)
Definition numeros_unicos (st : Sessao) : Prop :=
  (forall i r, contas st !! i = Some r ->
     exists c, instancias st !! r = Some c
               /\ numero c = (Z.of_nat i + 1)%Z)
  /\ (forall i j ri rj ci cj,
        contas st !! i = Some ri -> contas st !! j = Some rj ->
        instancias st !! ri = Some ci -> instancias st !! rj = Some cj ->
        numero ci = numero cj -> i = j).

(** ** Objects used as examples *)

Definition mundo_vazio : Mundo :=
  mkMundo [] [] (fun _ => "03-11-2026 10:00:00") 0.

(** An account of the base class with balance 1e16: a new account after
    [depositar(1e16)]. *)
Definition conta_1e16 : Conta.t :=
  Conta.mk (Float.of_Z (10 ^ 16)) 1 "0001" 0 Historico.__init__.

(** A checking account with the default limits, balance 1000.0 and a
    single deposit in its history. *)
Definition conta_mil : ContaCorrente.t :=
  ContaCorrente.mk
    (Conta.mk (Float.of_Z 1000) 1 "0001" 0
       (Historico.mk
          [Historico.mkRegistro "Deposito" (Float.of_Z 1000)
             "03-11-2026 10:00:00"]))
    ContaCorrente.limite_padrao ContaCorrente.limite_saques_padrao.

(** The same account after three withdrawals of 200.0: balance 400.0. *)
Definition conta_tres_saques : ContaCorrente.t :=
  ContaCorrente.mk
    (Conta.mk (Float.of_Z 400) 1 "0001" 0
       (Historico.mk
          [Historico.mkRegistro "Deposito" (Float.of_Z 1000)
             "03-11-2026 10:00:00";
           Historico.mkRegistro "Saque" (Float.of_Z 200)
             "03-11-2026 10:00:00";
           Historico.mkRegistro "Saque" (Float.of_Z 200)
             "03-11-2026 10:00:00";
           Historico.mkRegistro "Saque" (Float.of_Z 200)
             "03-11-2026 10:00:00"]))
    ContaCorrente.limite_padrao ContaCorrente.limite_saques_padrao.

(** A session with one customer, whose CPF is ["111"], and no account. *)
Definition sessao_um_cliente : Sessao :=
  mkSessao [PessoaFisica.__init__ "Ana" "01-01-2000" "111" "Rua A, 1"]
           [] [0] [].

(** A session in which one customer was registered and two accounts were
    opened for that customer. *)
Definition sessao_duas_contas : Sessao :=
  mkSessao
    [PessoaFisica.mk (Cliente.mk "Rua A, 1" [0; 1]) "Ana" "01-01-2000" "111"]
    [DeContaCorrente (ContaCorrente.nova_conta 0 1);
     DeContaCorrente (ContaCorrente.nova_conta 0 2)]
    [0] [0; 1].

(** The builtin [float] on the amounts typed in the scenario below. *)
Definition float_exemplo (texto : string) : option Float.t :=
  if String.eqb texto "1000" then Some (Float.of_Z 1000)
  else if String.eqb texto "200" then Some (Float.of_Z 200)
  else if String.eqb texto "1" then Some (Float.of_Z 1)
  else None.

(** The console of the scenario: a customer, an account, a deposit of 1000,
    three withdrawals of 200, a fourth withdrawal of 1, and leaving. *)
Definition mundo_cenario : Mundo :=
  mkMundo
    ["nu"; "111"; "Ana"; "01-01-2000"; "Rua A, 1";
     "nc"; "111";
     "d"; "111"; "1000";
     "s"; "111"; "200";
     "s"; "111"; "200";
     "s"; "111"; "200";
     "s"; "111"; "1";
     "q"]
    [] (fun _ => "03-11-2026 10:00:00") 0.

(** ** Histories and limits *)

(** The balance a history gives: its records replayed from [0.0]. *)
Definition saldo_do_historico (h : list Historico.registro) : Float.t :=
  fold_left
    (fun s r =>
       if e_saque r then Float.sub s (Historico.valor r)
       else Float.add s (Historico.valor r))
    h Float.zero.

(** Every record is a withdrawal or a deposit of an amount that passed the
    test [valor <= 0]. *)
Definition registros_aceitos (h : list Historico.registro) : Prop :=
  Forall
    (fun r =>
       (Historico.tipo r = "Saque" \/ Historico.tipo r = "Deposito")
       /\ Float.le (Historico.valor r) Float.zero = false)
    h.

(** The history accounts for the balance. *)
Definition livro_fiel (conta : instancia) : Prop :=
  saldo conta = saldo_do_historico (Historico.transacoes (historico conta))
  /\ registros_aceitos (Historico.transacoes (historico conta)).

(** The withdrawals of the history respect the two limits of the account. *)
Definition dentro_dos_limites (self : ContaCorrente.t) : Prop :=
  (ContaCorrente.saques_realizados self
     <= ContaCorrente._limite_saques self)%Z
  /\ Forall
       (fun r =>
          e_saque r = true ->
          Float.gt (Historico.valor r) (ContaCorrente._limite self) = false)
       (Historico.transacoes (ContaCorrente.historico self)).

(** ** Sessions and what a command does to them *)

(** No address of the session points outside its store. *)
Definition enderecos_validos (st : Sessao) : Prop :=
  Forall (fun r => r < length (pessoas st)) (clientes st)
  /\ Forall (fun a => a < length (instancias st)) (contas st)
  /\ Forall
       (fun p =>
          Forall (fun a => a < length (instancias st)) (PessoaFisica.contas p))
       (pessoas st)
  /\ Forall
       (fun c => Conta.cliente (parte_conta c) < length (pessoas st))
       (instancias st).

(** Whether the customer at address [r] has the CPF. *)
Definition tem_cpf (ps : list PessoaFisica.t) (cpf : string) (r : nat)
  : bool :=
  match ps !! r with
  | Some p => String.eqb (PessoaFisica.cpf p) cpf
  | None => false
  end.

(** The first address of the list whose customer has the CPF. *)
Definition primeiro_com_cpf (ps : list PessoaFisica.t) (cpf : string)
    (l : list nat) : option nat :=
  List.find (tem_cpf ps cpf) l.

(** The session with one more customer, at the end of the store and of the
    list [clientes]. *)
Definition com_cliente (p : PessoaFisica.t) (st : Sessao) : Sessao :=
  mkSessao (pessoas st ++ [p]) (instancias st)
           (clientes st ++ [length (pessoas st)]) (contas st).

(** The session with the account at address [a] replaced. *)
Definition com_instancia (a : nat) (c : instancia) (st : Sessao) : Sessao :=
  mkSessao (pessoas st) (<[a := c]> (instancias st)) (clientes st) (contas st).

(** The customer with one more account at the end of its list. *)
Definition mais_uma_conta (a : nat) (p : PessoaFisica.t) : PessoaFisica.t :=
  PessoaFisica.set_super
    (Cliente.mk (PessoaFisica.endereco p) (PessoaFisica.contas p ++ [a])) p.

(** The session with one more account, owned by the customer at address
    [r]: at the end of the store, of the list [contas] and of the list of
    its owner. *)
Definition com_conta (r : nat) (c : instancia) (st : Sessao) : Sessao :=
  mkSessao
    (match pessoas st !! r with
     | Some p => <[r := mais_uma_conta (length (instancias st)) p]> (pessoas st)
     | None => pessoas st
     end)
    (instancias st ++ [c]) (clientes st)
    (contas st ++ [length (instancias st)]).

(** What a transaction asked at the console does, once the customer is
    found. *)
Definition efeito_transacao (float_of_str : string -> option Float.t)
    (classe : Float.t -> Transacao.t) (p : PessoaFisica.t)
    (entrada : list string) (st : Sessao) (r : Resultado Sessao unit)
  : Prop :=
  match r with
  | Raise e st' w' => e = EOFError /\ st' = st
  | Ok _ st' w' =>
      exists texto resto,
        entrada = texto :: resto /\ stdin w' = resto
        /\ match float_of_str texto, PessoaFisica.contas p with
           | Some valor, a :: _ =>
               exists c w1,
                 instancias st !! a = Some c
                 /\ st' = com_instancia a
                            (estado_final
                               (chama_registrar (classe valor) c w1))
                            st
           | _, _ => st' = st
           end
  end.

(** What [depositar] and [sacar] do: the CPF is read; when no customer has
    it nothing else is read and nothing changes. *)
Definition efeito_no_console (float_of_str : string -> option Float.t)
    (classe : Float.t -> Transacao.t) (entrada : list string) (st : Sessao)
    (r : Resultado Sessao unit) : Prop :=
  match r with
  | Raise e st' w' => e = EOFError /\ st' = st
  | Ok _ st' w' =>
      exists cpf resto,
        entrada = cpf :: resto
        /\ match primeiro_com_cpf (pessoas st) cpf (clientes st) with
           | None => st' = st /\ stdin w' = resto
           | Some cliente =>
               exists p,
                 pessoas st !! cliente = Some p
                 /\ efeito_transacao float_of_str classe p resto st
                      (Ok tt st' w')
           end
  end.

(** What one pass of the loop of [main] can do to the session: nothing, or
    one new customer with a CPF that no customer has, or one new checking
    account numbered [len(contas) + 1] for a customer, or one transaction
    registered on one account. *)
Inductive passo (st : Sessao) : Sessao -> Prop :=
  | passo_nada : passo st st
  | passo_cliente nome data_nascimento cpf endereco :
      primeiro_com_cpf (pessoas st) cpf (clientes st) = None ->
      passo st
        (com_cliente (PessoaFisica.__init__ nome data_nascimento cpf endereco)
           st)
  | passo_conta r p :
      pessoas st !! r = Some p ->
      passo st
        (com_conta r
           (DeContaCorrente
              (ContaCorrente.nova_conta r
                 (Z.of_nat (length (contas st)) + 1)))
           st)
  | passo_transacao a c transacao w1 :
      instancias st !! a = Some c ->
      passo st
        (com_instancia a (estado_final (chama_registrar transacao c w1)) st).

(** ** What the console shows *)

(** The console after printing the lines [saidas]. *)
Definition acrescenta (saidas : list Saida) (w : Mundo) : Mundo :=
  mkMundo (stdin w) (stdout w ++ saidas) (relogio w) (leituras w).

(** The lines of a statement: one per record of the history, in its order,
    or the line that says there is none. *)
Definition linhas_do_historico (h : list Historico.registro) : list Saida :=
  match h with
  | [] => [Texto "Não foram realizadas movimentações."]
  | _ =>
      map (fun transacao =>
             LinhaExtrato (Historico.tipo transacao)
                          (Historico.valor transacao)
                          (Historico.data transacao))
          h
  end.

(** The two lines [listar_contas] prints for the account at address [a]. *)
Definition resumo_da_conta (st : Sessao) (a : nat) : list Saida :=
  Texto (repete "=" 100)
  :: match instancias st !! a with
     | Some (DeContaCorrente cc) =>
         match pessoas st !! ContaCorrente.cliente cc with
         | Some titular =>
             [ResumoConta (ContaCorrente.agencia cc) (ContaCorrente.numero cc)
                          (PessoaFisica.nome titular)]
         | None => []
         end
     | Some (DeConta c0) => [ReprObjeto (Conta.numero c0)]
     | None => []
     end.

(** ** Invariants of a session *)

(** The list [clientes] holds every customer of the store, in order, and no
    two customers have the same CPF. *)
Definition cpfs_unicos (st : Sessao) : Prop :=
  clientes st = seq 0 (length (pessoas st))
  /\ forall i j pi pj,
       pessoas st !! i = Some pi -> pessoas st !! j = Some pj ->
       PessoaFisica.cpf pi = PessoaFisica.cpf pj -> i = j.

(** Every account is in the list of its owner and of no one else, once. *)
Definition posse_das_contas (st : Sessao) : Prop :=
  (forall r p a,
     pessoas st !! r = Some p -> a ∈ PessoaFisica.contas p ->
     exists c, instancias st !! a = Some c
               /\ Conta.cliente (parte_conta c) = r)
  /\ (forall a c,
        instancias st !! a = Some c ->
        exists p, pessoas st !! Conta.cliente (parte_conta c) = Some p
                  /\ a ∈ PessoaFisica.contas p)
  /\ (forall r p, pessoas st !! r = Some p -> NoDup (PessoaFisica.contas p)).

(** An account as the console keeps it: a checking account with the default
    limits, within them, whose history accounts for its balance. *)
Definition conta_padrao (c : instancia) : Prop :=
  exists cc,
    c = DeContaCorrente cc
    /\ ContaCorrente._limite cc = ContaCorrente.limite_padrao
    /\ ContaCorrente._limite_saques cc = ContaCorrente.limite_saques_padrao
    /\ dentro_dos_limites cc
    /\ livro_fiel c.

(** [st'] keeps all that [st] has: the two lists and the list of each
    customer only grew at the end, every customer has the same name, birth
    date, CPF and address, and every account the same number, branch and
    owner, with a history that only grew at the end. *)
Definition estende (st st' : Sessao) : Prop :=
  clientes st `prefix_of` clientes st'
  /\ contas st `prefix_of` contas st'
  /\ (forall r p,
        pessoas st !! r = Some p ->
        exists p',
          pessoas st' !! r = Some p'
          /\ PessoaFisica.nome p' = PessoaFisica.nome p
          /\ PessoaFisica.data_nascimento p' = PessoaFisica.data_nascimento p
          /\ PessoaFisica.cpf p' = PessoaFisica.cpf p
          /\ PessoaFisica.endereco p' = PessoaFisica.endereco p
          /\ PessoaFisica.contas p `prefix_of` PessoaFisica.contas p')
  /\ (forall a c,
        instancias st !! a = Some c ->
        exists c',
          instancias st' !! a = Some c'
          /\ numero c' = numero c
          /\ Conta.agencia (parte_conta c') = Conta.agencia (parte_conta c)
          /\ Conta.cliente (parte_conta c') = Conta.cliente (parte_conta c)
          /\ Historico.transacoes (historico c)
               `prefix_of` Historico.transacoes (historico c')).

(** ** More objects used as examples *)

(** A session with one customer whose account has one deposit in its
    history. *)
Definition sessao_com_deposito : Sessao :=
  mkSessao
    [PessoaFisica.mk (Cliente.mk "Rua A, 1" [0]) "Ana" "01-01-2000" "111"]
    [DeContaCorrente conta_mil] [0] [0].

(** The console that leads to [sessao_duas_contas], with three more lines
    to read. *)
Definition mundo_duas_contas_inicio : Mundo :=
  mkMundo
    ["nu"; "111"; "Ana"; "01-01-2000"; "Rua A, 1";
     "nc"; "111"; "nc"; "111";
     "d"; "111"; "1000"]
    [] (fun _ => "03-11-2026 10:00:00") 0.

(** The console after the first three commands of
    [mundo_duas_contas_inicio]. *)
Definition mundo_duas_contas : Mundo :=
  mundo_final (laco float_exemplo 3 sessao_inicial mundo_duas_contas_inicio).

(** * Properties *)

(** Unfolds the monad, so that a computation reduces to its result. *)
Ltac executa :=
  cbv beta iota zeta delta
    [mbind mret M_bind M_ret get put raise print emit em muda_estado
     chama_sacar chama_depositar chama_registrar
     Saque.registrar Deposito.registrar Cliente.realizar_transacao
     Conta.sacar Conta.depositar ContaCorrente.sacar ContaCorrente.depositar
     Historico.adicionar_transacao agora Transacao.valor].

(** ** The example accounts *)

(** The two example accounts are states of a new checking account: after a
    deposit of 1000, and after three withdrawals of 200 more. *)
Lemma contas_de_exemplo_alcancadas :
  estado_final
    (chama_registrar (Transacao.Deposito (Float.of_Z 1000))
       (DeContaCorrente (ContaCorrente.nova_conta 0 1)) mundo_vazio)
    = DeContaCorrente conta_mil
  /\ estado_final
       (para_cada
          [Transacao.Saque (Float.of_Z 200); Transacao.Saque (Float.of_Z 200);
           Transacao.Saque (Float.of_Z 200)]
          chama_registrar (DeContaCorrente conta_mil) mundo_vazio)
     = DeContaCorrente conta_tres_saques.
Proof. split; vm_compute; reflexivity. Qed.

(** ** Floats: rounding to the format *)

(** The facts about rounding that the balance needs, for any format. *)
Section Arredondamento.
Variables prec emax : Z.
Local Open Scope Z_scope.
Hypothesis prec_pos : 0 < prec.

Lemma digits2_pos_size (p : positive) : digits2_pos p = Pos.size p.
Proof. induction p; cbn; congruence. Qed.

Lemma Zdigits2_log2 (m : Z) : 0 < m -> Zdigits2 m = Z.log2 m + 1.
Proof.
  destruct m as [|p|p]; try lia. intros _. cbn [Zdigits2].
  rewrite digits2_pos_size. destruct p; cbn; lia.
Qed.

Lemma Zdigits2_nonneg (m : Z) : 0 <= Zdigits2 m.
Proof. destruct m; cbn; lia. Qed.

Lemma Zdigits2_mono (m n : Z) : 0 <= m <= n -> Zdigits2 m <= Zdigits2 n.
Proof.
  intros [Hm Hmn]. destruct (Z.eq_dec m 0) as [->|Hne].
  - apply Zdigits2_nonneg.
  - rewrite !Zdigits2_log2 by lia. pose proof (Z.log2_le_mono m n Hmn). lia.
Qed.

Lemma Zdigits2_shiftr (m n : Z) :
  0 <= m -> 0 <= n -> Zdigits2 (Z.shiftr m n) = Z.max 0 (Zdigits2 m - n).
Proof.
  intros Hm Hn. destruct (Z.eq_dec m 0) as [->|Hne].
  - rewrite Z.shiftr_0_l. cbn. lia.
  - assert (Hpos : 0 < m) by lia.
    pose proof (Z.shiftr_nonneg m n) as Hs.
    destruct (Z.eq_dec (Z.shiftr m n) 0) as [Hz|Hnz].
    + rewrite Hz. cbn [Zdigits2].
      apply Z.shiftr_eq_0_iff in Hz. rewrite Zdigits2_log2 by lia.
      destruct Hz as [?|[_ Hlt]]; lia.
    + rewrite !Zdigits2_log2 by lia.
      rewrite Z.log2_shiftr by lia.
      assert (0 < Z.shiftr m n) by lia.
      destruct (Z.lt_ge_cases (Z.log2 m) n) as [Hlt|Hge].
      * exfalso. apply Hnz. apply Z.shiftr_eq_0; lia.
      * lia.
Qed.

Lemma shr_1_div2 (r : shr_record) :
  0 <= shr_m r -> shr_m (shr_1 r) = Z.div2 (shr_m r).
Proof.
  destruct r as [m b s]; cbn. destruct m as [|[p|p|]|p]; cbn; lia.
Qed.

Lemma iter_pos_shr_1 (n : positive) (r : shr_record) :
  0 <= shr_m r ->
  shr_m (SpecFloat.iter_pos shr_1 n r) = Z.shiftr (shr_m r) (Zpos n).
Proof.
  revert r. induction n as [n IH|n IH|]; intros r Hr; cbn [SpecFloat.iter_pos].
  - assert (H1 : 0 <= shr_m (shr_1 r)).
    { rewrite shr_1_div2 by exact Hr. apply Z.div2_nonneg, Hr. }
    assert (H2 : 0 <= shr_m (SpecFloat.iter_pos shr_1 n (shr_1 r))).
    { rewrite IH by exact H1. apply Z.shiftr_nonneg, H1. }
    rewrite IH by exact H2. rewrite IH by exact H1.
    rewrite shr_1_div2 by exact Hr. rewrite Z.div2_spec.
    rewrite !Z.shiftr_shiftr by lia. f_equal. lia.
  - assert (H2 : 0 <= shr_m (SpecFloat.iter_pos shr_1 n r)).
    { rewrite IH by exact Hr. apply Z.shiftr_nonneg, Hr. }
    rewrite IH by exact H2. rewrite IH by exact Hr.
    rewrite !Z.shiftr_shiftr by lia. f_equal. lia.
  - rewrite shr_1_div2 by exact Hr. apply Z.div2_spec.
Qed.

Lemma fexp_mono (x y : Z) : x <= y -> fexp prec emax x <= fexp prec emax y.
Proof. unfold fexp. lia. Qed.

Lemma shr_fexp_canon (m e : Z) (l : location) :
  0 <= m -> e <= fexp prec emax (Zdigits2 m + e) ->
  let '(r, e') := shr_fexp prec emax m e l in
  0 <= shr_m r /\ canon prec emax (shr_m r) e'.
Proof.
  intros Hm He. unfold shr_fexp, shr.
  assert (Hrec : shr_m (shr_record_of_loc m l) = m).
  { destruct l as [|[]]; reflexivity. }
  destruct (fexp prec emax (Zdigits2 m + e) - e) as [|n|n] eqn:Hn.
  - rewrite Hrec. split; [exact Hm|]. unfold canon. lia.
  - rewrite iter_pos_shr_1 by (rewrite Hrec; exact Hm). rewrite Hrec.
    split; [apply Z.shiftr_nonneg, Hm|].
    unfold canon. rewrite Zdigits2_shiftr by lia.
    pose proof (Zdigits2_nonneg m) as Hd.
    revert He Hn. unfold fexp, emin. lia.
  - lia.
Qed.

Lemma round_nearest_even_bounds (m : Z) (l : location) :
  m <= round_nearest_even m l <= m + 1.
Proof.
  destruct l as [|[]]; cbn; try lia. destruct (Z.even m); lia.
Qed.

Lemma binary_round_aux_arredondado (s : bool) (m e : Z) (l : location) :
  0 <= m -> e <= fexp prec emax (Zdigits2 m + e) ->
  arredondado prec emax s (binary_round_aux prec emax s m e l).
Proof.
  intros Hm He. unfold binary_round_aux.
  pose proof (shr_fexp_canon m e l Hm He) as H1.
  destruct (shr_fexp prec emax m e l) as [r1 e1]. destruct H1 as [Hr1 Hc1].
  pose proof (round_nearest_even_bounds (shr_m r1) (loc_of_shr_record r1))
    as Hb.
  set (m1 := round_nearest_even (shr_m r1) (loc_of_shr_record r1)) in *.
  assert (He1 : e1 <= fexp prec emax (Zdigits2 m1 + e1)).
  { unfold canon in Hc1. rewrite <- Hc1 at 1. apply fexp_mono.
    pose proof (Zdigits2_mono (shr_m r1) m1). lia. }
  pose proof (shr_fexp_canon m1 e1 loc_Exact ltac:(lia) He1) as H2.
  destruct (shr_fexp prec emax m1 e1 loc_Exact) as [r2 e2].
  destruct H2 as [Hr2 Hc2].
  destruct (shr_m r2) as [|p|p] eqn:Hp; [constructor| |lia].
  destruct (Z.leb e2 (emax - prec)) eqn:Hle; [|constructor].
  constructor. unfold bounded, canonical_mantissa.
  rewrite Hle, andb_true_r. apply Z.eqb_eq. exact Hc2.
Qed.

Lemma digits2_pos_iter_xO (m d : positive) :
  Zpos (digits2_pos (Pos.iter xO m d)) = Zpos (digits2_pos m) + Zpos d.
Proof.
  induction d as [|d IH] using Pos.peano_ind.
  - cbn. lia.
  - rewrite Pos.iter_succ. cbn [digits2_pos]. lia.
Qed.

Lemma binary_round_arredondado (s : bool) (m : positive) (e : Z) :
  arredondado prec emax s (binary_round prec emax s m e).
Proof.
  unfold binary_round, shl_align.
  destruct (fexp prec emax (Zpos (digits2_pos m) + e) - e) as [|d|d] eqn:Hd;
    apply binary_round_aux_arredondado; cbn [Zdigits2]; try lia.
  rewrite digits2_pos_iter_xO.
  replace (Zpos (digits2_pos m) + Zpos d
           + fexp prec emax (Zpos (digits2_pos m) + e))
    with (Zpos (digits2_pos m) + e) by lia.
  lia.
Qed.

Lemma binary_normalize_arredondado (m e : Z) :
  0 <= m ->
  arredondado prec emax false (binary_normalize prec emax m e false).
Proof.
  intros Hm.
  destruct m as [|p|p]; cbn [binary_normalize]; [constructor| |lia].
  apply binary_round_arredondado.
Qed.

Lemma arredondado_nao_negativo (x : spec_float) :
  arredondado prec emax false x -> nao_negativo prec emax x.
Proof. intros [| |m e Hb]; split; cbn; auto. Qed.

Lemma SFadd_nao_negativo (x v : spec_float) :
  nao_negativo prec emax x -> finito prec emax v ->
  SFleb v (S754_zero false) = false ->
  nao_negativo prec emax (SFadd prec emax x v).
Proof.
  intros [Hvx Hx] [Hvv Hfin] Hpos.
  destruct v as [sv|sv| |sv mv ev]; try contradiction; [discriminate Hpos|].
  destruct sv; [discriminate Hpos|].
  destruct x as [sx|sx| |sx mx ex]; try discriminate Hx.
  - split; [exact Hvv|reflexivity].
  - split; [exact Hvx|exact Hx].
  - destruct sx; [discriminate Hx|]. cbn [SFadd cond_Zopp].
    apply arredondado_nao_negativo, binary_normalize_arredondado. lia.
Qed.

Lemma bounded_digits (m : positive) (e : Z) :
  bounded prec emax m e = true ->
  Zpos (digits2_pos m) <= prec
  /\ emin prec emax <= e
  /\ (emin prec emax < e -> Zpos (digits2_pos m) = prec).
Proof.
  unfold bounded, canonical_mantissa, fexp. intros H.
  apply andb_true_iff in H as [H _]. apply Z.eqb_eq in H. lia.
Qed.

Lemma SFsub_nao_negativo (x v : spec_float) :
  nao_negativo prec emax x -> finito prec emax v ->
  SFleb v (S754_zero false) = false ->
  SFltb x v = false ->
  nao_negativo prec emax (SFsub prec emax x v).
Proof.
  intros [Hvx Hx] [Hvv Hfin] Hpos Hle.
  destruct v as [sv|sv| |sv mv ev]; try contradiction; [discriminate Hpos|].
  destruct sv; [discriminate Hpos|].
  destruct x as [sx|sx| |sx mx ex]; try discriminate Hx.
  - discriminate Hle.
  - split; [exact Hvx|exact Hx].
  - destruct sx; [discriminate Hx|]. cbn [SFsub cond_Zopp].
    apply arredondado_nao_negativo, binary_normalize_arredondado.
    cbn in Hvx, Hvv.
    apply bounded_digits in Hvx as (Hdx & Hex & Hnx).
    apply bounded_digits in Hvv as (Hdv & Hev & Hnv).
    revert Hle. unfold SFltb, SFcompare, shl_align.
    destruct (Z.compare_spec ex ev) as [Heq|Hlt|Hgt]; [|discriminate|].
    + subst ev. intros Hcmp. rewrite Z.min_id, Z.sub_diag. cbn [fst].
      rewrite Pos.compare_cont_spec in Hcmp. cbn in Hcmp.
      destruct (Pos.compare_spec mx mv); try discriminate Hcmp; lia.
    + intros _. rewrite Z.min_r by lia. rewrite Z.sub_diag. cbn [fst].
      destruct (ev - ex) as [|d|d] eqn:Hd; try lia. cbn [fst].
      pose proof (digits2_pos_iter_xO mx d) as Hdig.
      destruct (Z.le_gt_cases (Zpos mv) (Zpos (Pos.iter xO mx d)))
        as [Hok|Hbad]; [lia|].
      pose proof (Zdigits2_mono (Zpos (Pos.iter xO mx d)) (Zpos mv)
                    ltac:(lia)) as Hm.
      cbn [Zdigits2] in Hm. lia.
Qed.

End Arredondamento.

(** Rounding gives a nearest float: the exact reading of [SFadd] and
    [SFsub] on finite floats. *)
Section MaisProximo.
Variables prec emax : Z.
Local Open Scope Z_scope.
Hypothesis prec_pos : 0 < prec.
Hypothesis prec_lt_emax : prec < emax.

Lemma shr_1_nao_negativo (m : Z) (r s : bool) :
  0 <= m ->
  shr_1 (Build_shr_record m r s) = Build_shr_record (m / 2) (Z.odd m) (r || s).
Proof.
  intros Hm. rewrite <- Z.div2_div.
  destruct m as [|[p|p|]|p]; try lia; reflexivity.
Qed.

Lemma shr_1_deslocado (M k : Z) :
  0 <= M -> 0 <= k -> shr_1 (deslocado M k) = deslocado M (k + 1).
Proof.
  intros HM Hk. unfold deslocado. cbv zeta.
  assert (HP : 0 < 2 ^ k) by (apply Z.pow_pos_nonneg; lia).
  rewrite shr_1_nao_negativo by (apply Z.div_pos; lia).
  rewrite Z.pow_add_r, Z.pow_1_r by lia.
  rewrite Z.rem_mul_r by lia.
  rewrite Z.div_div by lia.
  pose proof (Z.mod_pos_bound M (2 ^ k) HP) as Hr.
  pose proof (Zmod_odd (M / 2 ^ k)) as Ho.
  set (P := 2 ^ k) in *. set (resto := M mod P) in *.
  set (q := M / P) in *.
  destruct (Z.odd q); rewrite Ho; f_equal.
  - symmetry. apply Z.leb_le. lia.
  - destruct (P <=? 2 * resto) eqn:H1, (resto =? 0) eqn:H2,
      (2 * resto =? P) eqn:H3; cbn;
      repeat match goal with
        | H : (_ <=? _) = true |- _ => apply Z.leb_le in H
        | H : (_ <=? _) = false |- _ => apply Z.leb_gt in H
        | H : (_ =? _) = true |- _ => apply Z.eqb_eq in H
        | H : (_ =? _) = false |- _ => apply Z.eqb_neq in H
        end;
      try lia;
      symmetry;
      first [ apply negb_true_iff, orb_false_iff; split; apply Z.eqb_neq; lia
            | apply negb_false_iff, orb_true_iff;
              first [left; apply Z.eqb_eq; lia | right; apply Z.eqb_eq; lia] ].
  - symmetry. apply Z.leb_gt. lia.
  - destruct (P <=? 2 * resto) eqn:H1, (resto =? 0) eqn:H2,
      (2 * resto =? P) eqn:H3; cbn;
      repeat match goal with
        | H : (_ <=? _) = true |- _ => apply Z.leb_le in H
        | H : (_ <=? _) = false |- _ => apply Z.leb_gt in H
        | H : (_ =? _) = true |- _ => apply Z.eqb_eq in H
        | H : (_ =? _) = false |- _ => apply Z.eqb_neq in H
        end;
      try lia;
      symmetry;
      first [ apply negb_true_iff, orb_false_iff; split; apply Z.eqb_neq; lia
            | apply negb_false_iff, orb_true_iff;
              first [left; apply Z.eqb_eq; lia | right; apply Z.eqb_eq; lia] ].
Qed.

Lemma iter_pos_deslocado (n : positive) (M k : Z) :
  0 <= M -> 0 <= k ->
  SpecFloat.iter_pos shr_1 n (deslocado M k) = deslocado M (k + Zpos n).
Proof.
  intros HM. revert k.
  induction n as [n IH|n IH|]; intros k Hk; cbn [SpecFloat.iter_pos].
  - rewrite shr_1_deslocado, !IH by lia. f_equal. lia.
  - rewrite !IH by lia. f_equal. lia.
  - apply shr_1_deslocado; lia.
Qed.

Lemma deslocado_0 (M : Z) : deslocado M 0 = Build_shr_record M false false.
Proof.
  unfold deslocado. cbv zeta. rewrite Z.pow_0_r, Z.mod_1_r, Z.div_1_r.
  reflexivity.
Qed.

Lemma round_nearest_even_deslocado (M k : Z) :
  0 <= M -> 0 <= k ->
  let m1 :=
    round_nearest_even (shr_m (deslocado M k))
      (loc_of_shr_record (deslocado M k)) in
  M / 2 ^ k <= m1 <= M / 2 ^ k + 1 /\ 2 * Z.abs (m1 * 2 ^ k - M) <= 2 ^ k.
Proof.
  intros HM Hk. unfold deslocado. cbv zeta.
  assert (HP : 0 < 2 ^ k) by (apply Z.pow_pos_nonneg; lia).
  pose proof (Z.mod_pos_bound M (2 ^ k) HP) as Hr.
  pose proof (Z.div_mod M (2 ^ k) ltac:(lia)) as Hdm.
  set (P := 2 ^ k) in *. set (resto := M mod P) in *.
  set (q := M / P) in *.
  destruct (P <=? 2 * resto) eqn:H1, (resto =? 0) eqn:H2,
    (2 * resto =? P) eqn:H3; cbn;
    repeat match goal with
      | H : (_ <=? _) = true |- _ => apply Z.leb_le in H
      | H : (_ <=? _) = false |- _ => apply Z.leb_gt in H
      | H : (_ =? _) = true |- _ => apply Z.eqb_eq in H
      | H : (_ =? _) = false |- _ => apply Z.eqb_neq in H
      end;
    try lia;
    try (destruct (Z.even q)); lia.
Qed.

Lemma shr_fexp_deslocado (M e : Z) :
  0 <= M -> e <= fexp prec emax (Zdigits2 M + e) ->
  shr_fexp prec emax M e loc_Exact
  = (deslocado M (fexp prec emax (Zdigits2 M + e) - e),
     fexp prec emax (Zdigits2 M + e)).
Proof.
  intros HM He. unfold shr_fexp, shr. cbn [shr_record_of_loc].
  rewrite <- deslocado_0.
  destruct (fexp prec emax (Zdigits2 M + e) - e) as [|n|n] eqn:Hn; [| |lia].
  - f_equal. lia.
  - rewrite iter_pos_deslocado by lia. f_equal. lia.
Qed.

Lemma Zdigits2_pow (m : Z) :
  0 < m -> 2 ^ (Zdigits2 m - 1) <= m < 2 ^ Zdigits2 m.
Proof.
  intros Hm. rewrite (Zdigits2_log2 m Hm).
  pose proof (Z.log2_spec m Hm) as H.
  replace (Z.log2 m + 1 - 1) with (Z.log2 m) by lia.
  replace (Z.log2 m + 1) with (Z.succ (Z.log2 m)) by lia. exact H.
Qed.

Lemma canon_emin (m e : Z) : canon prec emax m e -> emin prec emax <= e.
Proof. unfold canon, fexp. lia. Qed.

(** No float of the format lies strictly between two neighbours of the
    grid on which a number is rounded. *)
Lemma sem_float_entre_vizinhos (M e mz ez : Z) :
  0 < M -> emin prec emax <= e -> e <= fexp prec emax (Zdigits2 M + e) ->
  0 < mz -> canon prec emax mz ez ->
  let e1 := fexp prec emax (Zdigits2 M + e) in
  let m' := M / 2 ^ (e1 - e) in
  let S := 2 ^ (e1 - emin prec emax) in
  mz * 2 ^ (ez - emin prec emax) <= m' * S
  \/ (m' + 1) * S <= mz * 2 ^ (ez - emin prec emax).
Proof.
  intros HM Hemin He Hmz Hc e1 m' S.
  pose proof (canon_emin mz ez Hc) as Hez.
  assert (HS : 0 < S) by (apply Z.pow_pos_nonneg; lia).
  destruct (Z.le_gt_cases e1 ez) as [Hge|Hlt].
  - replace (ez - emin prec emax) with ((ez - e1) + (e1 - emin prec emax))
      by lia.
    rewrite Z.pow_add_r by lia. fold S.
    set (c := mz * 2 ^ (ez - e1)). rewrite Z.mul_assoc. fold c.
    destruct (Z.le_gt_cases c m') as [Hc1|Hc1].
    + left. apply Z.mul_le_mono_nonneg_r; lia.
    + right. apply Z.mul_le_mono_nonneg_r; lia.
  - left.
    assert (Hdig : Zdigits2 mz + ez < Zdigits2 M + e).
    { destruct (Z.le_gt_cases (Zdigits2 M + e) (Zdigits2 mz + ez)) as [H|H];
        [|exact H].
      pose proof (fexp_mono prec emax _ _ H) as Hm. unfold canon in Hc.
      fold e1 in Hm. lia. }
    assert (He1 : e1 = Zdigits2 M + e - prec).
    { subst e1. unfold fexp in *. lia. }
    pose proof (Zdigits2_pow mz Hmz) as [_ Hmzlt].
    pose proof (Zdigits2_pow M HM) as [HMge _].
    pose proof (Zdigits2_nonneg mz) as Hdz.
    assert (Hdm : 1 <= Zdigits2 M).
    { rewrite Zdigits2_log2 by lia. pose proof (Z.log2_nonneg M). lia. }
    assert (Hm' : 2 ^ (prec - 1) <= m').
    { subst m'. apply Z.div_le_lower_bound; [apply Z.pow_pos_nonneg; lia|].
      rewrite <- Z.pow_add_r by lia.
      replace (e1 - e + (prec - 1)) with (Zdigits2 M - 1) by lia.
      exact HMge. }
    apply Z.le_trans with (2 ^ (prec - 1) * S);
      [|apply Z.mul_le_mono_nonneg_r; lia].
    subst S. rewrite <- Z.pow_add_r by lia.
    apply Z.le_trans with (2 ^ Zdigits2 mz * 2 ^ (ez - emin prec emax)).
    + apply Z.mul_le_mono_nonneg_r; [apply Z.pow_nonneg; lia|lia].
    + rewrite <- Z.pow_add_r by lia. apply Z.pow_le_mono_r; lia.
Qed.

(** Rounding a mantissa and bringing the result back to the format: the
    second shift, when there is one, loses nothing. *)
Lemma segundo_deslocamento_exato (m' m1 e1 : Z) :
  0 <= m' -> canon prec emax m' e1 -> emin prec emax <= e1 ->
  m' <= m1 <= m' + 1 ->
  let e2 := fexp prec emax (Zdigits2 m1 + e1) in
  e1 <= e2 /\ m1 / 2 ^ (e2 - e1) * 2 ^ (e2 - e1) = m1.
Proof.
  intros Hm' Hc He1 Hm1 e2.
  assert (Hle : e1 <= e2).
  { subst e2. unfold canon in Hc. rewrite <- Hc at 1. apply fexp_mono.
    pose proof (Zdigits2_mono m' m1). lia. }
  split; [exact Hle|].
  destruct (Z.eq_dec e2 e1) as [Heq|Hne].
  - rewrite Heq, Z.sub_diag, Z.pow_0_r, Z.div_1_r. lia.
  - assert (Hd1 : prec + 1 <= Zdigits2 m1).
    { subst e2. unfold fexp in *. lia. }
    assert (Hd' : Zdigits2 m' <= prec).
    { unfold canon, fexp in Hc. lia. }
    assert (Hpos : 0 < m').
    { destruct (Z.eq_dec m' 0) as [->|]; [|lia].
      assert (Hd : Zdigits2 m1 <= 1).
      { apply Z.le_trans with (Zdigits2 1); [|cbn; lia].
        apply Zdigits2_mono. lia. }
      lia. }
    assert (Hm1eq : m1 = 2 ^ prec).
    { pose proof (Zdigits2_pow m' Hpos) as [_ H1].
      pose proof (Zdigits2_pow m1 ltac:(lia)) as [H2 _].
      pose proof (Z.pow_le_mono_r 2 (Zdigits2 m') prec ltac:(lia) Hd').
      pose proof (Z.pow_le_mono_r 2 prec (Zdigits2 m1 - 1) ltac:(lia)
                    ltac:(lia)).
      lia. }
    assert (Hdig : Zdigits2 m1 = prec + 1).
    { rewrite Hm1eq, Zdigits2_log2 by (apply Z.pow_pos_nonneg; lia).
      rewrite Z.log2_pow2 by lia. reflexivity. }
    assert (He2 : e2 - e1 = 1).
    { subst e2. rewrite Hdig. unfold fexp in *. lia. }
    rewrite He2, Hm1eq, Z.pow_1_r.
    assert (Hp : 2 ^ prec = 2 ^ (prec - 1) * 2).
    { rewrite <- (Z.pow_1_r 2) at 3. rewrite <- Z.pow_add_r by lia.
      f_equal. lia. }
    rewrite Hp, Z.div_mul by lia. reflexivity.
Qed.

(** Rounding to the format gives a number of the format that is nearest
    to the number rounded, before the test of overflow. *)
Lemma binary_round_aux_mais_proximo (s : bool) (M e : Z) :
  0 < M -> emin prec emax <= e -> e <= fexp prec emax (Zdigits2 M + e) ->
  exists m2 e2,
    binary_round_aux prec emax s M e loc_Exact
    = match m2 with
      | Z0 => S754_zero s
      | Zpos p =>
          if e2 <=? emax - prec then S754_finite s p e2
          else S754_infinity s
      | Zneg _ => S754_nan
      end
    /\ 0 <= m2 /\ canon prec emax m2 e2
    /\ m2 * 2 ^ (e2 - emin prec emax) <= 2 * (M * 2 ^ (e - emin prec emax))
    /\ forall mz ez, 0 < mz -> canon prec emax mz ez ->
         Z.abs (m2 * 2 ^ (e2 - emin prec emax)
                - M * 2 ^ (e - emin prec emax))
         <= Z.abs (mz * 2 ^ (ez - emin prec emax)
                   - M * 2 ^ (e - emin prec emax)).
Proof.
  intros HM Hemin He. unfold binary_round_aux.
  pose proof (shr_fexp_canon prec emax prec_pos M e loc_Exact ltac:(lia) He)
    as Hcan.
  rewrite shr_fexp_deslocado in Hcan |- * by lia.
  set (e1 := fexp prec emax (Zdigits2 M + e)) in *.
  destruct Hcan as [Hm'0 Hc1].
  pose proof (round_nearest_even_deslocado M (e1 - e) ltac:(lia) ltac:(lia))
    as [Hm1 Herr].
  set (m1 := round_nearest_even (shr_m (deslocado M (e1 - e)))
               (loc_of_shr_record (deslocado M (e1 - e)))) in *.
  change (shr_m (deslocado M (e1 - e))) with (M / 2 ^ (e1 - e)) in Hm'0, Hc1.
  assert (He1 : emin prec emax <= e1) by (apply (canon_emin _ _ Hc1)).
  pose proof (segundo_deslocamento_exato _ m1 e1 Hm'0 Hc1 He1 Hm1)
    as [Hle Hexato].
  pose proof (shr_fexp_canon prec emax prec_pos m1 e1 loc_Exact ltac:(lia)
                Hle) as Hcan2.
  rewrite shr_fexp_deslocado in Hcan2 |- * by lia.
  set (e2 := fexp prec emax (Zdigits2 m1 + e1)) in *.
  change (shr_m (deslocado m1 (e2 - e1))) with (m1 / 2 ^ (e2 - e1))
    in Hcan2 |- *.
  destruct Hcan2 as [Hm2 Hc2].
  set (m2 := m1 / 2 ^ (e2 - e1)) in *.
  exists m2, e2. split; [reflexivity|]. split; [exact Hm2|].
  split; [exact Hc2|].
  set (u := emin prec emax) in *.
  assert (Hr : m2 * 2 ^ (e2 - u) = m1 * 2 ^ (e1 - u)).
  { replace (e2 - u) with ((e2 - e1) + (e1 - u)) by lia.
    rewrite Z.pow_add_r, Z.mul_assoc, Hexato by lia. reflexivity. }
  rewrite Hr.
  assert (HS : 2 ^ (e1 - u) = 2 ^ (e1 - e) * 2 ^ (e - u)).
  { rewrite <- Z.pow_add_r by lia. f_equal. lia. }
  assert (HU : 0 < 2 ^ (e - u)) by (apply Z.pow_pos_nonneg; lia).
  assert (HK : 0 < 2 ^ (e1 - e)) by (apply Z.pow_pos_nonneg; lia).
  pose proof (Z.div_mod M (2 ^ (e1 - e)) ltac:(lia)) as Hdm.
  pose proof (Z.mod_pos_bound M (2 ^ (e1 - e)) HK) as Hrem.
  set (m' := M / 2 ^ (e1 - e)) in *.
  set (K := 2 ^ (e1 - e)) in *. set (U := 2 ^ (e - u)) in *.
  set (resto := M mod K) in *.
  assert (Hd : m1 * 2 ^ (e1 - u) - M * U = (m1 * K - M) * U).
  { rewrite HS. ring. }
  assert (Herr2 : 2 * Z.abs (m1 * 2 ^ (e1 - u) - M * U) <= K * U).
  { rewrite Hd, Z.abs_mul, (Z.abs_eq U) by lia.
    rewrite Z.mul_assoc. apply Z.mul_le_mono_nonneg_r; lia. }
  assert (Hm1' : m1 = m' \/ m1 = m' + 1) by lia.
  assert (Ha : m' * (K * U) <= M * U).
  { rewrite Z.mul_assoc. apply Z.mul_le_mono_nonneg_r; lia. }
  assert (Hb : M * U < (m' + 1) * (K * U)).
  { rewrite Z.mul_assoc. apply Z.mul_lt_mono_pos_r; lia. }
  split.
  - rewrite HS. destruct Hm1' as [->| ->]; rewrite HS in Herr2; lia.
  - intros mz ez Hmz Hcz.
    pose proof (sem_float_entre_vizinhos M e mz ez HM Hemin He Hmz Hcz)
      as Hgap.
    cbv zeta in Hgap. fold e1 u in Hgap. fold K in Hgap. fold m' in Hgap.
    fold U. rewrite HS in Hgap, Herr2 |- *.
    set (V := mz * 2 ^ (ez - u)) in *.
    destruct Hm1' as [->| ->]; lia.
Qed.

Lemma Pos_iter_xO_valor (m d : positive) :
  Zpos (Pos.iter xO m d) = Zpos m * 2 ^ Zpos d.
Proof.
  induction d as [|d IH] using Pos.peano_ind.
  - cbn. lia.
  - rewrite Pos.iter_succ, Pos2Z.inj_succ, Z.pow_succ_r by lia.
    rewrite Pos2Z.inj_xO, IH. ring.
Qed.

(** Aligning a mantissa to a smaller exponent keeps the number. *)
Lemma shl_align_valor (m : positive) (e e' : Z) :
  snd (shl_align m e e') = Z.min e e'
  /\ Zpos (fst (shl_align m e e')) = Zpos m * 2 ^ (e - Z.min e e')
  /\ Zpos (digits2_pos (fst (shl_align m e e'))) + snd (shl_align m e e')
     = Zpos (digits2_pos m) + e.
Proof.
  unfold shl_align. destruct (e' - e) as [|d|d] eqn:Hd; cbn [fst snd].
  - rewrite Z.min_l by lia. rewrite Z.sub_diag. cbn. lia.
  - rewrite Z.min_l by lia. rewrite Z.sub_diag. cbn. lia.
  - rewrite Z.min_r by lia. rewrite Pos_iter_xO_valor, digits2_pos_iter_xO.
    replace (e - e') with (Zpos d) by lia. lia.
Qed.

Lemma finito_unidades (sz : bool) (mz : positive) (ez : Z) :
  finito prec emax (S754_finite sz mz ez) ->
  canon prec emax (Zpos mz) ez /\ ez <= emax - prec
  /\ unidades prec emax (S754_finite sz mz ez)
     = cond_Zopp sz (Zpos mz * 2 ^ (ez - emin prec emax))
  /\ Zpos mz * 2 ^ (ez - emin prec emax) < 2 ^ (emax - emin prec emax).
Proof.
  intros [Hv _]. cbn in Hv. unfold bounded, canonical_mantissa in Hv.
  apply andb_true_iff in Hv as [Hc Hle].
  apply Z.eqb_eq in Hc. apply Z.leb_le in Hle.
  assert (Hcan : canon prec emax (Zpos mz) ez) by exact Hc.
  split; [exact Hcan|]. split; [exact Hle|]. split; [reflexivity|].
  pose proof (canon_emin _ _ Hcan) as Hez.
  pose proof (Zdigits2_pow (Zpos mz) ltac:(lia)) as [_ Hlt].
  assert (Hd : Zdigits2 (Zpos mz) <= prec).
  { unfold canon, fexp in Hcan. lia. }
  pose proof (Zdigits2_nonneg (Zpos mz)) as Hd0.
  apply Z.lt_le_trans
    with (2 ^ Zdigits2 (Zpos mz) * 2 ^ (ez - emin prec emax)).
  - apply Z.mul_lt_mono_pos_r; [apply Z.pow_pos_nonneg; lia|exact Hlt].
  - rewrite <- Z.pow_add_r by lia. apply Z.pow_le_mono_r; lia.
Qed.

(** Rounding a mantissa with a sign: a nearest float of the format, or the
    infinity of that sign when the number is beyond every finite float. *)
Lemma binary_round_arredonda (s : bool) (m : positive) (e : Z) :
  emin prec emax <= e ->
  arredonda prec emax (cond_Zopp s (Zpos m * 2 ^ (e - emin prec emax)))
    (binary_round prec emax s m e).
Proof.
  intros He. unfold binary_round.
  pose proof (shl_align_valor m e (fexp prec emax (Zpos (digits2_pos m) + e)))
    as (Hez & Hmz & Hdig).
  destruct (shl_align m e (fexp prec emax (Zpos (digits2_pos m) + e)))
    as [mz ez]. cbn [fst snd] in *.
  assert (Hemin : emin prec emax <= ez) by (unfold fexp in *; lia).
  assert (Hfexp : ez <= fexp prec emax (Zdigits2 (Zpos mz) + ez)).
  { cbn [Zdigits2]. rewrite Hdig. lia. }
  destruct (binary_round_aux_mais_proximo s (Zpos mz) ez ltac:(lia) Hemin
              Hfexp) as (m2 & e2 & Hres & Hm2 & Hc2 & Hdobro & Hprox).
  rewrite Hres. clear Hres.
  assert (HX : Zpos mz * 2 ^ (ez - emin prec emax)
               = Zpos m * 2 ^ (e - emin prec emax)).
  { rewrite Hmz, <- Z.mul_assoc, <- Z.pow_add_r by lia. do 2 f_equal. lia. }
  rewrite HX in Hdobro, Hprox.
  set (u := emin prec emax) in *.
  set (X := Zpos m * 2 ^ (e - u)) in *.
  assert (HXpos : 0 < X).
  { subst X. apply Z.mul_pos_pos; [lia|apply Z.pow_pos_nonneg; lia]. }
  pose proof (canon_emin _ _ Hc2) as He2.
  set (r := m2 * 2 ^ (e2 - u)) in *.
  assert (Hr0 : 0 <= r).
  { subst r. apply Z.mul_nonneg_nonneg; [lia|apply Z.pow_nonneg; lia]. }
  (* every finite float of the format, with either sign *)
  assert (Htodos : forall z, finito prec emax z ->
            Z.abs (cond_Zopp s r - cond_Zopp s X)
            <= Z.abs (unidades prec emax z - cond_Zopp s X)).
  { intros z Hz. destruct z as [sz|sz| |sz mz' ez']; try (exfalso; exact (proj2 Hz)).
    - cbn [unidades]. destruct s; cbn [cond_Zopp]; lia.
    - destruct (finito_unidades sz mz' ez' Hz) as (Hcz & _ & Hu & _).
      rewrite Hu. specialize (Hprox (Zpos mz') ez' ltac:(lia) Hcz).
      fold u in Hprox |- *.
      assert (0 <= Zpos mz' * 2 ^ (ez' - u)).
      { apply Z.mul_nonneg_nonneg; [lia|apply Z.pow_nonneg].  lia. }
      destruct s, sz; cbn [cond_Zopp]; lia. }
  destruct m2 as [|p|p]; [| |lia].
  - left. split; [split; [reflexivity|exact I]|].
    intros z Hz. specialize (Htodos z Hz). cbn [unidades].
    replace r with 0 in Htodos by (subst r; lia).
    destruct s; cbn [cond_Zopp] in *; lia.
  - destruct (e2 <=? emax - prec) eqn:Hle.
    + left. split.
      * split; [|exact I]. cbn. unfold bounded, canonical_mantissa.
        rewrite Hle, andb_true_r. apply Z.eqb_eq. exact Hc2.
      * intros z Hz. specialize (Htodos z Hz). cbn [unidades]. fold u r.
        exact Htodos.
    + apply Z.leb_gt in Hle. right.
      assert (Hgrande : 2 ^ (emax - u) <= r).
      { assert (Hd : Zdigits2 (Zpos p) = prec).
        { unfold canon, fexp in Hc2. fold u in Hc2.
          unfold emin in u. subst u. lia. }
        pose proof (Zdigits2_pow (Zpos p) ltac:(lia)) as [Hp _].
        rewrite Hd in Hp.
        apply Z.le_trans with (2 ^ (prec - 1) * 2 ^ (e2 - u)).
        - rewrite <- Z.pow_add_r by lia. apply Z.pow_le_mono_r; lia.
        - apply Z.mul_le_mono_nonneg_r; [apply Z.pow_nonneg; lia|exact Hp]. }
      assert (Hfora : forall z, finito prec emax z ->
                cond_Zopp s (unidades prec emax z) < X).
      { intros z Hz. specialize (Htodos z Hz).
        assert (Hlim : Z.abs (unidades prec emax z) < 2 ^ (emax - u)).
        { destruct z as [sz|sz| |sz mz' ez']; try (exfalso; exact (proj2 Hz)).
          - cbn. apply Z.pow_pos_nonneg; unfold emin in u; subst u; lia.
          - destruct (finito_unidades sz mz' ez' Hz) as (_ & _ & Hu & Hlt).
            rewrite Hu. fold u in Hlt |- *.
            assert (0 <= Zpos mz' * 2 ^ (ez' - u)).
            { apply Z.mul_nonneg_nonneg; [lia|apply Z.pow_nonneg].
              pose proof (finito_unidades sz mz' ez' Hz) as (Hcz & _).
              pose proof (canon_emin _ _ Hcz). lia. }
            destruct sz; cbn [cond_Zopp]; lia. }
        destruct s; cbn [cond_Zopp] in *; lia. }
      destruct s; cbn [cond_Zopp] in *.
      * right. split; [reflexivity|]. intros z Hz.
        specialize (Hfora z Hz). lia.
      * left. split; [reflexivity|]. intros z Hz.
        specialize (Hfora z Hz). lia.
Qed.

Lemma binary_normalize_arredonda (m e : Z) :
  emin prec emax <= e ->
  arredonda prec emax (m * 2 ^ (e - emin prec emax))
    (binary_normalize prec emax m e false).
Proof.
  intros He. destruct m as [|p|p]; cbn [binary_normalize].
  - left. split; [split; [reflexivity|exact I]|].
    intros z _. cbn [unidades]. lia.
  - apply (binary_round_arredonda false p e He).
  - pose proof (binary_round_arredonda true p e He) as H.
    cbn [cond_Zopp] in H.
    replace (Zneg p * 2 ^ (e - emin prec emax))
      with (- (Zpos p * 2 ^ (e - emin prec emax))) by lia.
    exact H.
Qed.

Lemma mais_proximo_exato (q : Z) (x : spec_float) :
  finito prec emax x -> unidades prec emax x = q ->
  mais_proximo prec emax q x.
Proof. intros Hx Hq. split; [exact Hx|]. intros z _. lia. Qed.

Lemma alinhado_unidades (s : bool) (m : positive) (e ez : Z) :
  emin prec emax <= ez -> ez <= e ->
  cond_Zopp s (Zpos (fst (shl_align m e ez))) * 2 ^ (ez - emin prec emax)
  = unidades prec emax (S754_finite s m e).
Proof.
  intros Hu Hle. destruct (shl_align_valor m e ez) as (_ & Hm & _).
  rewrite Hm, Z.min_r by lia. cbn [unidades].
  assert (H : Zpos m * 2 ^ (e - ez) * 2 ^ (ez - emin prec emax)
              = Zpos m * 2 ^ (e - emin prec emax)).
  { rewrite <- Z.mul_assoc, <- Z.pow_add_r by lia. do 2 f_equal. lia. }
  destruct s; cbn [cond_Zopp]; lia.
Qed.

(** The sum of two finite floats is their exact sum, rounded. *)
Lemma SFadd_arredonda (x y : spec_float) :
  finito prec emax x -> finito prec emax y ->
  arredonda prec emax (unidades prec emax x + unidades prec emax y)
    (SFadd prec emax x y).
Proof.
  intros Hx Hy.
  destruct x as [sx|sx| |sx mx ex]; try (exfalso; exact (proj2 Hx));
    destruct y as [sy|sy| |sy my ey]; try (exfalso; exact (proj2 Hy)).
  - left. apply mais_proximo_exato; destruct sx, sy; cbn; auto.
    all: split; [reflexivity|exact I].
  - left. apply mais_proximo_exato; [exact Hy|]. cbn [SFadd unidades]. lia.
  - left. apply mais_proximo_exato; [exact Hx|]. cbn [SFadd unidades]. lia.
  - cbn [SFadd]. cbv zeta.
    destruct (finito_unidades sx mx ex Hx) as (Hcx & _).
    destruct (finito_unidades sy my ey Hy) as (Hcy & _).
    pose proof (canon_emin _ _ Hcx). pose proof (canon_emin _ _ Hcy).
    rewrite <- (alinhado_unidades sx mx ex (Z.min ex ey)) by lia.
    rewrite <- (alinhado_unidades sy my ey (Z.min ex ey)) by lia.
    rewrite <- Z.mul_add_distr_r.
    apply binary_normalize_arredonda. lia.
Qed.

(** The difference of two finite floats is their exact difference,
    rounded. *)
Lemma SFsub_arredonda (x y : spec_float) :
  finito prec emax x -> finito prec emax y ->
  arredonda prec emax (unidades prec emax x - unidades prec emax y)
    (SFsub prec emax x y).
Proof.
  intros Hx Hy.
  destruct x as [sx|sx| |sx mx ex]; try (exfalso; exact (proj2 Hx));
    destruct y as [sy|sy| |sy my ey]; try (exfalso; exact (proj2 Hy)).
  - left. apply mais_proximo_exato; destruct sx, sy; cbn; auto.
    all: split; [reflexivity|exact I].
  - left. apply mais_proximo_exato.
    + split; [exact (proj1 Hy)|exact I].
    + cbn [SFsub unidades]. destruct sy; cbn [negb cond_Zopp]; lia.
  - left. apply mais_proximo_exato; [exact Hx|]. cbn [SFsub unidades]. lia.
  - cbn [SFsub]. cbv zeta.
    destruct (finito_unidades sx mx ex Hx) as (Hcx & _).
    destruct (finito_unidades sy my ey Hy) as (Hcy & _).
    pose proof (canon_emin _ _ Hcx). pose proof (canon_emin _ _ Hcy).
    rewrite <- (alinhado_unidades sx mx ex (Z.min ex ey)) by lia.
    rewrite <- (alinhado_unidades sy my ey (Z.min ex ey)) by lia.
    rewrite <- Z.mul_sub_distr_r.
    apply binary_normalize_arredonda. lia.
Qed.

(** An amount that is finite and not [<= 0] is above zero. *)
Lemma positivo_unidades (v : spec_float) :
  finito prec emax v -> SFleb v (S754_zero false) = false ->
  0 < unidades prec emax v.
Proof.
  intros Hv Hpos.
  destruct v as [sv|sv| |sv mv ev]; try (exfalso; exact (proj2 Hv));
    [discriminate Hpos|].
  destruct sv; [discriminate Hpos|].
  destruct (finito_unidades false mv ev Hv) as (Hc & _).
  pose proof (canon_emin _ _ Hc). cbn [unidades cond_Zopp].
  apply Z.mul_pos_pos; [lia|apply Z.pow_pos_nonneg; lia].
Qed.

(** A finite float that is not below a positive one holds at least as many
    units. *)
Lemma nao_menor_unidades (x v : spec_float) :
  finito prec emax x -> finito prec emax v ->
  SFleb v (S754_zero false) = false -> SFltb x v = false ->
  unidades prec emax v <= unidades prec emax x.
Proof.
  intros Hx Hv Hpos Hlt.
  destruct v as [sv|sv| |sv mv ev]; try (exfalso; exact (proj2 Hv));
    [discriminate Hpos|].
  destruct sv; [discriminate Hpos|].
  destruct x as [sx|sx| |sx mx ex]; try (exfalso; exact (proj2 Hx));
    [discriminate Hlt|].
  destruct sx; [discriminate Hlt|].
  destruct (finito_unidades false mx ex Hx) as (Hcx & _).
  destruct (finito_unidades false mv ev Hv) as (Hcv & _).
  pose proof (canon_emin _ _ Hcx) as Hex.
  pose proof (canon_emin _ _ Hcv) as Hev.
  cbn [unidades cond_Zopp].
  revert Hlt. unfold SFltb, SFcompare.
  destruct (Z.compare_spec ex ev) as [Heq|Hl|Hg]; [|discriminate|].
  - subst ev. intros Hcmp. rewrite Pos.compare_cont_spec in Hcmp.
    cbn in Hcmp.
    apply Z.mul_le_mono_nonneg_r; [apply Z.pow_nonneg; lia|].
    destruct (Pos.compare_spec mx mv); try discriminate Hcmp; lia.
  - intros _.
    assert (Hdx : Zdigits2 (Zpos mx) = prec).
    { unfold canon, fexp in Hcx. lia. }
    assert (Hdv : Zdigits2 (Zpos mv) <= prec).
    { unfold canon, fexp in Hcv. lia. }
    pose proof (Zdigits2_pow (Zpos mx) ltac:(lia)) as [Hmx _].
    pose proof (Zdigits2_pow (Zpos mv) ltac:(lia)) as [_ Hmv].
    pose proof (Zdigits2_nonneg (Zpos mv)) as Hd0.
    rewrite Hdx in Hmx.
    apply Z.le_trans with (2 ^ prec * 2 ^ (ev - emin prec emax)).
    + apply Z.mul_le_mono_nonneg_r; [apply Z.pow_nonneg; lia|].
      pose proof (Z.pow_le_mono_r 2 (Zdigits2 (Zpos mv)) prec ltac:(lia) Hdv).
      lia.
    + apply Z.le_trans with (2 ^ (prec - 1) * 2 ^ (ex - emin prec emax)).
      * rewrite <- !Z.pow_add_r by lia. apply Z.pow_le_mono_r; lia.
      * apply Z.mul_le_mono_nonneg_r; [apply Z.pow_nonneg; lia|exact Hmx].
Qed.

(** On finite floats, [v <= 0] compares the number of units with zero. *)
Lemma le_zero_unidades (v : spec_float) :
  finito prec emax v ->
  SFleb v (S754_zero false) = true <-> unidades prec emax v <= 0.
Proof.
  intros Hv. destruct (SFleb v (S754_zero false)) eqn:Hle.
  - split; [intros _|reflexivity].
    destruct v as [s|s| |s m e]; try (exfalso; exact (proj2 Hv));
      [cbn; lia|].
    destruct s; [|discriminate Hle].
    destruct (finito_unidades true m e Hv) as (Hc & _).
    pose proof (canon_emin _ _ Hc). cbn [unidades cond_Zopp].
    assert (0 <= Zpos m * 2 ^ (e - emin prec emax)); [|lia].
    apply Z.mul_nonneg_nonneg; [lia|apply Z.pow_nonneg; lia].
  - pose proof (positivo_unidades v Hv Hle). split; [discriminate|lia].
Qed.

(** A finite float that is below a positive one holds fewer units. *)
Lemma menor_unidades (x v : spec_float) :
  finito prec emax x -> finito prec emax v ->
  SFleb v (S754_zero false) = false -> SFltb x v = true ->
  unidades prec emax x < unidades prec emax v.
Proof.
  intros Hx Hv Hpos Hlt.
  pose proof (positivo_unidades v Hv Hpos) as Hv0.
  destruct v as [sv|sv| |sv mv ev]; try (exfalso; exact (proj2 Hv));
    [discriminate Hpos|].
  destruct sv; [discriminate Hpos|].
  destruct x as [sx|sx| |sx mx ex]; try (exfalso; exact (proj2 Hx));
    [cbn [unidades] in *; lia|].
  destruct (finito_unidades sx mx ex Hx) as (Hcx & _).
  destruct (finito_unidades false mv ev Hv) as (Hcv & _).
  pose proof (canon_emin _ _ Hcx) as Hex.
  pose proof (canon_emin _ _ Hcv) as Hev.
  assert (HX : 0 <= Zpos mx * 2 ^ (ex - emin prec emax)).
  { apply Z.mul_nonneg_nonneg; [lia|apply Z.pow_nonneg; lia]. }
  destruct sx; [cbn [unidades cond_Zopp] in *; lia|].
  cbn [unidades cond_Zopp].
  revert Hlt. unfold SFltb, SFcompare.
  destruct (Z.compare_spec ex ev) as [Heq|Hl|Hg]; [| |discriminate].
  - subst ev. intros Hcmp. rewrite Pos.compare_cont_spec in Hcmp.
    cbn in Hcmp.
    apply Z.mul_lt_mono_pos_r; [apply Z.pow_pos_nonneg; lia|].
    destruct (Pos.compare_spec mx mv); try discriminate Hcmp; lia.
  - intros _.
    assert (Hdv : Zdigits2 (Zpos mv) = prec).
    { unfold canon, fexp in Hcv. lia. }
    assert (Hdx : Zdigits2 (Zpos mx) <= prec).
    { unfold canon, fexp in Hcx. lia. }
    pose proof (Zdigits2_pow (Zpos mv) ltac:(lia)) as [Hmv _].
    pose proof (Zdigits2_pow (Zpos mx) ltac:(lia)) as [_ Hmx].
    pose proof (Zdigits2_nonneg (Zpos mx)) as Hd0.
    rewrite Hdv in Hmv.
    apply Z.lt_le_trans with (2 ^ prec * 2 ^ (ex - emin prec emax)).
    + apply Z.mul_lt_mono_pos_r; [apply Z.pow_pos_nonneg; lia|].
      pose proof (Z.pow_le_mono_r 2 (Zdigits2 (Zpos mx)) prec ltac:(lia) Hdx).
      lia.
    + apply Z.le_trans with (2 ^ (prec - 1) * 2 ^ (ev - emin prec emax)).
      * rewrite <- !Z.pow_add_r by lia. apply Z.pow_le_mono_r; lia.
      * apply Z.mul_le_mono_nonneg_r; [apply Z.pow_nonneg; lia|exact Hmv].
Qed.

(** The two tests of a withdrawal, on finite floats: the amount is refused
    exactly when it is not above zero or is above the balance. *)
Lemma recusa_de_saque_unidades (x v : spec_float) :
  finito prec emax x -> finito prec emax v ->
  SFleb v (S754_zero false) || SFltb x v = true
  <-> unidades prec emax v <= 0
      \/ unidades prec emax x < unidades prec emax v.
Proof.
  intros Hx Hv. pose proof (le_zero_unidades v Hv) as Hle.
  destruct (SFleb v (S754_zero false)) eqn:Hpos; cbn [orb].
  - split; [intros _; left; apply Hle; reflexivity|reflexivity].
  - pose proof (positivo_unidades v Hv Hpos) as Hv0.
    destruct (SFltb x v) eqn:Hlt.
    + pose proof (menor_unidades x v Hx Hv Hpos Hlt).
      split; [right; assumption|reflexivity].
    + pose proof (nao_menor_unidades x v Hx Hv Hpos Hlt).
      split; [discriminate|lia].
Qed.

Lemma finito_zero : finito prec emax (S754_zero false).
Proof. split; [reflexivity|exact I]. Qed.

(** The balance after an accepted withdrawal of a finite amount from a
    finite balance: a float nearest to the exact difference, not below zero
    and not above the balance before. *)
Lemma SFsub_saque (x v : spec_float) :
  finito prec emax x -> finito prec emax v ->
  SFleb v (S754_zero false) = false -> SFltb x v = false ->
  mais_proximo prec emax (unidades prec emax x - unidades prec emax v)
    (SFsub prec emax x v)
  /\ 0 <= unidades prec emax (SFsub prec emax x v) <= unidades prec emax x.
Proof.
  intros Hx Hv Hpos Hlt.
  pose proof (positivo_unidades v Hv Hpos) as Hv0.
  pose proof (nao_menor_unidades x v Hx Hv Hpos Hlt) as Hxv.
  assert (Hprox : mais_proximo prec emax
                    (unidades prec emax x - unidades prec emax v)
                    (SFsub prec emax x v)).
  { destruct (SFsub_arredonda x v Hx Hv) as [H|[[_ H]|[_ H]]]; [exact H| |].
    - specialize (H x Hx). lia.
    - specialize (H _ finito_zero). cbn [unidades] in H. lia. }
  split; [exact Hprox|].
  destruct Hprox as [_ Hp].
  pose proof (Hp x Hx). pose proof (Hp _ finito_zero) as H0.
  cbn [unidades] in H0. lia.
Qed.

(** The balance after an accepted deposit of a finite amount on a finite
    balance: a float nearest to the exact sum and not below the balance
    before, or [inf] when the sum is above every finite float. *)
Lemma SFadd_deposito (x v : spec_float) :
  finito prec emax x -> finito prec emax v ->
  SFleb v (S754_zero false) = false ->
  (mais_proximo prec emax (unidades prec emax x + unidades prec emax v)
     (SFadd prec emax x v)
   /\ unidades prec emax x <= unidades prec emax (SFadd prec emax x v))
  \/ (SFadd prec emax x v = S754_infinity false
      /\ forall z, finito prec emax z ->
           unidades prec emax z
           < unidades prec emax x + unidades prec emax v).
Proof.
  intros Hx Hv Hpos.
  pose proof (positivo_unidades v Hv Hpos) as Hv0.
  destruct (SFadd_arredonda x v Hx Hv) as [H|[H|[_ H]]].
  - left. split; [exact H|]. destruct H as [_ Hp].
    pose proof (Hp x Hx). lia.
  - right. exact H.
  - specialize (H x Hx). lia.
Qed.

End MaisProximo.

(** ** Conta: withdrawing and depositing *)

(** The example account with balance 1e16 is a new account after one
    deposit. *)
Lemma conta_1e16_alcancada :
  Conta.depositar (Float.of_Z (10 ^ 16)) (Conta.nova_conta 0 1) mundo_vazio
  = Ok true conta_1e16 (escreve (Texto Conta.msg_deposito_ok) mundo_vazio).
Proof. vm_compute. reflexivity. Qed.

(** C1, as the code has it.  [Conta.sacar] refuses the amount when
    [valor <= 0] or [valor > saldo]: it returns [False] and the balance read
    back is the one before.  Otherwise it returns [True] and the balance
    read back is [saldo - valor] as the subtraction of floats gives it.
    Number, branch, owner and history are the same in both cases, and one
    line is printed.

    For a finite balance and a finite amount the two tests and the
    subtraction are read on exact values: the amount is refused exactly
    when it is not above zero or is above the balance; when it is accepted,
    the new balance is a float nearest to the exact difference, so it is the
    exact difference whenever that is a float, and it is neither below zero
    nor above the balance before. *)
Theorem conta_sacar_spec (self : Conta.t) (valor : Float.t) (w : Mundo) :
  let recusa :=
    Float.le valor Float.zero || Float.gt valor (Conta.saldo self) in
  exists msg self',
    Conta.sacar valor self w
    = Ok (negb recusa) self' (escreve (Texto msg) w)
    /\ Conta.saldo self'
       = (if recusa then Conta.saldo self
          else Float.sub (Conta.saldo self) valor)
    /\ Conta.numero self' = Conta.numero self
    /\ Conta.agencia self' = Conta.agencia self
    /\ Conta.cliente self' = Conta.cliente self
    /\ Conta.historico self' = Conta.historico self
    /\ (valor_finito (Conta.saldo self) -> valor_finito valor ->
        (recusa = true
         <-> (exato valor <= 0 \/ exato (Conta.saldo self) < exato valor)%Z)
        /\ (recusa = false ->
            float_mais_proximo (exato (Conta.saldo self) - exato valor)
              (Conta.saldo self')
            /\ (0 <= exato (Conta.saldo self')
                <= exato (Conta.saldo self))%Z)).
Proof.
  cbv zeta. executa. unfold Conta.saldo, Float.le, Float.gt, Float.zero.
  destruct self as [x n a c h]. cbn [Conta._saldo].
  destruct (SFleb valor (S754_zero false)) eqn:Hle; cbn [orb negb].
  - do 2 eexists. split; [reflexivity|]. cbn.
    repeat (split; [reflexivity|]).
    intros Hx Hv. split; [|discriminate].
    rewrite <- (recusa_de_saque_unidades Float.prec Float.emax eq_refl x valor Hx Hv).
    rewrite Hle. reflexivity.
  - destruct (SFltb x valor) eqn:Hlt; cbn [negb].
    + do 2 eexists. split; [reflexivity|]. cbn.
      repeat (split; [reflexivity|]).
      intros Hx Hv. split; [|discriminate].
      rewrite <- (recusa_de_saque_unidades Float.prec Float.emax eq_refl x valor Hx Hv).
      rewrite Hle, Hlt. reflexivity.
    + do 2 eexists. split; [reflexivity|]. cbn.
      repeat (split; [reflexivity|]).
      intros Hx Hv. split.
      * rewrite <- (recusa_de_saque_unidades Float.prec Float.emax eq_refl x valor Hx Hv).
        rewrite Hle, Hlt. reflexivity.
      * intros _.
        exact (SFsub_saque Float.prec Float.emax eq_refl eq_refl x valor Hx Hv Hle
                 Hlt).
Qed.

(** C1, as stated, fails: withdrawing 1.0 from a balance of 1e16 is
    accepted and reports success, and the balance read back is still 1e16,
    not 1e16 less the amount. *)
Lemma conta_sacar_spec_counterexample :
  Float.le (Float.of_Z 1) Float.zero
  || Float.gt (Float.of_Z 1) (Conta.saldo conta_1e16) = false
  /\ Conta.sacar (Float.of_Z 1) conta_1e16 mundo_vazio
     = Ok true conta_1e16 (escreve (Texto Conta.msg_saque_ok) mundo_vazio)
  /\ exato (Conta.saldo conta_1e16) = (10 ^ 16 * 2 ^ 1074)%Z
  /\ exato (Float.of_Z 1) = (2 ^ 1074)%Z
  /\ exato
       (Conta.saldo
          (estado_final (Conta.sacar (Float.of_Z 1) conta_1e16 mundo_vazio)))
     <> (exato (Conta.saldo conta_1e16) - exato (Float.of_Z 1))%Z.
Proof.
  split; [reflexivity|]. split; [vm_compute; reflexivity|].
  split; [vm_compute; reflexivity|]. split; [vm_compute; reflexivity|].
  vm_compute. discriminate.
Qed.

(** Withdrawing 200.0 from a balance of 1000.0: the exact difference is a
    float, and the balance read back is 800.0. *)
Lemma conta_sacar_spec_witness :
  exists msg self',
    Conta.sacar (Float.of_Z 200) (ContaCorrente.super conta_mil) mundo_vazio
    = Ok true self' (escreve (Texto msg) mundo_vazio)
    /\ float_mais_proximo (exato (Float.of_Z 1000) - exato (Float.of_Z 200))
         (Conta.saldo self')
    /\ Conta.saldo self' = Float.of_Z 800.
Proof.
  destruct (conta_sacar_spec (ContaCorrente.super conta_mil) (Float.of_Z 200)
              mundo_vazio)
    as (msg & self' & Hres & Hsaldo & _ & _ & _ & _ & Hfin).
  exists msg, self'. split; [exact Hres|].
  destruct Hfin as [_ Hac]; [split; [reflexivity|exact I]..|].
  split; [apply Hac; reflexivity|].
  rewrite Hsaldo. vm_compute. reflexivity.
Defined.

(** C2, as the code has it.  [Conta.depositar] refuses the amount when
    [valor <= 0]: it returns [False] and the balance read back is the one
    before.  Otherwise it returns [True] and the balance read back is
    [saldo + valor] as the addition of floats gives it.  Number, branch,
    owner and history are the same in both cases, and one line is printed.

    For a finite balance and a finite amount the test and the addition are
    read on exact values: the amount is refused exactly when it is not above
    zero; when it is accepted, the new balance is a float nearest to the
    exact sum, so it is the exact sum whenever that is a float, and it is
    not below the balance before; or it is [inf], when the exact sum is
    above every finite float. *)
Theorem conta_depositar_spec (self : Conta.t) (valor : Float.t) (w : Mundo) :
  let recusa := Float.le valor Float.zero in
  exists msg self',
    Conta.depositar valor self w
    = Ok (negb recusa) self' (escreve (Texto msg) w)
    /\ Conta.saldo self'
       = (if recusa then Conta.saldo self
          else Float.add (Conta.saldo self) valor)
    /\ Conta.numero self' = Conta.numero self
    /\ Conta.agencia self' = Conta.agencia self
    /\ Conta.cliente self' = Conta.cliente self
    /\ Conta.historico self' = Conta.historico self
    /\ (valor_finito (Conta.saldo self) -> valor_finito valor ->
        (recusa = true <-> (exato valor <= 0)%Z)
        /\ (recusa = false ->
            (float_mais_proximo (exato (Conta.saldo self) + exato valor)
               (Conta.saldo self')
             /\ (exato (Conta.saldo self) <= exato (Conta.saldo self'))%Z)
            \/ (Conta.saldo self' = Float.inf
                /\ acima_de_todo_float
                     (exato (Conta.saldo self) + exato valor)))).
Proof.
  cbv zeta. executa. unfold Conta.saldo, Float.le, Float.zero.
  destruct self as [x n a c h]. cbn [Conta._saldo].
  destruct (SFleb valor (S754_zero false)) eqn:Hle; cbn [negb].
  - do 2 eexists. split; [reflexivity|]. cbn.
    repeat (split; [reflexivity|]).
    intros Hx Hv. split; [|discriminate].
    pose proof (le_zero_unidades Float.prec Float.emax eq_refl valor Hv) as H.
    rewrite Hle in H. exact H.
  - do 2 eexists. split; [reflexivity|]. cbn.
    repeat (split; [reflexivity|]).
    intros Hx Hv. split.
    + pose proof (le_zero_unidades Float.prec Float.emax eq_refl valor Hv) as H.
    rewrite Hle in H. exact H.
    + intros _.
      exact (SFadd_deposito Float.prec Float.emax eq_refl eq_refl x valor Hx Hv
               Hle).
Qed.

(** C2, as stated, fails: depositing 1.0 on a balance of 1e16 is accepted
    and reports success, and the balance read back is still 1e16, not 1e16
    plus the amount. *)
Lemma conta_depositar_spec_counterexample :
  Float.le (Float.of_Z 1) Float.zero = false
  /\ Conta.depositar (Float.of_Z 1) conta_1e16 mundo_vazio
     = Ok true conta_1e16 (escreve (Texto Conta.msg_deposito_ok) mundo_vazio)
  /\ exato (Conta.saldo conta_1e16) = (10 ^ 16 * 2 ^ 1074)%Z
  /\ exato (Float.of_Z 1) = (2 ^ 1074)%Z
  /\ exato
       (Conta.saldo
          (estado_final
             (Conta.depositar (Float.of_Z 1) conta_1e16 mundo_vazio)))
     <> (exato (Conta.saldo conta_1e16) + exato (Float.of_Z 1))%Z.
Proof.
  split; [reflexivity|]. split; [vm_compute; reflexivity|].
  split; [vm_compute; reflexivity|]. split; [vm_compute; reflexivity|].
  vm_compute. discriminate.
Qed.

(** Depositing 200.0 on a balance of 1000.0: the exact sum is a float, and
    the balance read back is 1200.0. *)
Lemma conta_depositar_spec_witness :
  exists msg self',
    Conta.depositar (Float.of_Z 200) (ContaCorrente.super conta_mil)
      mundo_vazio
    = Ok true self' (escreve (Texto msg) mundo_vazio)
    /\ float_mais_proximo (exato (Float.of_Z 1000) + exato (Float.of_Z 200))
         (Conta.saldo self')
    /\ Conta.saldo self' = Float.of_Z 1200.
Proof.
  destruct (conta_depositar_spec (ContaCorrente.super conta_mil)
              (Float.of_Z 200) mundo_vazio)
    as (msg & self' & Hres & Hsaldo & _ & _ & _ & _ & Hfin).
  exists msg, self'. split; [exact Hres|].
  destruct Hfin as [_ Hac]; [split; [reflexivity|exact I]..|].
  assert (Hs : Conta.saldo self' = Float.of_Z 1200).
  { rewrite Hsaldo. vm_compute. reflexivity. }
  split; [|exact Hs].
  destruct (Hac eq_refl) as [[Hp _]|[Hinf _]]; [exact Hp|].
  rewrite Hs in Hinf. discriminate Hinf.
Defined.

(** ** ContaCorrente: the two limits *)

Lemma limite_padrao_500 (cliente : nat) (numero : Z) :
  ContaCorrente._limite (ContaCorrente.nova_conta cliente numero)
    = Float.of_Z 500
  /\ ContaCorrente._limite_saques (ContaCorrente.nova_conta cliente numero)
    = 3%Z.
Proof. split; reflexivity. Qed.

(** C3. On a checking account in any state, a withdrawal of more than the
    limit of the account returns [False], prints the message of the limit
    and leaves the account, hence the balance, as it was. *)
Theorem conta_corrente_sacar_acima_do_limite
    (self : ContaCorrente.t) (valor : Float.t) (w : Mundo) :
  Float.gt valor (ContaCorrente._limite self) = true ->
  ContaCorrente.sacar valor self w =
    Ok false self (escreve (Texto ContaCorrente.msg_excede_limite) w).
Proof.
  intros Hlim. executa. rewrite Hlim. reflexivity.
Qed.

Lemma conta_corrente_sacar_acima_do_limite_witness :
  ContaCorrente.sacar (Float.of_Z 600) conta_mil mundo_vazio =
    Ok false conta_mil
       (escreve (Texto ContaCorrente.msg_excede_limite) mundo_vazio)
  /\ ContaCorrente.saldo conta_mil = Float.of_Z 1000.
Proof.
  split.
  - apply conta_corrente_sacar_acima_do_limite. reflexivity.
  - reflexivity.
Defined.

(** C4, as the code has it.  On a checking account whose history holds at
    least [limite_saques] withdrawals, every withdrawal returns [False] and
    leaves the account as it was.  The limit on the amount is checked first:
    the message is the one of the number of withdrawals when the amount is
    not above the limit, and the one of the limit otherwise. *)
Theorem conta_corrente_sacar_apos_maximo
    (self : ContaCorrente.t) (valor : Float.t) (w : Mundo) :
  (ContaCorrente.saques_realizados self
     >=? ContaCorrente._limite_saques self)%Z = true ->
  ContaCorrente.sacar valor self w =
    Ok false self
       (escreve
          (Texto (if Float.gt valor (ContaCorrente._limite self)
                  then ContaCorrente.msg_excede_limite
                  else ContaCorrente.msg_max_saques))
          w).
Proof.
  intros Hmax. executa. rewrite Hmax.
  destruct (Float.gt valor (ContaCorrente._limite self)); reflexivity.
Qed.

Lemma conta_corrente_sacar_apos_maximo_witness :
  ContaCorrente.sacar (Float.of_Z 1) conta_tres_saques mundo_vazio =
    Ok false conta_tres_saques
       (escreve (Texto ContaCorrente.msg_max_saques) mundo_vazio).
Proof.
  apply (conta_corrente_sacar_apos_maximo conta_tres_saques (Float.of_Z 1)).
  reflexivity.
Defined.

(** C4, as stated, fails: with three withdrawals in the history, a
    withdrawal of 600.0 is refused for its amount, not for the number of
    withdrawals. *)
Lemma conta_corrente_sacar_apos_maximo_counterexample :
  (ContaCorrente.saques_realizados conta_tres_saques
     >=? ContaCorrente._limite_saques conta_tres_saques)%Z = true
  /\ ContaCorrente.sacar (Float.of_Z 600) conta_tres_saques mundo_vazio =
       Ok false conta_tres_saques
          (escreve (Texto ContaCorrente.msg_excede_limite) mundo_vazio)
  /\ ContaCorrente.sacar (Float.of_Z 600) conta_tres_saques mundo_vazio <>
       Ok false conta_tres_saques
          (escreve (Texto ContaCorrente.msg_max_saques) mundo_vazio).
Proof.
  split; [reflexivity|]. split; [reflexivity|].
  vm_compute. discriminate.
Qed.

(** ** Transactions and the history *)

(** An account operation returns (it raises nothing), prints one line and
    leaves the history and the two limits as they were; when it returns
    [False] the whole account is as it was. *)
Lemma operacao_total (transacao : Transacao.t) (conta : instancia) (w : Mundo) :
  exists ok conta1 msg,
    operacao transacao conta w = Ok ok conta1 (escreve (Texto msg) w)
    /\ historico conta1 = historico conta
    /\ (ok = false -> conta1 = conta).
Proof.
  destruct transacao as [v|v], conta as [c|[c lim n]];
    unfold operacao; executa;
    repeat match goal with
      | |- context [if ?b then _ else _] => destruct b; cbn
      end;
    do 3 eexists; (split; [reflexivity|split; [reflexivity|]]);
    intros Hok; first [reflexivity | discriminate Hok].
Qed.

(** C5. Registering a transaction runs the account operation once.  When
    the operation returns [True], the history grows by exactly one record,
    at its end, with the kind and the amount of the transaction; when it
    returns [False], the history is as it was.  Recording does not touch the
    balance the operation left. *)
Theorem registrar_spec
    (transacao : Transacao.t) (conta : instancia) (w : Mundo) :
  exists ok conta1 w1 conta2 w2,
    operacao transacao conta w = Ok ok conta1 w1
    /\ chama_registrar transacao conta w = Ok tt conta2 w2
    /\ Historico.transacoes (historico conta2) =
         (Historico.transacoes (historico conta)
          ++ (if ok : bool then
                [Historico.mkRegistro (tipo_esperado transacao)
                   (Transacao.valor transacao) (relogio w1 (leituras w1))]
              else []))%list
    /\ saldo conta2 = saldo conta1.
Proof.
  destruct (operacao_total transacao conta w)
    as (ok & conta1 & msg & Hop & Hhist & Hfalse).
  exists ok, conta1, (escreve (Texto msg) w).
  assert (Hreg : chama_registrar transacao conta w =
            if ok then
              em historico set_historico
                (Historico.adicionar_transacao transacao)
                conta1 (escreve (Texto msg) w)
            else Ok tt conta1 (escreve (Texto msg) w)).
  { destruct transacao as [v|v]; cbn [operacao] in Hop;
      cbv beta iota zeta delta
        [chama_registrar Saque.registrar Deposito.registrar
         mbind M_bind Transacao.valor];
      rewrite Hop; destruct ok; reflexivity. }
  rewrite Hreg. destruct ok.
  - executa. do 2 eexists. split; [exact Hop|]. split; [reflexivity|].
    rewrite <- Hhist.
    destruct transacao, conta1; split; reflexivity.
  - do 2 eexists. split; [exact Hop|]. split; [reflexivity|].
    rewrite (Hfalse eq_refl), app_nil_r. split; reflexivity.
Qed.

(** ** New accounts *)

(** C10. A new account, of either class, built by the constructor (with any
    limits) or by [nova_conta], has balance [0.0] and an empty history. *)
Theorem conta_nova_zerada
    (numero : Z) (cliente : nat) (limite : Float.t) (limite_saques : Z) :
  let vazia (c : instancia) :=
    saldo c = Float.zero /\ Historico.transacoes (historico c) = [] in
  vazia (DeConta (Conta.__init__ numero cliente))
  /\ vazia (DeConta (Conta.nova_conta cliente numero))
  /\ vazia (DeContaCorrente
              (ContaCorrente.__init__ numero cliente limite limite_saques))
  /\ vazia (DeContaCorrente (ContaCorrente.nova_conta cliente numero)).
Proof. repeat split. Qed.

(** ** Deposits and the number of withdrawals *)

Lemma sum_de_uns {A} (l : list A) :
  sum (map (fun _ => 1%Z) l) = Z.of_nat (length l).
Proof.
  unfold sum.
  assert (H : forall acc,
             fold_left Z.add (map (fun _ : A => 1%Z) l) acc
             = (acc + Z.of_nat (length l))%Z).
  { induction l as [|x l IH]; intros acc; cbn [map fold_left length].
    - lia.
    - rewrite IH. lia. }
  rewrite H. lia.
Qed.

(** The count of [ContaCorrente.sacar] is the number of records of kind
    ["Saque"] in the history. *)
Lemma saques_realizados_conta (self : ContaCorrente.t) :
  ContaCorrente.saques_realizados self =
    Z.of_nat
      (length
         (List.filter e_saque
            (Historico.transacoes (ContaCorrente.historico self)))).
Proof.
  unfold ContaCorrente.saques_realizados. rewrite sum_de_uns. reflexivity.
Qed.

Lemma gt_zero_nao_le (valor : Float.t) :
  Float.gt valor Float.zero = true -> Float.le valor Float.zero = false.
Proof.
  destruct valor as [s|s| |s m e]; cbn; try discriminate;
    destruct s; cbn; congruence.
Qed.

Lemma recusa_por_maximo_sse (valor : Float.t) (self : ContaCorrente.t) :
  recusa_por_maximo valor self <->
  Float.gt valor (ContaCorrente._limite self) = false
  /\ (ContaCorrente.saques_realizados self
        >=? ContaCorrente._limite_saques self)%Z = true.
Proof.
  split.
  - intros H. specialize (H mundo_vazio). revert H. executa.
    destruct (Float.gt valor (ContaCorrente._limite self)).
    { intros H. exfalso. vm_compute in H. discriminate H. }
    destruct (ContaCorrente.saques_realizados self
                >=? ContaCorrente._limite_saques self)%Z; [easy|].
    intros H. exfalso.
    destruct (Float.le valor Float.zero).
    { vm_compute in H. discriminate H. }
    destruct (Float.gt valor (Conta._saldo (ContaCorrente.super self)));
      [vm_compute in H|]; discriminate H.
  - intros [Hlim Hmax] w. executa. rewrite Hlim, Hmax. reflexivity.
Qed.

(** Registering a deposit on a checking account leaves the two limits and
    the number of withdrawals as they were. *)
Lemma deposito_registrar_corrente
    (valor : Float.t) (self : ContaCorrente.t) (w : Mundo) :
  exists self' w',
    Deposito.registrar valor (DeContaCorrente self) w
      = Ok tt (DeContaCorrente self') w'
    /\ ContaCorrente._limite self' = ContaCorrente._limite self
    /\ ContaCorrente._limite_saques self' = ContaCorrente._limite_saques self
    /\ ContaCorrente.saques_realizados self'
         = ContaCorrente.saques_realizados self.
Proof.
  executa. destruct (Float.le valor Float.zero); cbn beta iota.
  - destruct self as [c l n]. do 2 eexists. repeat split; reflexivity.
  - do 2 eexists. split; [reflexivity|]. split; [reflexivity|].
    split; [reflexivity|].
    rewrite !saques_realizados_conta. cbn.
    rewrite List.filter_app, length_app. cbn.
    rewrite Nat.add_0_r. reflexivity.
Qed.

(** C9. On a checking account, in any state, a deposit of a positive
    amount returns [True] and adds the amount to the balance.  Registering
    any sequence of deposits leaves the number of withdrawals counted by
    [sacar] as it was, so a withdrawal that is refused for the number of
    withdrawals after the deposits was refused for it before them. *)
Theorem depositos_sem_restricao :
  (forall (self : ContaCorrente.t) (valor : Float.t) (w : Mundo),
     Float.gt valor Float.zero = true ->
     exists msg,
       ContaCorrente.depositar valor self w =
         Ok true
            (ContaCorrente.set_super
               (Conta.set_saldo
                  (Float.add (ContaCorrente.saldo self) valor)
                  (ContaCorrente.super self))
               self)
            (escreve (Texto msg) w))
  /\
  (forall (valores : list Float.t) (self : ContaCorrente.t) (w : Mundo),
     exists self' w',
       para_cada valores Deposito.registrar (DeContaCorrente self) w
         = Ok tt (DeContaCorrente self') w'
       /\ ContaCorrente.saques_realizados self'
            = ContaCorrente.saques_realizados self
       /\ forall valor,
            recusa_por_maximo valor self' -> recusa_por_maximo valor self).
Proof.
  split.
  - intros self valor w Hpos. apply gt_zero_nao_le in Hpos.
    executa. rewrite Hpos. eexists. reflexivity.
  - intros valores.
    assert (H : forall self w,
      exists self' w',
        para_cada valores Deposito.registrar (DeContaCorrente self) w
          = Ok tt (DeContaCorrente self') w'
        /\ ContaCorrente._limite self' = ContaCorrente._limite self
        /\ ContaCorrente._limite_saques self'
             = ContaCorrente._limite_saques self
        /\ ContaCorrente.saques_realizados self'
             = ContaCorrente.saques_realizados self).
    { induction valores as [|v vs IH]; intros self w.
      - exists self, w. repeat split; reflexivity.
      - destruct (deposito_registrar_corrente v self w)
          as (self1 & w1 & Hreg & Hl1 & Hn1 & Hs1).
        destruct (IH self1 w1) as (self2 & w2 & Hseq & Hl2 & Hn2 & Hs2).
        exists self2, w2. split.
        + cbn [para_cada]. unfold mbind, M_bind at 1. rewrite Hreg.
          exact Hseq.
        + repeat split; congruence. }
    intros self w.
    destruct (H self w) as (self' & w' & Hseq & Hl & Hn & Hs).
    exists self', w'. split; [exact Hseq|]. split; [exact Hs|].
    intros valor. rewrite !recusa_por_maximo_sse. rewrite Hl, Hn, Hs.
    trivial.
Qed.

Lemma depositos_sem_restricao_witness :
  (exists msg,
     ContaCorrente.depositar (Float.of_Z 50) conta_tres_saques mundo_vazio =
       Ok true
          (ContaCorrente.set_super
             (Conta.set_saldo (Float.of_Z 450)
                (ContaCorrente.super conta_tres_saques))
             conta_tres_saques)
          (escreve (Texto msg) mundo_vazio))
  /\ Float.gt (Float.of_Z 50) Float.zero = true.
Proof.
  split.
  - apply (proj1 depositos_sem_restricao conta_tres_saques (Float.of_Z 50)).
    reflexivity.
  - reflexivity.
Defined.

(** ** The balance and NaN *)

(** C6 fails on the code.  The test [valor <= 0] is [False] for a NaN, so a
    deposit of NaN is accepted on a new account of either class: the
    operation succeeds and is recorded, and the balance goes from [0.0] to
    NaN, for which [saldo >= 0] is [False]. *)
Theorem saldo_nan_apos_deposito (cliente : nat) (numero : Z) (w : Mundo) :
  let deposito_nan (nova : instancia) :=
    exists conta' w',
      chama_registrar (Transacao.Deposito Float.nan) nova w
        = Ok tt conta' w'
      /\ Float.ge (saldo nova) Float.zero = true
      /\ saldo conta' = Float.nan
      /\ Float.ge (saldo conta') Float.zero = false
      /\ length (Historico.transacoes (historico conta')) = 1 in
  deposito_nan (DeConta (Conta.nova_conta cliente numero))
  /\ deposito_nan (DeContaCorrente (ContaCorrente.nova_conta cliente numero)).
Proof.
  split; do 2 eexists; (split; [reflexivity|]); repeat split.
Qed.

(** The same through a withdrawal: [valor <= 0] and [valor > saldo] are both
    [False] for a NaN, and [valor > limite] as well. *)
Lemma saldo_nan_apos_saque (cliente : nat) (numero : Z) (w : Mundo) :
  exists conta' w',
    chama_registrar (Transacao.Saque Float.nan)
      (DeContaCorrente (ContaCorrente.nova_conta cliente numero)) w
      = Ok tt conta' w'
    /\ saldo conta' = Float.nan
    /\ length (Historico.transacoes (historico conta')) = 1.
Proof.
  do 2 eexists. split; [reflexivity|]. split; reflexivity.
Qed.

(** On an account of the base class the infinite amount does the same with
    no NaN in the input: a deposit of [inf] is accepted, and then
    [inf > inf] is [False], so a withdrawal of [inf] is accepted and leaves
    [inf - inf].  (A checking account refuses this withdrawal for its
    limit.) *)
Lemma saldo_nan_inf_menos_inf (cliente : nat) (numero : Z) (w : Mundo) :
  exists conta' w',
    para_cada [Transacao.Deposito Float.inf; Transacao.Saque Float.inf]
      chama_registrar (DeConta (Conta.nova_conta cliente numero)) w
      = Ok tt conta' w'
    /\ saldo conta' = Float.nan
    /\ length (Historico.transacoes (historico conta')) = 2.
Proof.
  do 2 eexists. split; [reflexivity|]. split; reflexivity.
Qed.

(** ** Reasoning about computations *)

Section Hoare.
Context {S : Type}.

Lemma hoare_bind {A B} (P : S -> Prop) (Q1 : A -> S -> Prop)
    (Q : B -> S -> Prop) (E : S -> Prop) (m : M S A) (f : A -> M S B) :
  hoare P m Q1 E -> (forall a, hoare (Q1 a) (f a) Q E) ->
  hoare P (m ≫= f) Q E.
Proof.
  intros Hm Hf s w HP. unfold mbind, M_bind.
  specialize (Hm s w HP). destruct (m s w) as [a s' w'|e s' w'].
  - apply Hf, Hm.
  - exact Hm.
Qed.

Lemma hoare_ret {A} (P : S -> Prop) (Q : A -> S -> Prop) (E : S -> Prop)
    (a : A) :
  (forall s, P s -> Q a s) -> hoare P (mret a) Q E.
Proof. intros H s w HP. apply H, HP. Qed.

Lemma hoare_puro {A} (P E : S -> Prop) (m : M S A) :
  puro m -> (forall s, P s -> E s) -> hoare P m (fun _ => P) E.
Proof.
  intros Hm HE s w HP. specialize (Hm s w).
  destruct (m s w); cbn in Hm; subst; auto.
Qed.

Lemma hoare_get (P E : S -> Prop) :
  hoare P get (fun a s => a = s /\ P s) E.
Proof. intros s w HP. split; [reflexivity|exact HP]. Qed.

Lemma hoare_conseq {A} (P P' : S -> Prop) (Q Q' : A -> S -> Prop)
    (E : S -> Prop) (m : M S A) :
  hoare P' m Q' E -> (forall s, P s -> P' s) ->
  (forall a s, Q' a s -> Q a s) -> hoare P m Q E.
Proof.
  intros Hm HP HQ s w Hs. specialize (Hm s w (HP s Hs)).
  destruct (m s w); auto.
Qed.

Lemma hoare_try_except {A} (P I : S -> Prop) (Q : A -> S -> Prop)
    (corpo tratador : M S A) (e : Excecao) :
  hoare P corpo Q I -> hoare I tratador Q I ->
  hoare P (try_except corpo e tratador) Q I.
Proof.
  intros Hc Ht s w HP. unfold try_except.
  specialize (Hc s w HP). destruct (corpo s w) as [a s' w'|e' s' w'].
  - exact Hc.
  - destruct e, e'; try exact Hc; apply Ht, Hc.
Qed.

Lemma puro_ret {A} (a : A) : puro (mret a : M S A).
Proof. intros s w. reflexivity. Qed.

Lemma puro_bind {A B} (m : M S A) (f : A -> M S B) :
  puro m -> (forall a, puro (f a)) -> puro (m ≫= f).
Proof.
  intros Hm Hf s w. unfold mbind, M_bind.
  specialize (Hm s w). destruct (m s w) as [a s' w'|e s' w'];
    cbn in Hm; subst.
  - apply Hf.
  - reflexivity.
Qed.

Lemma puro_get : puro (get : M S S).
Proof. intros s w. reflexivity. Qed.

Lemma puro_print (t : string) : puro (print t : M S unit).
Proof. intros s w. reflexivity. Qed.

Lemma puro_emit (o : Saida) : puro (emit o : M S unit).
Proof. intros s w. reflexivity. Qed.

Lemma puro_raise {A} (e : Excecao) : puro (raise e : M S A).
Proof. intros s w. reflexivity. Qed.

Lemma puro_input (prompt : string) : puro (input prompt : M S string).
Proof. intros s w. unfold input. destruct (stdin _); reflexivity. Qed.

Lemma puro_try_except {A} (corpo tratador : M S A) (e : Excecao) :
  puro corpo -> puro tratador -> puro (try_except corpo e tratador).
Proof.
  intros Hc Ht s w. unfold try_except. specialize (Hc s w).
  destruct (corpo s w) as [a s' w'|e' s' w']; cbn in Hc; subst;
    [reflexivity|].
  destruct e, e'; first [reflexivity | apply Ht].
Qed.

Lemma puro_para_cada {A} (l : list A) (f : A -> M S unit) :
  (forall x, puro (f x)) -> puro (para_cada l f).
Proof.
  intros Hf. induction l as [|x l IH]; cbn [para_cada].
  - apply puro_ret.
  - apply puro_bind; [apply Hf|intros _; exact IH].
Qed.
End Hoare.

Create HintDb puro.
#[local] Hint Resolve puro_ret puro_get puro_print puro_emit puro_raise
  puro_input : puro.

Lemma puro_le_pessoa (r : nat) : puro (le_pessoa r).
Proof. intros s w. unfold le_pessoa. destruct (_ !! _); reflexivity. Qed.

Lemma puro_le_conta (r : nat) : puro (le_conta r).
Proof. intros s w. unfold le_conta. destruct (_ !! _); reflexivity. Qed.

#[local] Hint Resolve puro_le_pessoa puro_le_conta : puro.

Lemma puro_filtrar_cliente (cpf : string) (l : list nat) :
  puro (filtrar_cliente cpf l).
Proof.
  induction l as [|r l IH]; cbn [filtrar_cliente]; [apply puro_ret|].
  apply puro_bind; [apply puro_le_pessoa|]. intros p.
  destruct (String.eqb _ _); [apply puro_ret|exact IH].
Qed.

Lemma puro_recuperar_conta_cliente (cliente : nat) :
  puro (recuperar_conta_cliente cliente).
Proof.
  unfold recuperar_conta_cliente.
  apply puro_bind; [apply puro_le_pessoa|]. intros p.
  destruct (PessoaFisica.contas p).
  - apply puro_bind; auto with puro.
  - apply puro_ret.
Qed.

#[local] Hint Resolve puro_filtrar_cliente puro_recuperar_conta_cliente
  : puro.

(** Proves [puro] of a computation built from the pure ones. *)
Ltac prova_puro :=
  repeat first
    [ progress auto with puro
    | apply puro_bind; [|intros ?]
    | apply puro_para_cada; intros ?
    | apply puro_try_except
    | match goal with
      | |- puro (match ?x with _ => _ end) => destruct x
      end ].

Lemma puro_exibir_extrato : puro exibir_extrato.
Proof. unfold exibir_extrato. prova_puro. Qed.

Lemma puro_listar_contas : puro listar_contas.
Proof. unfold listar_contas. prova_puro. Qed.

(** ** Registering a customer *)

(** When every address of the list is in the store and some customer of the
    list has the CPF, the search returns a customer of the list with that
    CPF, and changes nothing. *)
Lemma filtrar_cliente_presente
    (cpf : string) (l : list nat) (st : Sessao) (w : Mundo)
    (r : nat) (p : PessoaFisica.t) :
  Forall (fun a => is_Some (pessoas st !! a)) l ->
  r ∈ l -> pessoas st !! r = Some p -> PessoaFisica.cpf p = cpf ->
  exists r' p',
    filtrar_cliente cpf l st w = Ok (Some r') st w
    /\ r' ∈ l /\ pessoas st !! r' = Some p' /\ PessoaFisica.cpf p' = cpf.
Proof.
  intros Hval Hin Hp Hcpf. induction l as [|a l IH]; [inversion Hin|].
  apply Forall_cons in Hval as [[pa Hpa] Hval].
  cbn [filtrar_cliente]. unfold mbind, M_bind, le_pessoa. rewrite Hpa.
  destruct (String.eqb (PessoaFisica.cpf pa) cpf) eqn:Heq.
  - apply String.eqb_eq in Heq. exists a, pa.
    split; [reflexivity|]. split; [left|]. split; assumption.
  - apply list_elem_of_In in Hin. destruct Hin as [->|Hin].
    + rewrite Hp in Hpa. injection Hpa as <-.
      rewrite Hcpf, String.eqb_refl in Heq. discriminate Heq.
    + apply list_elem_of_In in Hin.
      destruct (IH Hval Hin) as (r' & p' & Hf & Hr' & Hp' & Hc').
      exists r', p'. split; [exact Hf|]. split; [right; exact Hr'|].
      split; assumption.
Qed.

(** C7. When the CPF read by [criar_cliente] is the CPF of a customer of
    the list, the function prints that the customer exists and returns: the
    list and the store of customers, hence every customer, are as they
    were, and only the line with the CPF was read. *)
Theorem criar_cliente_cpf_existente
    (st : Sessao) (w : Mundo) (cpf : string) (resto : list string)
    (r : nat) (p : PessoaFisica.t) :
  stdin w = cpf :: resto ->
  Forall (fun a => is_Some (pessoas st !! a)) (clientes st) ->
  r ∈ clientes st -> pessoas st !! r = Some p -> PessoaFisica.cpf p = cpf ->
  criar_cliente st w =
    Ok tt st
       (mkMundo resto
          (stdout w
           ++ [Texto "Informe o CPF (somente número): ";
               Texto (nl ++ "@@@ Já existe cliente com esse CPF! @@@")])
          (relogio w) (leituras w)).
Proof.
  intros Hin Hval Hr Hp Hcpf.
  unfold criar_cliente, mbind, M_bind, input, get. cbn. rewrite Hin.
  match goal with
  | |- context [filtrar_cliente cpf (clientes st) st ?w1] =>
      destruct (filtrar_cliente_presente cpf (clientes st) st w1 r p
                  Hval Hr Hp Hcpf) as (r' & p' & Hf & _)
  end.
  rewrite Hf. unfold print, escreve. cbn. rewrite <- app_assoc. reflexivity.
Qed.

Lemma criar_cliente_cpf_existente_witness :
  criar_cliente sessao_um_cliente
    (mkMundo ["111"; "Bia"] [] (relogio mundo_vazio) 0) =
    Ok tt sessao_um_cliente
       (mkMundo ["Bia"]
          [Texto "Informe o CPF (somente número): ";
           Texto (nl ++ "@@@ Já existe cliente com esse CPF! @@@")]
          (relogio mundo_vazio) 0).
Proof.
  apply (criar_cliente_cpf_existente sessao_um_cliente
           (mkMundo ["111"; "Bia"] [] (relogio mundo_vazio) 0)
           "111" ["Bia"] 0
           (PessoaFisica.__init__ "Ana" "01-01-2000" "111" "Rua A, 1")).
  - reflexivity.
  - repeat constructor. eexists. reflexivity.
  - left.
  - reflexivity.
  - reflexivity.
Defined.

(** ** Account numbers *)

Lemma numerada_numeros_unicos (st : Sessao) :
  numerada st -> numeros_unicos st.
Proof.
  intros [Hc Hn].
  assert (Hpos : forall i r, contas st !! i = Some r ->
                   r = i /\ i < length (instancias st)).
  { intros i r Hi. rewrite Hc in Hi. apply lookup_seq in Hi. lia. }
  split.
  - intros i r Hi. destruct (Hpos i r Hi) as [-> Hlt].
    destruct (lookup_lt_is_Some_2 (instancias st) i Hlt) as [c Hci].
    exists c. split; [exact Hci|]. apply Hn, Hci.
  - intros i j ri rj ci cj Hi Hj Hci Hcj Heq.
    destruct (Hpos i ri Hi) as [-> _]. destruct (Hpos j rj Hj) as [-> _].
    apply Hn in Hci, Hcj. lia.
Qed.

Lemma numerada_inicial : numerada sessao_inicial.
Proof. split; [reflexivity|]. intros i c Hi. destruct i; discriminate Hi. Qed.

(** A new account numbered [len(contas) + 1] keeps the invariant. *)
Lemma numerada_nova_conta (st : Sessao) (c : instancia)
    (ps : list PessoaFisica.t) (cs : list nat) :
  numerada st ->
  numero c = (Z.of_nat (length (contas st)) + 1)%Z ->
  numerada (mkSessao ps (instancias st ++ [c]) cs
              (contas st ++ [length (instancias st)])).
Proof.
  intros [Hc Hn] Hnum. split; cbn.
  - rewrite length_app. cbn. rewrite seq_app. cbn. rewrite Hc at 1.
    reflexivity.
  - intros i c' Hi. apply lookup_app_Some in Hi as [Hi|[Hge Hi]].
    + apply Hn, Hi.
    + destruct (i - length (instancias st)) as [|k] eqn:Hk;
        [|destruct k; discriminate Hi].
      injection Hi as <-. rewrite Hnum, Hc, length_seq. lia.
Qed.

(** An account whose number does not change can be put back in place. *)
Lemma numerada_mesma_conta (st : Sessao) (r : nat) (c c' : instancia) :
  numerada st -> instancias st !! r = Some c -> numero c' = numero c ->
  numerada (mkSessao (pessoas st) (<[r := c']> (instancias st))
              (clientes st) (contas st)).
Proof.
  intros [Hc Hn] Hr Hnum. split; cbn.
  - rewrite length_insert. exact Hc.
  - intros i ci Hi. destruct (decide (r = i)) as [->|Hne].
    + rewrite list_lookup_insert_eq in Hi
        by (eapply lookup_lt_Some; exact Hr).
      injection Hi as <-. rewrite Hnum. apply Hn, Hr.
    + rewrite list_lookup_insert_ne in Hi by exact Hne. apply Hn, Hi.
Qed.

(** No method of an account changes its number. *)
Lemma registrar_numero (transacao : Transacao.t) (conta : instancia)
    (w : Mundo) :
  numero (estado_final (chama_registrar transacao conta w)) = numero conta.
Proof.
  destruct transacao as [v|v], conta as [c|c]; executa;
    repeat match goal with
      | |- context [if ?b then _ else _] => destruct b; cbn
      end; reflexivity.
Qed.

Lemma hoare_na_conta (r : nat) (transacao : Transacao.t) :
  hoare numerada (na_conta r (Cliente.realizar_transacao transacao))
    (fun _ => numerada) numerada.
Proof.
  intros st w Hst. unfold na_conta.
  destruct (instancias st !! r) as [c|] eqn:Hr; [|exact Hst].
  pose proof (registrar_numero transacao c w) as Hnum.
  unfold Cliente.realizar_transacao.
  destruct (chama_registrar transacao c w) as [a c' w'|e c' w'];
    cbn in Hnum |- *; eapply numerada_mesma_conta; eassumption.
Qed.

(** A computation that leaves the state as it is keeps the invariant. *)
Lemma hoare_numerada_puro {A} (m : M Sessao A) :
  puro m -> hoare numerada m (fun _ => numerada) numerada.
Proof. intros Hm. apply hoare_puro; auto. Qed.

Lemma hoare_criar_cliente :
  hoare numerada criar_cliente (fun _ => numerada) numerada.
Proof.
  unfold criar_cliente.
  eapply hoare_bind; [apply hoare_numerada_puro; prova_puro|intros cpf].
  eapply hoare_bind; [apply hoare_numerada_puro; prova_puro|intros st0].
  eapply hoare_bind; [apply hoare_numerada_puro; prova_puro|intros achado].
  destruct achado as [c|]; [apply hoare_numerada_puro; prova_puro|].
  eapply hoare_bind; [apply hoare_numerada_puro; prova_puro|intros nome].
  eapply hoare_bind; [apply hoare_numerada_puro; prova_puro|intros dn].
  eapply hoare_bind; [apply hoare_numerada_puro; prova_puro|intros en].
  intros st w Hst. exact Hst.
Qed.

(** [criar_conta], called with the number [len(contas) + 1]. *)
Lemma hoare_criar_conta (numero_conta : Z) :
  hoare
    (fun st => numerada st
               /\ numero_conta = (Z.of_nat (length (contas st)) + 1)%Z)
    (criar_conta numero_conta) (fun _ => numerada) numerada.
Proof.
  unfold criar_conta.
  eapply hoare_bind;
    [apply hoare_puro; [prova_puro|intros st H; apply H]|intros cpf].
  eapply hoare_bind;
    [apply hoare_puro; [prova_puro|intros st H; apply H]|intros st0].
  eapply hoare_bind;
    [apply hoare_puro; [prova_puro|intros st H; apply H]|intros achado].
  destruct achado as [cliente|].
  - intros st w [Hst Hnum].
    unfold mbind, M_bind, nova_instancia, contas_append, na_pessoa, print.
    cbn.
    destruct (pessoas st !! cliente) as [p|]; cbn;
      [destruct (PessoaFisica.adicionar_conta _ p _); cbn|];
      apply numerada_nova_conta; auto.
  - eapply hoare_conseq;
      [apply hoare_numerada_puro; prova_puro|intros st H; apply H|auto].
Qed.

Section Laco.
Variable float_of_str : string -> option Float.t.

Lemma puro_float (texto : string) :
  puro (float float_of_str texto : M Sessao Float.t).
Proof. unfold float. destruct (float_of_str texto); auto with puro. Qed.

Lemma hoare_transacao (cliente : nat) (prompt : string)
    (classe : Float.t -> Transacao.t) :
  hoare numerada
    (try_except
       (texto ← input prompt;
        valor ← float float_of_str texto;
        let transacao := classe valor in
        conta ← recuperar_conta_cliente cliente;
        match conta with
        | Some conta =>
            na_conta conta (Cliente.realizar_transacao transacao)
        | None => mret tt
        end)
       ValueError
       (print (nl ++ "@@@ Valor inválido! @@@")))
    (fun _ => numerada) numerada.
Proof.
  apply hoare_try_except; [|apply hoare_numerada_puro; prova_puro].
  eapply hoare_bind; [apply hoare_numerada_puro; prova_puro|intros texto].
  eapply hoare_bind;
    [apply hoare_numerada_puro, puro_float|intros valor].
  eapply hoare_bind; [apply hoare_numerada_puro; prova_puro|intros conta].
  destruct conta as [conta|].
  - apply hoare_na_conta.
  - apply hoare_numerada_puro; prova_puro.
Qed.

Lemma hoare_depositar :
  hoare numerada (depositar float_of_str) (fun _ => numerada) numerada.
Proof.
  unfold depositar.
  eapply hoare_bind; [apply hoare_numerada_puro; prova_puro|intros cpf].
  eapply hoare_bind; [apply hoare_numerada_puro; prova_puro|intros st0].
  eapply hoare_bind; [apply hoare_numerada_puro; prova_puro|intros achado].
  destruct achado as [cliente|].
  - apply (hoare_transacao cliente _ Transacao.Deposito).
  - apply hoare_numerada_puro; prova_puro.
Qed.

Lemma hoare_sacar :
  hoare numerada (sacar float_of_str) (fun _ => numerada) numerada.
Proof.
  unfold sacar.
  eapply hoare_bind; [apply hoare_numerada_puro; prova_puro|intros cpf].
  eapply hoare_bind; [apply hoare_numerada_puro; prova_puro|intros st0].
  eapply hoare_bind; [apply hoare_numerada_puro; prova_puro|intros achado].
  destruct achado as [cliente|].
  - apply (hoare_transacao cliente _ Transacao.Saque).
  - apply hoare_numerada_puro; prova_puro.
Qed.

(** Runs [m] and goes on with the loop. *)
Lemma hoare_e_continua (P : Sessao -> Prop) (m : M Sessao unit)
    (b : bool) :
  hoare P m (fun _ => numerada) numerada ->
  hoare P (m;; mret b) (fun _ => numerada) numerada.
Proof.
  intros Hm. eapply hoare_bind; [exact Hm|intros u].
  apply hoare_ret. auto.
Qed.

Lemma hoare_iteracao :
  hoare numerada (iteracao float_of_str) (fun _ => numerada) numerada.
Proof.
  unfold iteracao, menu.
  eapply hoare_bind; [apply hoare_numerada_puro; prova_puro|intros opcao].
  repeat match goal with
    | |- hoare _ (if ?b then _ else _) _ _ => destruct b
    end.
  - apply hoare_e_continua, hoare_depositar.
  - apply hoare_e_continua, hoare_sacar.
  - apply hoare_e_continua, hoare_numerada_puro, puro_exibir_extrato.
  - apply hoare_e_continua, hoare_criar_cliente.
  - eapply hoare_bind; [apply hoare_get|intros st0].
    apply hoare_e_continua.
    eapply hoare_conseq; [apply hoare_criar_conta| |auto].
    intros st [-> Hst]. split; [exact Hst|reflexivity].
  - apply hoare_e_continua, hoare_numerada_puro, puro_listar_contas.
  - apply hoare_e_continua, hoare_numerada_puro. prova_puro.
  - apply hoare_e_continua, hoare_numerada_puro. prova_puro.
Qed.

Lemma alcancavel_numerada (rodando : bool) (st : Sessao) (w : Mundo) :
  alcancavel float_of_str rodando st w -> numerada st.
Proof.
  induction 1 as [w0|s0 w0 continua s1 w1 Hant IH Hit
                 |s0 w0 e s1 w1 Hant IH Hit].
  - apply numerada_inicial.
  - pose proof (hoare_iteracao s0 w0 IH) as H. rewrite Hit in H. exact H.
  - pose proof (hoare_iteracao s0 w0 IH) as H. rewrite Hit in H. exact H.
Qed.
End Laco.

(** C8. In every state of a session, at the head of the loop of [main] or
    at the end of the program, the accounts of the list [contas] are
    numbered 1, 2, ... in the order of the list (each creation assigned
    [len(contas) + 1]), and no two of them have the same number. *)
Theorem numeros_de_conta_unicos
    (float_of_str : string -> option Float.t)
    (rodando : bool) (st : Sessao) (w : Mundo) :
  alcancavel float_of_str rodando st w -> numeros_unicos st.
Proof.
  intros H. eapply numerada_numeros_unicos, alcancavel_numerada, H.
Qed.

Lemma numeros_de_conta_unicos_witness : numeros_unicos sessao_duas_contas.
Proof.
  eapply (numeros_de_conta_unicos (fun _ => None) true).
  eapply alcancavel_iteracao;
    [eapply alcancavel_iteracao;
       [eapply alcancavel_iteracao;
          [apply (alcancavel_inicio _
                    (mkMundo ["nu"; "111"; "Ana"; "01-01-2000"; "Rua A, 1";
                              "nc"; "111"; "nc"; "111"]
                             [] (relogio mundo_vazio) 0))
          |vm_compute; reflexivity]
       |vm_compute; reflexivity]
    |vm_compute; reflexivity].
Defined.

(** ** The loop of [main] *)

(** What [main n] returns is a state of the session: at the head of the
    loop when the [n] passes did not end it, at the end of the program
    otherwise. *)
Lemma laco_alcancavel (float_of_str : string -> option Float.t)
    (n : nat) (st : Sessao) (w : Mundo) :
  alcancavel float_of_str true st w ->
  match laco float_of_str n st w with
  | Ok saiu st' w' => alcancavel float_of_str (negb saiu) st' w'
  | Raise _ st' w' => alcancavel float_of_str false st' w'
  end.
Proof.
  revert st w. induction n as [|n IH]; intros st w Hst; cbn [laco].
  - exact Hst.
  - unfold mbind, M_bind.
    destruct (iteracao float_of_str st w) as [continua st' w'|e st' w']
      eqn:Hit.
    + destruct continua.
      * apply IH. eapply alcancavel_iteracao; eassumption.
      * cbn. eapply alcancavel_iteracao; eassumption.
    + eapply alcancavel_excecao; eassumption.
Qed.

Section Consome.
Context {S : Type}.

Lemma consome_ret {A} (a : A) : consome (mret a : M S A).
Proof. intros s w. cbn. lia. Qed.

Lemma consome_bind {A B} (m : M S A) (f : A -> M S B) :
  consome m -> (forall a, consome (f a)) -> consome (m ≫= f).
Proof.
  intros Hm Hf s w. unfold mbind, M_bind. specialize (Hm s w).
  destruct (m s w) as [a s' w'|e s' w']; cbn in Hm |- *; [|exact Hm].
  specialize (Hf a s' w'). lia.
Qed.

Lemma consome_get : consome (get : M S S).
Proof. intros s w. cbn. lia. Qed.

Lemma consome_put (s0 : S) : consome (put s0).
Proof. intros s w. cbn. lia. Qed.

Lemma consome_print (t : string) : consome (print t : M S unit).
Proof. intros s w. cbn. lia. Qed.

Lemma consome_emit (o : Saida) : consome (emit o : M S unit).
Proof. intros s w. cbn. lia. Qed.

Lemma consome_raise {A} (e : Excecao) : consome (raise e : M S A).
Proof. intros s w. cbn. lia. Qed.

Lemma consome_agora : consome (agora : M S string).
Proof. intros s w. cbn. lia. Qed.

Lemma consome_input (prompt : string) : consome (input prompt : M S string).
Proof.
  intros s w. unfold input, escreve. cbn [stdin].
  destruct (stdin w); cbn; lia.
Qed.

Lemma consome_try_except {A} (corpo tratador : M S A) (e : Excecao) :
  consome corpo -> consome tratador -> consome (try_except corpo e tratador).
Proof.
  intros Hc Ht s w. unfold try_except. specialize (Hc s w).
  destruct (corpo s w) as [a s' w'|e' s' w']; cbn in Hc |- *; [exact Hc|].
  destruct e, e'; cbn; try exact Hc; specialize (Ht s' w'); lia.
Qed.

Lemma consome_para_cada {A} (l : list A) (f : A -> M S unit) :
  (forall x, consome (f x)) -> consome (para_cada l f).
Proof.
  intros Hf. induction l as [|x l IH]; cbn [para_cada].
  - apply consome_ret.
  - apply consome_bind; [apply Hf|intros u; exact IH].
Qed.

Lemma consome_em {T A} (proj : S -> T) (upd : T -> S -> S) (m : M T A) :
  consome m -> consome (em proj upd m).
Proof.
  intros Hm s w. unfold em. specialize (Hm (proj s) w).
  destruct (m (proj s) w); exact Hm.
Qed.
End Consome.

Create HintDb consome.
#[local] Hint Resolve consome_ret consome_get consome_put consome_print
  consome_emit consome_raise consome_agora consome_input : consome.

(** Proves [consome] of a computation built from the ones above. *)
Ltac prova_consome :=
  repeat first
    [ progress auto with consome
    | apply consome_bind; [|intros ?]
    | apply consome_para_cada; intros ?
    | apply consome_try_except
    | apply consome_em
    | match goal with
      | |- consome (match ?x with _ => _ end) => destruct x
      | |- consome (if ?x then _ else _) => destruct x
      end ].

Lemma consome_chama_registrar (transacao : Transacao.t) :
  consome (chama_registrar transacao).
Proof.
  intros conta w.
  destruct transacao as [v|v], conta as [c|c]; executa;
    repeat match goal with
      | |- context [if ?b then _ else _] => destruct b; cbn
      end; lia.
Qed.

Lemma consome_le_pessoa (r : nat) : consome (le_pessoa r).
Proof. intros s w. unfold le_pessoa. destruct (_ !! _); cbn; lia. Qed.

Lemma consome_le_conta (r : nat) : consome (le_conta r).
Proof. intros s w. unfold le_conta. destruct (_ !! _); cbn; lia. Qed.

Lemma consome_na_conta {A} (r : nat) (m : M instancia A) :
  consome m -> consome (na_conta r m).
Proof.
  intros Hm s w. unfold na_conta.
  destruct (instancias s !! r) as [c|]; [|cbn; lia].
  specialize (Hm c w). destruct (m c w); exact Hm.
Qed.

Lemma consome_na_pessoa {A} (r : nat) (m : M PessoaFisica.t A) :
  consome m -> consome (na_pessoa r m).
Proof.
  intros Hm s w. unfold na_pessoa.
  destruct (pessoas s !! r) as [p|]; [|cbn; lia].
  specialize (Hm p w). destruct (m p w); exact Hm.
Qed.

Lemma consome_nova_pessoa (p : PessoaFisica.t) : consome (nova_pessoa p).
Proof. intros s w. cbn. lia. Qed.

Lemma consome_nova_instancia (c : instancia) : consome (nova_instancia c).
Proof. intros s w. cbn. lia. Qed.

Lemma consome_clientes_append (r : nat) : consome (clientes_append r).
Proof. intros s w. cbn. lia. Qed.

Lemma consome_contas_append (r : nat) : consome (contas_append r).
Proof. intros s w. cbn. lia. Qed.

#[local] Hint Resolve consome_le_pessoa consome_le_conta
  consome_nova_pessoa consome_nova_instancia consome_clientes_append
  consome_contas_append consome_chama_registrar : consome.

Lemma consome_filtrar_cliente (cpf : string) (l : list nat) :
  consome (filtrar_cliente cpf l).
Proof.
  induction l as [|r l IH]; cbn [filtrar_cliente]; [apply consome_ret|].
  apply consome_bind; [apply consome_le_pessoa|]. intros p.
  destruct (String.eqb _ _); [apply consome_ret|exact IH].
Qed.

#[local] Hint Resolve consome_filtrar_cliente : consome.

Section Termina.
Variable float_of_str : string -> option Float.t.

Lemma consome_float (texto : string) :
  consome (float float_of_str texto : M Sessao Float.t).
Proof. unfold float. destruct (float_of_str texto); auto with consome. Qed.

(** Every command of the menu reads lines and adds none. *)
Lemma consome_comandos :
  consome (depositar float_of_str) /\ consome (sacar float_of_str)
  /\ consome exibir_extrato /\ consome criar_cliente
  /\ (forall n, consome (criar_conta n)) /\ consome listar_contas.
Proof.
  repeat split; [| | | |intros n|];
    unfold depositar, sacar, exibir_extrato, criar_cliente, criar_conta,
      listar_contas, recuperar_conta_cliente, Cliente.realizar_transacao,
      PessoaFisica.adicionar_conta, Cliente.adicionar_conta;
    prova_consome;
    first [apply consome_float | apply consome_na_conta
          | apply consome_na_pessoa];
    prova_consome.
Qed.

(** A pass of the loop that returns has read at least the option. *)
Lemma iteracao_le_uma_linha (st : Sessao) (w : Mundo) :
  match iteracao float_of_str st w with
  | Ok _ _ w' => length (stdin w') < length (stdin w)
  | Raise _ _ w' => length (stdin w') <= length (stdin w)
  end.
Proof.
  destruct consome_comandos as (Hd & Hs & He & Hnu & Hnc & Hlc).
  unfold iteracao, menu, mbind at 1, M_bind at 1, input. cbn [stdin escreve].
  destruct (stdin w) as [|opcao resto] eqn:Hin; [cbn; rewrite Hin; cbn; lia|].
  match goal with
  | |- match ?m ?s ?w1 with _ => _ end =>
      assert (Hc : consome m);
      [|specialize (Hc s w1); destruct (m s w1); cbn in Hc |- *; lia]
  end.
  repeat match goal with
    | |- consome (if ?b then _ else _) => destruct b
    end; prova_consome.
Qed.

(** X2. [main] ends: with more passes than lines of input, the loop is left
    by [break] or by an exception ([EOFError] at the latest). *)
Lemma laco_termina (n : nat) (st : Sessao) (w : Mundo) :
  length (stdin w) < n ->
  match laco float_of_str n st w with
  | Ok saiu _ _ => saiu = true
  | Raise _ _ _ => True
  end.
Proof.
  revert st w. induction n as [|n IH]; intros st w Hn; [lia|].
  cbn [laco]. unfold mbind, M_bind.
  pose proof (iteracao_le_uma_linha st w) as Hit.
  destruct (iteracao float_of_str st w) as [continua st' w'|e st' w'];
    [|exact I].
  destruct continua; [|reflexivity].
  apply IH. lia.
Qed.
End Termina.

(** ** NaN in a session *)

(** The console reaches the state of C6: when [float] reads ["nan"] as NaN,
    as Python does, the session that registers a customer, opens an account
    and deposits ["nan"] is at the head of the loop with an account whose
    balance is NaN. *)
Lemma sessao_saldo_nan (float_of_str : string -> option Float.t) :
  float_of_str "nan" = Some Float.nan ->
  exists st w c,
    alcancavel float_of_str true st w
    /\ instancias st !! 0 = Some c
    /\ saldo c = Float.nan
    /\ Float.ge (saldo c) Float.zero = false.
Proof.
  intros Hnan. do 3 eexists. split.
  - eapply alcancavel_iteracao;
      [eapply alcancavel_iteracao;
         [eapply alcancavel_iteracao;
            [apply (alcancavel_inicio _
                      (mkMundo ["nu"; "111"; "Ana"; "01-01-2000"; "Rua A, 1";
                                "nc"; "111"; "d"; "111"; "nan"]
                               [] (relogio mundo_vazio) 0))
            |vm_compute; reflexivity]
         |vm_compute; reflexivity]
      |vm_compute; rewrite Hnan; vm_compute; reflexivity].
  - cbn. split; [reflexivity|]. split; reflexivity.
Qed.

(** ** The balance when every amount is finite *)

(** On an account of either class whose balance is a float [>= 0], a
    transaction of a finite amount leaves a balance that is a float [>= 0]:
    the guards of [sacar] and [depositar] are enough for every amount but
    NaN and the infinities. *)
Lemma registrar_saldo_ok (transacao : Transacao.t) (conta : instancia)
    (w : Mundo) :
  saldo_ok (saldo conta) -> valor_finito (Transacao.valor transacao) ->
  saldo_ok (saldo (estado_final (chama_registrar transacao conta w))).
Proof.
  intros Hs Hv.
  assert (Hadd : forall x v, saldo_ok x -> valor_finito v ->
            Float.le v Float.zero = false -> saldo_ok (Float.add x v)).
  { intros x v. apply SFadd_nao_negativo. reflexivity. }
  assert (Hsub : forall x v, saldo_ok x -> valor_finito v ->
            Float.le v Float.zero = false -> Float.gt v x = false ->
            saldo_ok (Float.sub x v)).
  { intros x v. apply SFsub_nao_negativo. reflexivity. }
  destruct transacao as [v|v], conta as [c|c]; cbn in Hs, Hv; executa;
    repeat match goal with
      | |- context [if ?b then _ else _] => destruct b eqn:?; cbn
      end;
    first [exact Hs | apply Hsub; assumption | apply Hadd; assumption].
Qed.

(** X1. On an account whose balance is a float [>= 0], any sequence of
    transactions of finite amounts leaves a balance that is a float [>= 0];
    a new account is such an account ([saldo_ok_conta_nova] below). *)
Lemma saldo_ok_valores_finitos (transacoes : list Transacao.t)
    (conta : instancia) (w : Mundo) :
  Forall (fun transacao => valor_finito (Transacao.valor transacao))
    transacoes ->
  saldo_ok (saldo conta) ->
  saldo_ok
    (saldo (estado_final (para_cada transacoes chama_registrar conta w))).
Proof.
  intros Hts. revert conta w.
  induction Hts as [|t ts Ht _ IH]; intros conta w Hs; cbn [para_cada].
  - exact Hs.
  - unfold mbind, M_bind.
    pose proof (registrar_saldo_ok t conta w Hs Ht) as H1.
    destruct (chama_registrar t conta w) as [u c1 w1|e c1 w1]; cbn in H1.
    + apply IH, H1.
    + exact H1.
Qed.

Lemma saldo_ok_conta_nova (cliente : nat) (numero : Z) :
  saldo_ok (saldo (DeConta (Conta.nova_conta cliente numero)))
  /\ saldo_ok
       (saldo (DeContaCorrente (ContaCorrente.nova_conta cliente numero))).
Proof. repeat split. Qed.

Lemma saldo_ok_valores_finitos_witness :
  saldo_ok
    (saldo
       (estado_final
          (para_cada
             [Transacao.Deposito (Float.of_Z 1000);
              Transacao.Saque (Float.of_Z 200)]
             chama_registrar
             (DeContaCorrente (ContaCorrente.nova_conta 0 1)) mundo_vazio))).
Proof.
  apply saldo_ok_valores_finitos.
  - repeat constructor.
  - split; reflexivity.
Defined.

(** ** The scenario of four withdrawals *)

(** After a deposit of 1000 and three withdrawals of 200 the balance is
    400.0 and the history holds the deposit and the three withdrawals, in
    this order; the fourth withdrawal, of 1, is refused for the number of
    withdrawals and changes neither; [main] ends with the option [q]. *)
Lemma cenario_quatro_saques :
  exists st w c,
    main float_exemplo 9 mundo_cenario = Ok true st w
    /\ instancias st !! 0 = Some c
    /\ saldo c = Float.of_Z 400
    /\ map Historico.tipo (Historico.transacoes (historico c))
       = ["Deposito"; "Saque"; "Saque"; "Saque"]
    /\ map Historico.valor (Historico.transacoes (historico c))
       = [Float.of_Z 1000; Float.of_Z 200; Float.of_Z 200; Float.of_Z 200]
    /\ drop 28 (stdout w)
       = [Texto ContaCorrente.msg_max_saques;
          Texto menu_texto;
          Texto (nl ++ "Obrigado por utilizar nosso sistema bancário!")]
    /\ stdin w = [].
Proof.
  do 3 eexists. split; [vm_compute; reflexivity|].
  repeat split; vm_compute; reflexivity.
Qed.

Lemma laco_termina_witness :
  match laco float_exemplo 24 sessao_inicial mundo_cenario with
  | Ok saiu _ _ => saiu = true
  | Raise _ _ _ => True
  end.
Proof.
  apply (laco_termina float_exemplo 24 sessao_inicial mundo_cenario).
  unfold mundo_cenario. cbn. lia.
Defined.

(** ** The history and the limits, through any sequence of transactions *)

Lemma registrar_livro_fiel (transacao : Transacao.t) (conta : instancia)
    (w : Mundo) :
  livro_fiel conta ->
  livro_fiel (estado_final (chama_registrar transacao conta w)).
Proof.
  unfold livro_fiel, registros_aceitos, saldo_do_historico, saldo, historico,
    Conta.saldo, Conta.historico, Historico.transacoes.
  intros [Hs Hr].
  destruct transacao as [v|v], conta as [c|c]; cbn in Hs, Hr; executa;
    repeat match goal with
      | |- context [if ?b then _ else _] => destruct b eqn:?; cbn
      end;
    try (split; assumption);
    (split;
     [ rewrite fold_left_app; cbn; rewrite <- Hs; reflexivity
     | apply Forall_app; split; [exact Hr|];
       constructor; [|constructor];
       split; [first [left; reflexivity | right; reflexivity]|assumption] ]).
Qed.

Lemma registrar_prefixo (transacao : Transacao.t) (conta : instancia)
    (w : Mundo) :
  exists novos,
    Historico.transacoes
      (historico (estado_final (chama_registrar transacao conta w)))
    = (Historico.transacoes (historico conta) ++ novos)%list.
Proof.
  destruct transacao as [v|v], conta as [c|c]; executa;
    repeat match goal with
      | |- context [if ?b then _ else _] => destruct b eqn:?; cbn
      end;
    first [ exists []; cbn; rewrite app_nil_r; reflexivity
          | eexists; cbn; reflexivity ].
Qed.

(** X3. The history accounts for the balance.  On an account whose balance
    is its history replayed from [0.0], where every record is a [Saque] or a
    [Deposito] of an amount that passed the test [valor <= 0], any sequence
    of transactions leaves such an account, whether each of them succeeds
    or is refused. *)
Theorem historico_fiel (transacoes : list Transacao.t) (conta : instancia)
    (w : Mundo) :
  livro_fiel conta ->
  livro_fiel (estado_final (para_cada transacoes chama_registrar conta w)).
Proof.
  revert conta w. induction transacoes as [|t ts IH]; intros conta w Hc.
  - exact Hc.
  - cbn [para_cada]. unfold mbind, M_bind.
    pose proof (registrar_livro_fiel t conta w Hc) as H1.
    destruct (chama_registrar t conta w) as [u c1 w1|e c1 w1]; cbn in H1.
    + apply IH, H1.
    + exact H1.
Qed.

Lemma registrar_dentro_dos_limites (transacao : Transacao.t)
    (self : ContaCorrente.t) (w : Mundo) :
  dentro_dos_limites self ->
  exists self',
    estado_final (chama_registrar transacao (DeContaCorrente self) w)
      = DeContaCorrente self'
    /\ ContaCorrente._limite self' = ContaCorrente._limite self
    /\ ContaCorrente._limite_saques self' = ContaCorrente._limite_saques self
    /\ dentro_dos_limites self'.
Proof.
  unfold dentro_dos_limites. rewrite saques_realizados_conta.
  destruct self as [c lim n].
  unfold ContaCorrente.historico, Conta.historico, Historico.transacoes.
  cbn. intros [Hn Hl].
  destruct transacao as [v|v]; executa;
    rewrite ?saques_realizados_conta;
    unfold ContaCorrente.historico, Conta.historico, Historico.transacoes;
    cbn;
    repeat match goal with
      | |- context [if ?b then _ else _] => destruct b eqn:?; cbn
      end;
    eexists; (split; [reflexivity|]); (split; [reflexivity|]);
    (split; [reflexivity|]); rewrite saques_realizados_conta; cbn;
    try (split; [exact Hn|exact Hl]);
    unfold ContaCorrente.historico, Conta.historico, Historico.transacoes;
    cbn; rewrite List.filter_app, length_app; cbn.
  - split.
    + match goal with
      | H : (_ >=? _)%Z = false |- _ =>
          rewrite Z.geb_leb in H; apply Z.leb_gt in H
      end.
      unfold e_saque in *. lia.
    + apply Forall_app. split; [exact Hl|].
      constructor; [|constructor]. intros _. assumption.
  - split.
    + unfold e_saque in *. lia.
    + apply Forall_app. split; [exact Hl|].
      constructor; [|constructor]. cbn. discriminate.
Qed.

(** X5. A checking account within its limits stays within them through any
    sequence of transactions: it remains a checking account with the same
    two limits, its history never holds more than [limite_saques]
    withdrawals, and no withdrawal of the history is above [limite]. *)
Theorem saques_dentro_dos_limites (transacoes : list Transacao.t)
    (self : ContaCorrente.t) (w : Mundo) :
  dentro_dos_limites self ->
  exists self',
    estado_final
      (para_cada transacoes chama_registrar (DeContaCorrente self) w)
      = DeContaCorrente self'
    /\ ContaCorrente._limite self' = ContaCorrente._limite self
    /\ ContaCorrente._limite_saques self' = ContaCorrente._limite_saques self
    /\ dentro_dos_limites self'.
Proof.
  revert self w. induction transacoes as [|t ts IH]; intros self w Hself.
  - exists self. repeat split; solve [reflexivity | apply Hself].
  - cbn [para_cada]. unfold mbind, M_bind.
    destruct (registrar_dentro_dos_limites t self w Hself)
      as (s1 & Hs1 & Hl1 & Hn1 & Hd1).
    destruct (chama_registrar t (DeContaCorrente self) w)
      as [u c1 w1|e c1 w1]; cbn in Hs1 |- *; subst c1.
    + destruct (IH s1 w1 Hd1) as (s2 & Hs2 & Hl2 & Hn2 & Hd2).
      exists s2. repeat split; solve [assumption | congruence | apply Hd2].
    + exists s1. repeat split; solve [assumption | apply Hd1].
Qed.

Lemma saques_dentro_dos_limites_witness :
  exists self',
    estado_final
      (para_cada
         [Transacao.Saque (Float.of_Z 200); Transacao.Saque (Float.of_Z 200)]
         chama_registrar (DeContaCorrente conta_tres_saques) mundo_vazio)
      = DeContaCorrente self'
    /\ ContaCorrente._limite self' = ContaCorrente._limite conta_tres_saques
    /\ ContaCorrente._limite_saques self'
       = ContaCorrente._limite_saques conta_tres_saques
    /\ dentro_dos_limites self'.
Proof.
  apply saques_dentro_dos_limites. split.
  - vm_compute. discriminate.
  - unfold conta_tres_saques. cbn.
    repeat (constructor;
            [intros H; first [discriminate H | vm_compute; reflexivity]|]).
    constructor.
Defined.

Lemma historico_fiel_witness :
  livro_fiel
    (estado_final
       (para_cada
          [Transacao.Saque (Float.of_Z 200); Transacao.Deposito (Float.of_Z 1)]
          chama_registrar (DeContaCorrente conta_mil) mundo_vazio)).
Proof.
  apply historico_fiel. split.
  - vm_compute. reflexivity.
  - constructor; [|constructor]. split; [right; reflexivity|reflexivity].
Defined.

Lemma registrar_relogio (transacao : Transacao.t) (conta : instancia)
    (w : Mundo) :
  exists conta' w' novos,
    chama_registrar transacao conta w = Ok tt conta' w'
    /\ Historico.transacoes (historico conta')
       = (Historico.transacoes (historico conta) ++ novos)%list
    /\ map Historico.data novos
       = map (relogio w) (seq (leituras w) (length novos))
    /\ leituras w' = leituras w + length novos
    /\ relogio w' = relogio w
    /\ length novos <= 1.
Proof.
  destruct transacao as [v|v], conta as [c|c]; executa;
    repeat match goal with
      | |- context [if ?b then _ else _] => destruct b; cbn
      end;
    first
      [ do 2 eexists; exists []; cbn; rewrite app_nil_r;
        repeat split; solve [reflexivity | cbn; lia]
      | do 2 eexists; eexists [_]; cbn;
        repeat split; solve [reflexivity | cbn; lia] ].
Qed.

(** X4. The history is in the order of time.  A sequence of transactions
    returns; the records it adds come after the ones the history had, there
    is at most one for each transaction, the clock was read once for each
    of them, and they carry these readings in the order in which they were
    made. *)
Theorem historico_cronologico (transacoes : list Transacao.t)
    (conta : instancia) (w : Mundo) :
  exists conta' w' novos,
    para_cada transacoes chama_registrar conta w = Ok tt conta' w'
    /\ Historico.transacoes (historico conta')
       = (Historico.transacoes (historico conta) ++ novos)%list
    /\ map Historico.data novos
       = map (relogio w) (seq (leituras w) (length novos))
    /\ leituras w' = leituras w + length novos
    /\ length novos <= length transacoes.
Proof.
  assert (H : exists conta' w' novos,
    para_cada transacoes chama_registrar conta w = Ok tt conta' w'
    /\ Historico.transacoes (historico conta')
       = (Historico.transacoes (historico conta) ++ novos)%list
    /\ map Historico.data novos
       = map (relogio w) (seq (leituras w) (length novos))
    /\ leituras w' = leituras w + length novos
    /\ relogio w' = relogio w
    /\ length novos <= length transacoes).
  { revert conta w. induction transacoes as [|t ts IH]; intros conta w.
    - exists conta, w, []. cbn. rewrite app_nil_r.
      repeat split; solve [reflexivity | lia].
    - destruct (registrar_relogio t conta w)
        as (c1 & w1 & n1 & Hr1 & Hh1 & Hd1 & Hl1 & Hk1 & Hn1).
      destruct (IH c1 w1)
        as (c2 & w2 & n2 & Hr2 & Hh2 & Hd2 & Hl2 & Hk2 & Hn2).
      exists c2, w2, (n1 ++ n2)%list.
      cbn [para_cada]. unfold mbind, M_bind. rewrite Hr1.
      split; [exact Hr2|]. split; [rewrite Hh2, Hh1, app_assoc; reflexivity|].
      split.
      + rewrite map_app, length_app, seq_app, map_app, Hd1, Hd2, Hk1, Hl1.
        reflexivity.
      + rewrite length_app. cbn [length].
        repeat split; solve [lia | congruence]. }
  destruct H as (c' & w' & novos & H1 & H2 & H3 & H4 & _ & H6).
  exists c', w', novos. repeat split; assumption.
Qed.

(** ** Looking a customer up *)

Lemma filtrar_cliente_find (cpf : string) (l : list nat) (st : Sessao)
    (w : Mundo) :
  Forall (fun r => r < length (pessoas st)) l ->
  filtrar_cliente cpf l st w
    = Ok (primeiro_com_cpf (pessoas st) cpf l) st w.
Proof.
  unfold primeiro_com_cpf, tem_cpf.
  induction 1 as [|r l Hr _ IH]; [reflexivity|].
  apply lookup_lt_is_Some_2 in Hr as [p Hp].
  cbn [filtrar_cliente List.find]. unfold mbind, M_bind, le_pessoa.
  rewrite Hp. destruct (String.eqb (PessoaFisica.cpf p) cpf);
    [reflexivity|exact IH].
Qed.

Lemma primeiro_com_cpf_Some (ps : list PessoaFisica.t) (cpf : string)
    (l : list nat) (r : nat) :
  primeiro_com_cpf ps cpf l = Some r ->
  exists antes depois p,
    l = (antes ++ r :: depois)%list
    /\ ps !! r = Some p /\ PessoaFisica.cpf p = cpf
    /\ Forall (fun r' => tem_cpf ps cpf r' = false) antes.
Proof.
  unfold primeiro_com_cpf. induction l as [|a l IH]; [discriminate|].
  cbn [List.find]. destruct (tem_cpf ps cpf a) eqn:Ha.
  - intros [= ->]. unfold tem_cpf in Ha.
    destruct (ps !! r) as [p|] eqn:Hp; [|discriminate Ha].
    apply String.eqb_eq in Ha.
    exists [], l, p. repeat split; auto.
  - intros Hf. destruct (IH Hf) as (antes & depois & p & -> & Hp & Hc & Hn).
    exists (a :: antes), depois, p. repeat split; auto.
Qed.

Lemma primeiro_com_cpf_None (ps : list PessoaFisica.t) (cpf : string)
    (l : list nat) :
  primeiro_com_cpf ps cpf l = None ->
  Forall (fun r => tem_cpf ps cpf r = false) l.
Proof.
  unfold primeiro_com_cpf. intros H. apply List.Forall_forall.
  intros r Hr. exact (List.find_none _ _ H r Hr).
Qed.

(** X6. [filtrar_cliente], on a list of addresses of the store, returns the
    first address of the list whose customer has the CPF, or [None] when no
    customer of the list has it; it changes neither the session nor the
    console. *)
Theorem filtrar_cliente_primeiro (cpf : string) (l : list nat) (st : Sessao)
    (w : Mundo) :
  Forall (fun r => r < length (pessoas st)) l ->
  exists achado,
    filtrar_cliente cpf l st w = Ok achado st w
    /\ match achado with
       | Some r =>
           exists antes depois p,
             l = (antes ++ r :: depois)%list
             /\ pessoas st !! r = Some p /\ PessoaFisica.cpf p = cpf
             /\ forall r' p', r' ∈ antes -> pessoas st !! r' = Some p' ->
                              PessoaFisica.cpf p' <> cpf
       | None =>
           forall r p, r ∈ l -> pessoas st !! r = Some p ->
                       PessoaFisica.cpf p <> cpf
       end.
Proof.
  intros Hl. eexists. split; [apply filtrar_cliente_find, Hl|].
  assert (Hno : forall l',
    Forall (fun r => tem_cpf (pessoas st) cpf r = false) l' ->
    forall r p, r ∈ l' -> pessoas st !! r = Some p ->
                PessoaFisica.cpf p <> cpf).
  { intros l' Hf r p Hr Hp Hc. rewrite Forall_forall in Hf.
    specialize (Hf r Hr). unfold tem_cpf in Hf. rewrite Hp in Hf.
    apply String.eqb_neq in Hf. contradiction. }
  destruct (primeiro_com_cpf (pessoas st) cpf l) as [r|] eqn:Hf.
  - destruct (primeiro_com_cpf_Some _ _ _ _ Hf)
      as (antes & depois & p & Hl' & Hp & Hc & Hn).
    exists antes, depois, p.
    split; [exact Hl'|]. split; [exact Hp|]. split; [exact Hc|].
    apply Hno, Hn.
  - apply Hno, primeiro_com_cpf_None, Hf.
Qed.

(** ** What each command does to the session *)

Lemma primeiro_com_cpf_valido (st : Sessao) (cpf : string) (r : nat) :
  Forall (fun r => r < length (pessoas st)) (clientes st) ->
  primeiro_com_cpf (pessoas st) cpf (clientes st) = Some r ->
  exists p, pessoas st !! r = Some p /\ PessoaFisica.cpf p = cpf.
Proof.
  intros _ Hf.
  destruct (primeiro_com_cpf_Some _ _ _ _ Hf) as (_ & _ & p & _ & Hp & Hc & _).
  exists p. split; assumption.
Qed.

Lemma criar_cliente_efeito (st : Sessao) (w : Mundo) :
  Forall (fun r => r < length (pessoas st)) (clientes st) ->
  match criar_cliente st w with
  | Raise e st' w' => e = EOFError /\ st' = st
  | Ok _ st' w' =>
      exists cpf resto,
        stdin w = cpf :: resto
        /\ match primeiro_com_cpf (pessoas st) cpf (clientes st) with
           | Some _ => st' = st /\ stdin w' = resto
           | None =>
               exists nome dn en resto',
                 resto = nome :: dn :: en :: resto'
                 /\ st' = com_cliente (PessoaFisica.__init__ nome dn cpf en) st
                 /\ stdin w' = resto'
           end
  end.
Proof.
  intros Hval.
  unfold criar_cliente, mbind, M_bind, input, get. cbn.
  destruct (stdin w) as [|cpf resto]; [split; reflexivity|].
  rewrite filtrar_cliente_find by exact Hval.
  destruct (primeiro_com_cpf (pessoas st) cpf (clientes st)) as [r|] eqn:Hf.
  - cbn. exists cpf, resto. rewrite Hf. repeat split.
  - cbn. destruct resto as [|nome [|dn [|en resto']]]; cbn;
      try (split; reflexivity).
    exists cpf, (nome :: dn :: en :: resto'). rewrite Hf.
    split; [reflexivity|]. exists nome, dn, en, resto'. repeat split.
Qed.

Lemma criar_conta_efeito (numero_conta : Z) (st : Sessao) (w : Mundo) :
  Forall (fun r => r < length (pessoas st)) (clientes st) ->
  match criar_conta numero_conta st w with
  | Raise e st' w' => e = EOFError /\ st' = st
  | Ok _ st' w' =>
      exists cpf resto,
        stdin w = cpf :: resto /\ stdin w' = resto
        /\ match primeiro_com_cpf (pessoas st) cpf (clientes st) with
           | Some r =>
               st' = com_conta r
                       (DeContaCorrente
                          (ContaCorrente.nova_conta r numero_conta))
                       st
           | None => st' = st
           end
  end.
Proof.
  intros Hval.
  unfold criar_conta, mbind, M_bind, input, get. cbn.
  destruct (stdin w) as [|cpf resto]; [split; reflexivity|].
  rewrite filtrar_cliente_find by exact Hval.
  destruct (primeiro_com_cpf (pessoas st) cpf (clientes st)) as [r|] eqn:Hf.
  - destruct (primeiro_com_cpf_valido st cpf r Hval Hf) as (p & Hp & _).
    unfold nova_instancia, contas_append, na_pessoa, com_conta. cbn.
    rewrite Hp. cbn. exists cpf, resto. rewrite Hf, Hp.
    split; [reflexivity|]. split; reflexivity.
  - cbn. exists cpf, resto. rewrite Hf. repeat split.
Qed.

(** Registering a transaction returns: it raises nothing, and reads no
    line of the input. *)
Lemma registrar_retorna (transacao : Transacao.t) (conta : instancia)
    (w : Mundo) :
  exists conta' w',
    chama_registrar transacao conta w = Ok tt conta' w'
    /\ stdin w' = stdin w.
Proof.
  destruct transacao as [v|v], conta as [c|c]; executa;
    repeat match goal with
      | |- context [if ?b then _ else _] => destruct b; cbn
      end; do 2 eexists; split; reflexivity.
Qed.

Section Comandos.
Variable float_of_str : string -> option Float.t.

Lemma corpo_transacao_efeito (cliente : nat) (prompt : string)
    (classe : Float.t -> Transacao.t) (p : PessoaFisica.t)
    (st : Sessao) (w : Mundo) :
  pessoas st !! cliente = Some p ->
  Forall (fun a => a < length (instancias st)) (PessoaFisica.contas p) ->
  efeito_transacao float_of_str classe p (stdin w) st
    (try_except
       (texto ← input prompt;
        valor ← float float_of_str texto;
        let transacao := classe valor in
        conta ← recuperar_conta_cliente cliente;
        match conta with
        | Some conta =>
            na_conta conta (Cliente.realizar_transacao transacao)
        | None => mret tt
        end)
       ValueError
       (print (nl ++ "@@@ Valor inválido! @@@")) st w).
Proof.
  intros Hp Hval.
  unfold efeito_transacao, try_except, mbind, M_bind, input, float. cbn.
  destruct (stdin w) as [|texto resto]; [split; reflexivity|].
  destruct (float_of_str texto) as [valor|] eqn:Hfl; cbn.
  - unfold recuperar_conta_cliente, mbind, M_bind, le_pessoa. cbn.
    rewrite Hp.
    destruct (PessoaFisica.contas p) as [|a resto_contas] eqn:Hc; cbn.
    + exists texto, resto. rewrite Hfl. repeat split.
    + apply Forall_cons in Hval as [Ha _].
      apply lookup_lt_is_Some_2 in Ha as [c Hc'].
      unfold na_conta, Cliente.realizar_transacao. cbn. rewrite Hc'.
      match goal with
      | |- context [chama_registrar ?t c ?w1] =>
          destruct (registrar_retorna t c w1) as (c' & w' & Hreg & Hin);
          pose proof (f_equal estado_final Hreg) as Hfin;
          rewrite Hreg; cbn in Hfin |- *;
          exists texto, resto; rewrite Hfl;
          split; [reflexivity|]; split; [|exists c, w1; rewrite Hfin]
      end.
      * exact Hin.
      * split; reflexivity.
  - exists texto, resto. rewrite Hfl. repeat split.
Qed.

Lemma enderecos_validos_contas (st : Sessao) (r : nat) (p : PessoaFisica.t) :
  enderecos_validos st -> pessoas st !! r = Some p ->
  Forall (fun a => a < length (instancias st)) (PessoaFisica.contas p).
Proof.
  intros (_ & _ & Hps & _) Hp. rewrite Forall_forall in Hps.
  apply Hps. eapply list_elem_of_lookup_2, Hp.
Qed.

Lemma depositar_efeito (st : Sessao) (w : Mundo) :
  enderecos_validos st ->
  efeito_no_console float_of_str Transacao.Deposito (stdin w) st
    (depositar float_of_str st w).
Proof.
  intros Hev. pose proof Hev as (Hcl & _).
  unfold depositar, mbind at 1, M_bind at 1, input. cbn.
  destruct (stdin w) as [|cpf resto] eqn:Hin; [split; reflexivity|].
  unfold mbind at 1, M_bind at 1, get. unfold mbind at 1, M_bind at 1.
  rewrite filtrar_cliente_find by exact Hcl.
  destruct (primeiro_com_cpf (pessoas st) cpf (clientes st))
    as [cliente|] eqn:Hf.
  - destruct (primeiro_com_cpf_valido st cpf cliente Hcl Hf)
      as (p & Hp & _).
    match goal with
    | |- efeito_no_console _ _ _ _ (_ st ?w1) =>
        pose proof (corpo_transacao_efeito cliente
                      "Informe o valor do depósito: " Transacao.Deposito
                      p st w1 Hp
                      (enderecos_validos_contas st cliente p Hev Hp))
          as Hcorpo
    end.
    cbn [stdin] in Hcorpo.
    match type of Hcorpo with
    | efeito_transacao _ _ _ _ _ ?r =>
        change (efeito_no_console float_of_str Transacao.Deposito
                  (cpf :: resto) st r);
        destruct r as [[] st' w'|e st' w']
    end.
    + exists cpf, resto. rewrite Hf. split; [reflexivity|].
      exists p. split; [exact Hp|exact Hcorpo].
    + exact Hcorpo.
  - cbn. exists cpf, resto. rewrite Hf. repeat split.
Qed.

Lemma sacar_efeito (st : Sessao) (w : Mundo) :
  enderecos_validos st ->
  efeito_no_console float_of_str Transacao.Saque (stdin w) st
    (sacar float_of_str st w).
Proof.
  intros Hev. pose proof Hev as (Hcl & _).
  unfold sacar, mbind at 1, M_bind at 1, input. cbn.
  destruct (stdin w) as [|cpf resto] eqn:Hin; [split; reflexivity|].
  unfold mbind at 1, M_bind at 1, get. unfold mbind at 1, M_bind at 1.
  rewrite filtrar_cliente_find by exact Hcl.
  destruct (primeiro_com_cpf (pessoas st) cpf (clientes st))
    as [cliente|] eqn:Hf.
  - destruct (primeiro_com_cpf_valido st cpf cliente Hcl Hf)
      as (p & Hp & _).
    match goal with
    | |- efeito_no_console _ _ _ _ (_ st ?w1) =>
        pose proof (corpo_transacao_efeito cliente
                      "Informe o valor do saque: " Transacao.Saque
                      p st w1 Hp
                      (enderecos_validos_contas st cliente p Hev Hp))
          as Hcorpo
    end.
    cbn [stdin] in Hcorpo.
    match type of Hcorpo with
    | efeito_transacao _ _ _ _ _ ?r =>
        change (efeito_no_console float_of_str Transacao.Saque
                  (cpf :: resto) st r);
        destruct r as [[] st' w'|e st' w']
    end.
    + exists cpf, resto. rewrite Hf. split; [reflexivity|].
      exists p. split; [exact Hp|exact Hcorpo].
    + exact Hcorpo.
  - cbn. exists cpf, resto. rewrite Hf. repeat split.
Qed.

(** X9. [depositar] and [sacar] at the console, in a session without
    dangling addresses.  Only [EOFError] can leave them, and then nothing
    changed.  With an unknown CPF the amount is not asked; with an amount
    that [float] refuses, or a customer without account, nothing changes;
    otherwise the only change of the session is what registering the
    transaction does to the first account of the first customer with the
    CPF. *)
Theorem transacao_no_console (st : Sessao) (w : Mundo) :
  enderecos_validos st ->
  efeito_no_console float_of_str Transacao.Deposito (stdin w) st
    (depositar float_of_str st w)
  /\ efeito_no_console float_of_str Transacao.Saque (stdin w) st
       (sacar float_of_str st w).
Proof.
  intros Hev. split; [apply depositar_efeito|apply sacar_efeito]; exact Hev.
Qed.
End Comandos.

(** ** What the console shows *)

Lemma para_cada_emit {S A} (f : A -> Saida) (l : list A) (s : S)
    (w : Mundo) :
  para_cada l (fun x => emit (f x)) s w = Ok tt s (acrescenta (map f l) w).
Proof.
  revert w. induction l as [|x l IH]; intros w; cbn [para_cada map].
  - unfold acrescenta. rewrite app_nil_r. destruct w; reflexivity.
  - unfold mbind, M_bind, emit. rewrite IH. unfold acrescenta, escreve. cbn.
    rewrite <- app_assoc. reflexivity.
Qed.

(** X10. [exibir_extrato], for a customer that is found and has an account:
    it reads the CPF only, leaves the session as it is and prints the
    header, one line for each record of the history of the customer's first
    account, in the order of the history (or the line that says there is
    none), the balance of that account and the footer. *)
Theorem exibir_extrato_mostra (st : Sessao) (w : Mundo) (cpf : string)
    (resto : list string) (r : nat) (p : PessoaFisica.t) (a : nat)
    (outras : list nat) (c : instancia) :
  stdin w = cpf :: resto ->
  Forall (fun r => r < length (pessoas st)) (clientes st) ->
  primeiro_com_cpf (pessoas st) cpf (clientes st) = Some r ->
  pessoas st !! r = Some p ->
  PessoaFisica.contas p = a :: outras ->
  instancias st !! a = Some c ->
  exibir_extrato st w =
    Ok tt st
       (mkMundo resto
          (stdout w
           ++ [Texto "Informe o CPF do cliente: ";
               Texto (nl ++ "================ EXTRATO ================")]
           ++ linhas_do_historico (Historico.transacoes (historico c))
           ++ [SaldoExtrato (saldo c);
               Texto "=========================================="])
          (relogio w) (leituras w)).
Proof.
  intros Hin Hval Hf Hp Hc Ha.
  unfold exibir_extrato, mbind at 1, M_bind at 1, input. cbn. rewrite Hin.
  unfold mbind at 1, M_bind at 1, get. unfold mbind at 1, M_bind at 1.
  rewrite filtrar_cliente_find by exact Hval. rewrite Hf.
  unfold mbind at 1, M_bind at 1, recuperar_conta_cliente.
  unfold mbind at 1, M_bind at 1, le_pessoa. rewrite Hp, Hc.
  cbn [mret M_ret].
  unfold mbind at 1, M_bind at 1, print.
  unfold mbind at 1, M_bind at 1, le_conta. rewrite Ha.
  unfold mbind at 1, M_bind at 1.
  unfold linhas_do_historico.
  destruct (Historico.transacoes (historico c)) as [|t ts] eqn:Hh.
  - unfold print, mbind, M_bind, emit, escreve. cbn.
    rewrite <- !app_assoc. reflexivity.
  - rewrite para_cada_emit.
    unfold print, mbind, M_bind, emit, escreve, acrescenta. cbn.
    rewrite <- !app_assoc. reflexivity.
Qed.

(** Under [enderecos_validos], only the end of the input stops
    [exibir_extrato]. *)
Lemma exibir_extrato_so_eof (st : Sessao) (w : Mundo) :
  enderecos_validos st ->
  match exibir_extrato st w with
  | Raise e _ _ => e = EOFError
  | Ok _ _ _ => True
  end.
Proof.
  intros Hev. pose proof Hev as (Hcl & _).
  unfold exibir_extrato, mbind at 1, M_bind at 1, input. cbn.
  destruct (stdin w) as [|cpf resto]; [reflexivity|].
  unfold mbind at 1, M_bind at 1, get. unfold mbind at 1, M_bind at 1.
  rewrite filtrar_cliente_find by exact Hcl.
  destruct (primeiro_com_cpf (pessoas st) cpf (clientes st)) as [r|] eqn:Hf;
    [|exact I].
  destruct (primeiro_com_cpf_valido st cpf r Hcl Hf) as (p & Hp & _).
  pose proof (enderecos_validos_contas st r p Hev Hp) as Hcs.
  unfold mbind at 1, M_bind at 1, recuperar_conta_cliente.
  unfold mbind at 1, M_bind at 1, le_pessoa. rewrite Hp.
  destruct (PessoaFisica.contas p) as [|a outras]; [exact I|].
  apply Forall_cons in Hcs as [Ha _].
  apply lookup_lt_is_Some_2 in Ha as [c Hc].
  cbn [mret M_ret].
  unfold mbind at 1, M_bind at 1, print.
  unfold mbind at 1, M_bind at 1, le_conta. rewrite Hc.
  unfold mbind at 1, M_bind at 1.
  destruct (Historico.transacoes (historico c)) as [|t ts]; [exact I|].
  rewrite para_cada_emit. exact I.
Qed.

Lemma listar_contas_lista (st : Sessao) (l : list nat) (w : Mundo) :
  Forall (fun a => a < length (instancias st)) l ->
  Forall
    (fun c => Conta.cliente (parte_conta c) < length (pessoas st))
    (instancias st) ->
  para_cada l (fun conta =>
    print (repete "=" 100);;
    c ← le_conta conta;
    match c with
    | DeContaCorrente cc =>
        titular ← le_pessoa (ContaCorrente.cliente cc);
        emit (ResumoConta (ContaCorrente.agencia cc)
                          (ContaCorrente.numero cc)
                          (PessoaFisica.nome titular))
    | DeConta c0 => emit (ReprObjeto (Conta.numero c0))
    end) st w
  = Ok tt st (acrescenta (concat (map (resumo_da_conta st) l)) w).
Proof.
  intros Hl Hdonos. revert w.
  induction Hl as [|a l Ha _ IH]; intros w; cbn [para_cada map concat].
  - unfold acrescenta. rewrite app_nil_r. destruct w; reflexivity.
  - apply lookup_lt_is_Some_2 in Ha as [c Hc].
    assert (Hdono : Conta.cliente (parte_conta c) < length (pessoas st)).
    { rewrite Forall_forall in Hdonos. apply Hdonos.
      eapply list_elem_of_lookup_2, Hc. }
    unfold mbind at 1, M_bind at 1. unfold mbind at 1, M_bind at 1, print.
    unfold mbind at 1, M_bind at 1, le_conta. rewrite Hc.
    unfold resumo_da_conta. rewrite Hc.
    destruct c as [c0|cc].
    + unfold emit. rewrite IH. unfold acrescenta, escreve. cbn.
      rewrite <- !app_assoc. reflexivity.
    + apply lookup_lt_is_Some_2 in Hdono as [p Hp].
      cbn in Hp. unfold ContaCorrente.cliente.
      unfold mbind at 1, M_bind at 1, le_pessoa. rewrite Hp.
      unfold emit. rewrite IH. unfold acrescenta, escreve. cbn.
      rewrite <- !app_assoc. reflexivity.
Qed.

(** X11. [listar_contas], in a session without dangling addresses, reads
    nothing, leaves the session as it is, raises nothing, and prints, for
    each account of the list [contas] in its order, the separator and the
    summary of the account with the name of its owner. *)
Theorem listar_contas_mostra (st : Sessao) (w : Mundo) :
  enderecos_validos st ->
  listar_contas st w
  = Ok tt st (acrescenta (concat (map (resumo_da_conta st) (contas st))) w).
Proof.
  intros (_ & Hcs & _ & Hdonos).
  unfold listar_contas, mbind at 1, M_bind at 1, get.
  apply listar_contas_lista; assumption.
Qed.

(** ** The four steps of a session *)

Section Passos.
Variable float_of_str : string -> option Float.t.

Lemma efeito_no_console_passo (classe : Float.t -> Transacao.t)
    (entrada : list string) (st : Sessao) (r : Resultado Sessao unit) :
  efeito_no_console float_of_str classe entrada st r ->
  match r with
  | Ok _ st' _ => passo st st'
  | Raise e st' _ => e = EOFError /\ st' = st
  end.
Proof.
  destruct r as [[] st' w'|e st' w']; cbn; [|auto].
  intros (cpf & resto & _ & H).
  destruct (primeiro_com_cpf (pessoas st) cpf (clientes st)) as [cliente|].
  - destruct H as (p & Hp & texto & resto' & _ & _ & H).
    destruct (float_of_str texto) as [valor|];
      [|subst; apply passo_nada].
    destruct (PessoaFisica.contas p) as [|a outras];
      [subst; apply passo_nada|].
    destruct H as (c & w1 & Hc & ->). apply passo_transacao. exact Hc.
  - destruct H as [-> _]. apply passo_nada.
Qed.

(** The outcome of [m;; mret b] from the outcome of [m]. *)
Lemma e_continua_passo (m : M Sessao unit) (b : bool) (st : Sessao)
    (w : Mundo) :
  match m st w with
  | Ok _ st' _ => passo st st'
  | Raise e st' _ => e = EOFError /\ st' = st
  end ->
  match (m;; mret b) st w with
  | Ok _ st' _ => passo st st'
  | Raise e st' _ => e = EOFError /\ st' = st
  end.
Proof.
  unfold mbind, M_bind. destruct (m st w); cbn; auto.
Qed.

Lemma iteracao_efeito (st : Sessao) (w : Mundo) :
  enderecos_validos st ->
  match iteracao float_of_str st w with
  | Ok _ st' _ => passo st st'
  | Raise e st' _ => e = EOFError /\ st' = st
  end.
Proof.
  intros Hev. pose proof Hev as (Hcl & _).
  unfold iteracao, menu, mbind at 1, M_bind at 1, input. cbn.
  destruct (stdin w) as [|opcao resto]; [split; reflexivity|].
  repeat match goal with
    | |- context [if String.eqb opcao ?s then _ else _] =>
        destruct (String.eqb opcao s)
    end.
  - apply e_continua_passo.
    eapply efeito_no_console_passo, depositar_efeito, Hev.
  - apply e_continua_passo.
    eapply efeito_no_console_passo, sacar_efeito, Hev.
  - apply e_continua_passo.
    match goal with |- context [exibir_extrato st ?w1] =>
      pose proof (exibir_extrato_so_eof st w1 Hev) as He;
      pose proof (puro_exibir_extrato st w1) as Hp;
      destruct (exibir_extrato st w1); cbn in Hp |- *; subst
    end; [apply passo_nada|split; reflexivity].
  - apply e_continua_passo.
    match goal with |- context [criar_cliente st ?w1] =>
      pose proof (criar_cliente_efeito st w1 Hcl) as He;
      destruct (criar_cliente st w1) as [[] st' w'|e st' w']
    end; [|exact He].
    destruct He as (cpf & resto' & _ & He).
    destruct (primeiro_com_cpf (pessoas st) cpf (clientes st)) eqn:Hf.
    + destruct He as [-> _]. apply passo_nada.
    + destruct He as (nome & dn & en & r' & _ & -> & _).
      apply passo_cliente. exact Hf.
  - unfold mbind at 1, M_bind at 1, get. apply e_continua_passo.
    match goal with |- context [criar_conta ?n st ?w1] =>
      pose proof (criar_conta_efeito n st w1 Hcl) as He;
      destruct (criar_conta n st w1) as [[] st' w'|e st' w']
    end; [|exact He].
    destruct He as (cpf & resto' & _ & _ & He).
    destruct (primeiro_com_cpf (pessoas st) cpf (clientes st)) as [r|] eqn:Hf.
    + destruct (primeiro_com_cpf_valido st cpf r Hcl Hf) as (p & Hp & _).
      subst st'. eapply passo_conta. exact Hp.
    + subst st'. apply passo_nada.
  - apply e_continua_passo.
    match goal with |- context [listar_contas st ?w1] =>
      destruct Hev as (_ & Hcs & _ & Hdonos);
      unfold listar_contas, mbind at 1, M_bind at 1, get;
      rewrite (listar_contas_lista st (contas st) w1 Hcs Hdonos)
    end. apply passo_nada.
  - cbn. apply passo_nada.
  - cbn. apply passo_nada.
Qed.
End Passos.

(** Registering a transaction changes neither the number, the branch, the
    owner nor the class of the account. *)
Lemma registrar_identidade (transacao : Transacao.t) (conta : instancia)
    (w : Mundo) :
  let conta' := estado_final (chama_registrar transacao conta w) in
  Conta.numero (parte_conta conta') = Conta.numero (parte_conta conta)
  /\ Conta.agencia (parte_conta conta') = Conta.agencia (parte_conta conta)
  /\ Conta.cliente (parte_conta conta') = Conta.cliente (parte_conta conta).
Proof.
  destruct transacao as [v|v], conta as [c|c]; executa;
    repeat match goal with
      | |- context [if ?b then _ else _] => destruct b; cbn
      end; repeat split.
Qed.

Lemma passo_enderecos_validos (st st' : Sessao) :
  passo st st' -> enderecos_validos st -> enderecos_validos st'.
Proof.
  intros Hp (Hcl & Hcs & Hps & Hdonos).
  destruct Hp as [|nome dn cpf en Hf|r p Hp|a c t w1 Hc];
    unfold enderecos_validos, com_cliente, com_conta, com_instancia; cbn.
  - auto.
  - rewrite length_app. cbn. repeat split.
    + apply Forall_app. split.
      * eapply Forall_impl; [exact Hcl|]. cbn. intros; lia.
      * constructor; [lia|constructor].
    + exact Hcs.
    + apply Forall_app. split; [exact Hps|]. repeat constructor.
    + eapply Forall_impl; [exact Hdonos|]. cbn. intros; lia.
  - rewrite Hp, length_insert, length_app. cbn.
    assert (Hr : r < length (pessoas st)) by (eapply lookup_lt_Some, Hp).
    repeat split.
    + exact Hcl.
    + apply Forall_app. split.
      * eapply Forall_impl; [exact Hcs|]. cbn. intros; lia.
      * constructor; [lia|constructor].
    + apply Forall_insert.
      * eapply Forall_impl; [exact Hps|]. cbn. intros q Hq.
        eapply Forall_impl; [exact Hq|]. cbn. intros; lia.
      * unfold mais_uma_conta. cbn. apply Forall_app. split.
        -- rewrite Forall_forall in Hps.
           eapply Forall_impl;
             [apply (Hps p); eapply list_elem_of_lookup_2, Hp|].
           cbn. intros; lia.
        -- constructor; [lia|constructor].
    + apply Forall_app. split; [exact Hdonos|].
      constructor; [exact Hr|constructor].
  - rewrite length_insert. repeat split; try assumption.
    apply Forall_insert; [exact Hdonos|].
    destruct (registrar_identidade t c w1) as (_ & _ & ->).
    rewrite Forall_forall in Hdonos. apply Hdonos.
    eapply list_elem_of_lookup_2, Hc.
Qed.

Section Alcance.
Variable float_of_str : string -> option Float.t.

Lemma enderecos_validos_inicial : enderecos_validos sessao_inicial.
Proof. repeat split; constructor. Qed.

(** An invariant of the four steps that holds at the start holds in every
    state of a session. *)
Lemma alcancavel_invariante (I : Sessao -> Prop) :
  I sessao_inicial ->
  (forall st st', enderecos_validos st -> I st -> passo st st' -> I st') ->
  forall rodando st w,
    alcancavel float_of_str rodando st w -> enderecos_validos st /\ I st.
Proof.
  intros Hini Hpasso rodando st w.
  induction 1 as [w0|s0 w0 continua s1 w1 Hant [Hev HI] Hit
                 |s0 w0 e s1 w1 Hant [Hev HI] Hit].
  - split; [apply enderecos_validos_inicial|exact Hini].
  - pose proof (iteracao_efeito float_of_str s0 w0 Hev) as Hp.
    rewrite Hit in Hp. split.
    + eapply passo_enderecos_validos; eassumption.
    + eapply Hpasso; eassumption.
  - pose proof (iteracao_efeito float_of_str s0 w0 Hev) as Hp.
    rewrite Hit in Hp. destruct Hp as [_ ->]. split; assumption.
Qed.

Lemma alcancavel_enderecos_validos rodando st w :
  alcancavel float_of_str rodando st w -> enderecos_validos st.
Proof.
  intros H.
  apply (alcancavel_invariante (fun _ => True) I (fun _ _ _ _ _ => I)
           rodando st w H).
Qed.
End Alcance.

(** ** Invariants of a session *)

Lemma primeiro_com_cpf_None_seq (ps : list PessoaFisica.t) (cpf : string) :
  primeiro_com_cpf ps cpf (seq 0 (length ps)) = None ->
  forall i p, ps !! i = Some p -> PessoaFisica.cpf p <> cpf.
Proof.
  intros Hf i p Hp Hc.
  apply primeiro_com_cpf_None in Hf. rewrite Forall_forall in Hf.
  assert (Hi : i ∈ seq 0 (length ps)).
  { apply elem_of_seq. apply lookup_lt_Some in Hp. lia. }
  specialize (Hf i Hi). unfold tem_cpf in Hf. rewrite Hp in Hf.
  apply String.eqb_neq in Hf. contradiction.
Qed.

Lemma passo_cpfs_unicos (st st' : Sessao) :
  passo st st' -> cpfs_unicos st -> cpfs_unicos st'.
Proof.
  intros Hp [Hcl Hu].
  destruct Hp as [|nome dn cpf en Hf|r p Hp|a c t w1 Hc];
    unfold cpfs_unicos, com_cliente, com_conta, com_instancia; cbn.
  - auto.
  - rewrite Hcl in Hf.
    pose proof (primeiro_com_cpf_None_seq _ _ Hf) as Hnovo.
    split.
    + rewrite length_app, seq_app, Hcl. reflexivity.
    + intros i j pi pj Hi Hj Heq.
      apply lookup_app_Some in Hi as [Hi|[Hgi Hi]];
        apply lookup_app_Some in Hj as [Hj|[Hgj Hj]].
      * eapply Hu; eassumption.
      * apply list_lookup_singleton_Some in Hj as [_ <-].
        exfalso. eapply Hnovo; [exact Hi|exact Heq].
      * apply list_lookup_singleton_Some in Hi as [_ <-].
        exfalso. eapply Hnovo; [exact Hj|symmetry; exact Heq].
      * apply list_lookup_singleton_Some in Hi as [Hi _].
        apply list_lookup_singleton_Some in Hj as [Hj _]. lia.
  - rewrite Hp, length_insert. split; [exact Hcl|].
    assert (Hcpf : forall i q, <[r := mais_uma_conta (length (instancias st)) p]>
                      (pessoas st) !! i = Some q ->
              exists q0, pessoas st !! i = Some q0
                         /\ PessoaFisica.cpf q = PessoaFisica.cpf q0).
    { intros i q Hi. destruct (decide (r = i)) as [<-|Hne].
      - rewrite list_lookup_insert_eq in Hi
          by (eapply lookup_lt_Some, Hp).
        injection Hi as <-. exists p. split; [exact Hp|reflexivity].
      - rewrite list_lookup_insert_ne in Hi by exact Hne.
        exists q. split; [exact Hi|reflexivity]. }
    intros i j pi pj Hi Hj Heq.
    destruct (Hcpf i pi Hi) as (qi & Hqi & Hci).
    destruct (Hcpf j pj Hj) as (qj & Hqj & Hcj).
    eapply Hu; [exact Hqi|exact Hqj|congruence].
  - split; assumption.
Qed.

Lemma passo_posse_das_contas (st st' : Sessao) :
  passo st st' -> posse_das_contas st -> posse_das_contas st'.
Proof.
  intros Hp (HA & HB & HC).
  destruct Hp as [|nome dn cpf en Hf|r p Hp|a0 c0 t w1 Hc0];
    unfold posse_das_contas, com_cliente, com_conta, com_instancia; cbn.
  - auto.
  - split; [|split].
    + intros r p a Hr Ha.
      apply lookup_app_Some in Hr as [Hr|[_ Hr]].
      * eapply HA; eassumption.
      * apply list_lookup_singleton_Some in Hr as [_ <-].
        cbn in Ha. inversion Ha.
    + intros a c Hc. destruct (HB a c Hc) as (p & Hp & Ha).
      exists p. split; [|exact Ha]. apply lookup_app_l_Some, Hp.
    + intros r p Hr.
      apply lookup_app_Some in Hr as [Hr|[_ Hr]].
      * eapply HC, Hr.
      * apply list_lookup_singleton_Some in Hr as [_ <-]. constructor.
  - rewrite Hp.
    assert (Hr : r < length (pessoas st)) by (eapply lookup_lt_Some, Hp).
    assert (Hnovo : forall a, a ∈ PessoaFisica.contas p ->
                              a < length (instancias st)).
    { intros a Ha. destruct (HA r p a Hp Ha) as (c & Hc & _).
      eapply lookup_lt_Some, Hc. }
    split; [|split].
    + intros r' p' a Hr' Ha.
      apply list_lookup_insert_Some in Hr' as [(<- & <- & _)|(Hne & Hr')].
      * unfold mais_uma_conta in Ha. cbn in Ha.
        apply elem_of_app in Ha as [Ha|Ha].
        -- destruct (HA r p a Hp Ha) as (c & Hc & Hd).
           exists c. split; [apply lookup_app_l_Some, Hc|exact Hd].
        -- apply list_elem_of_singleton in Ha as ->.
           eexists. split; [apply list_lookup_middle; reflexivity|].
           reflexivity.
      * destruct (HA r' p' a Hr' Ha) as (c & Hc & Hd).
        exists c. split; [apply lookup_app_l_Some, Hc|exact Hd].
    + intros a c Hc.
      apply lookup_app_Some in Hc as [Hc|[Hge Hc]].
      * destruct (HB a c Hc) as (q & Hq & Ha).
        destruct (decide (r = Conta.cliente (parte_conta c))) as [He|Hne].
        -- rewrite <- He in Hq |- *. rewrite Hp in Hq. injection Hq as <-.
           eexists. split; [apply list_lookup_insert_eq, Hr|].
           unfold mais_uma_conta. cbn. apply elem_of_app. left. exact Ha.
        -- exists q. split; [|exact Ha].
           rewrite list_lookup_insert_ne by exact Hne. exact Hq.
      * apply list_lookup_singleton_Some in Hc as [Hz <-]. cbn.
        eexists. split; [apply list_lookup_insert_eq, Hr|].
        unfold mais_uma_conta. cbn. apply elem_of_app. right.
        apply list_elem_of_singleton. lia.
    + intros r' p' Hr'.
      apply list_lookup_insert_Some in Hr' as [(<- & <- & _)|(Hne & Hr')].
      * unfold mais_uma_conta. cbn. apply NoDup_app.
        split; [eapply HC, Hp|]. split; [|apply NoDup_singleton].
        intros a Ha Ha'. apply list_elem_of_singleton in Ha'.
        apply Hnovo in Ha. lia.
      * eapply HC, Hr'.
  - destruct (registrar_identidade t c0 w1) as (_ & _ & Hd).
    cbn zeta in Hd.
    assert (Ha0 : a0 < length (instancias st))
      by (eapply lookup_lt_Some, Hc0).
    split; [|split].
    + intros r p a Hr Ha. destruct (HA r p a Hr Ha) as (c & Hc & Hcl).
      destruct (decide (a0 = a)) as [<-|Hne].
      * eexists. split; [apply list_lookup_insert_eq, Ha0|].
        rewrite Hd. rewrite Hc0 in Hc. injection Hc as <-. exact Hcl.
      * exists c. split; [|exact Hcl].
        rewrite list_lookup_insert_ne by exact Hne. exact Hc.
    + intros a c Hc.
      apply list_lookup_insert_Some in Hc as [(<- & <- & _)|(Hne & Hc)].
      * rewrite Hd. apply HB, Hc0.
      * apply HB, Hc.
    + exact HC.
Qed.

Lemma conta_padrao_nova (cliente : nat) (numero : Z) :
  conta_padrao (DeContaCorrente (ContaCorrente.nova_conta cliente numero)).
Proof.
  eexists. split; [reflexivity|]. split; [reflexivity|].
  split; [reflexivity|]. split; split.
  - vm_compute. discriminate.
  - constructor.
  - reflexivity.
  - constructor.
Qed.

Lemma registrar_conta_padrao (transacao : Transacao.t) (c : instancia)
    (w : Mundo) :
  conta_padrao c ->
  conta_padrao (estado_final (chama_registrar transacao c w)).
Proof.
  intros (cc & -> & Hl & Hn & Hd & Hf).
  destruct (registrar_dentro_dos_limites transacao cc w Hd)
    as (cc' & Hcc' & Hl' & Hn' & Hd').
  pose proof (registrar_livro_fiel transacao (DeContaCorrente cc) w Hf)
    as Hf'.
  rewrite Hcc' in Hf' |- *. exists cc'.
  split; [reflexivity|]. split; [congruence|]. split; [congruence|].
  split; assumption.
Qed.

Lemma passo_conta_padrao (st st' : Sessao) :
  passo st st' ->
  Forall conta_padrao (instancias st) -> Forall conta_padrao (instancias st').
Proof.
  intros Hp Hcs.
  destruct Hp as [|nome dn cpf en Hf|r p Hp|a c t w1 Hc]; cbn.
  - exact Hcs.
  - exact Hcs.
  - apply Forall_app. split; [exact Hcs|].
    constructor; [apply conta_padrao_nova|constructor].
  - apply Forall_insert; [exact Hcs|].
    apply registrar_conta_padrao.
    rewrite Forall_forall in Hcs. apply Hcs.
    eapply list_elem_of_lookup_2, Hc.
Qed.

Lemma estende_refl (st : Sessao) : estende st st.
Proof.
  repeat split; try reflexivity.
  - intros r p Hp. exists p. repeat split; try reflexivity. exact Hp.
  - intros a c Hc. exists c. repeat split; try reflexivity. exact Hc.
Qed.

Lemma estende_trans (st1 st2 st3 : Sessao) :
  estende st1 st2 -> estende st2 st3 -> estende st1 st3.
Proof.
  intros (Hc1 & Hk1 & Hp1 & Hi1) (Hc2 & Hk2 & Hp2 & Hi2).
  split; [etrans; eassumption|]. split; [etrans; eassumption|]. split.
  - intros r p Hp.
    destruct (Hp1 r p Hp) as (p2 & Hq2 & Hn2 & Hd2 & Hf2 & He2 & Hx2).
    destruct (Hp2 r p2 Hq2) as (p3 & Hq3 & Hn3 & Hd3 & Hf3 & He3 & Hx3).
    exists p3. split; [exact Hq3|]. repeat split; try congruence.
    etrans; eassumption.
  - intros a c Hc.
    destruct (Hi1 a c Hc) as (c2 & Hq2 & Hn2 & Ha2 & Hd2 & Hx2).
    destruct (Hi2 a c2 Hq2) as (c3 & Hq3 & Hn3 & Ha3 & Hd3 & Hx3).
    exists c3. split; [exact Hq3|]. repeat split; try congruence.
    etrans; eassumption.
Qed.

Lemma passo_estende (st st' : Sessao) : passo st st' -> estende st st'.
Proof.
  intros Hp.
  destruct Hp as [|nome dn cpf en Hf|r p Hp|a0 c0 t w1 Hc0].
  - apply estende_refl.
  - unfold estende, com_cliente; cbn.
    split; [apply prefix_app_r; reflexivity|]. split; [reflexivity|]. split.
    + intros r p Hp. exists p. split; [apply lookup_app_l_Some, Hp|].
      repeat split; reflexivity.
    + intros a c Hc. exists c. split; [exact Hc|]. repeat split; reflexivity.
  - unfold estende, com_conta; cbn. rewrite Hp.
    split; [reflexivity|]. split; [apply prefix_app_r; reflexivity|]. split.
    + intros r' p' Hp'. destruct (decide (r = r')) as [<-|Hne].
      * rewrite Hp in Hp'. injection Hp' as <-.
        eexists. split;
          [apply list_lookup_insert_eq; eapply lookup_lt_Some, Hp|].
        repeat split; try reflexivity.
        unfold mais_uma_conta. cbn. apply prefix_app_r. reflexivity.
      * exists p'. split;
          [rewrite list_lookup_insert_ne by exact Hne; exact Hp'|].
        repeat split; reflexivity.
    + intros a c Hc. exists c. split; [apply lookup_app_l_Some, Hc|].
      repeat split; reflexivity.
  - unfold estende, com_instancia; cbn.
    split; [reflexivity|]. split; [reflexivity|]. split.
    + intros r p Hp. exists p. split; [exact Hp|].
      repeat split; reflexivity.
    + intros a c Hc. destruct (decide (a0 = a)) as [<-|Hne].
      * rewrite Hc0 in Hc. injection Hc as <-.
        eexists. split;
          [apply list_lookup_insert_eq; eapply lookup_lt_Some, Hc0|].
        destruct (registrar_identidade t c0 w1) as (Hn & Ha & Hd).
        destruct (registrar_prefixo t c0 w1) as [novos Hnovos].
        split; [exact Hn|]. split; [exact Ha|]. split; [exact Hd|].
        exists novos. exact Hnovos.
      * exists c. split;
          [rewrite list_lookup_insert_ne by exact Hne; exact Hc|].
        repeat split; reflexivity.
Qed.

(** ** New customers and new accounts *)

Lemma sessao_duas_contas_alcancavel :
  alcancavel float_exemplo true sessao_duas_contas mundo_duas_contas.
Proof.
  pose proof (laco_alcancavel float_exemplo 3 sessao_inicial
                mundo_duas_contas_inicio (alcancavel_inicio _ _)) as H.
  unfold mundo_duas_contas.
  destruct (laco float_exemplo 3 sessao_inicial mundo_duas_contas_inicio)
    as [saiu st w|e st w] eqn:Hl; vm_compute in Hl.
  - injection Hl as <- <- <-. exact H.
  - discriminate Hl.
Qed.

Lemma sessao_duas_contas_validos : enderecos_validos sessao_duas_contas.
Proof. repeat split; repeat constructor. Qed.

(** X7. A new customer.  When no customer of the list has the CPF that is
    read and three more lines follow, [criar_cliente] adds one customer,
    with the name, birth date and address read and no account, at the end
    of the list, and reads these four lines; the customer is then the one
    [filtrar_cliente] finds for the CPF. *)
Theorem criar_cliente_novo (st : Sessao) (w : Mundo)
    (cpf nome data_nascimento endereco : string) (resto : list string) :
  stdin w = cpf :: nome :: data_nascimento :: endereco :: resto ->
  Forall (fun r => r < length (pessoas st)) (clientes st) ->
  primeiro_com_cpf (pessoas st) cpf (clientes st) = None ->
  let novo := PessoaFisica.__init__ nome data_nascimento cpf endereco in
  let st' := com_cliente novo st in
  exists w',
    criar_cliente st w = Ok tt st' w'
    /\ stdin w' = resto
    /\ PessoaFisica.contas novo = []
    /\ pessoas st' !! length (pessoas st) = Some novo
    /\ forall w2,
         filtrar_cliente cpf (clientes st') st' w2
         = Ok (Some (length (pessoas st))) st' w2.
Proof.
  intros Hin Hval Hf novo st'.
  assert (Hrun : exists w',
            criar_cliente st w = Ok tt st' w' /\ stdin w' = resto).
  { unfold criar_cliente, mbind, M_bind, input, get. cbn. rewrite Hin.
    rewrite filtrar_cliente_find by exact Hval. rewrite Hf. cbn.
    eexists. split; reflexivity. }
  destruct Hrun as (w' & Hrun & Hr).
  exists w'. split; [exact Hrun|]. split; [exact Hr|].
  split; [reflexivity|]. split.
  - subst st'. cbn. apply list_lookup_middle. reflexivity.
  - intros w2. rewrite filtrar_cliente_find.
    + f_equal. subst st'. unfold primeiro_com_cpf, com_cliente. cbn.
      apply primeiro_com_cpf_None in Hf.
      induction Hf as [|a l Ha _ IH]; cbn.
      * unfold tem_cpf. rewrite list_lookup_middle by reflexivity.
        cbn. rewrite String.eqb_refl. reflexivity.
      * apply Forall_cons in Hval as [Hlt Hval].
        replace (tem_cpf (pessoas st ++ [novo]) cpf a) with false;
          [apply IH, Hval|].
        unfold tem_cpf in Ha |- *.
        rewrite lookup_app_l by exact Hlt. symmetry. exact Ha.
    + subst st'. cbn. rewrite length_app. cbn. apply Forall_app. split.
      * eapply Forall_impl; [exact Hval|]. cbn. intros; lia.
      * constructor; [lia|constructor].
Qed.

Lemma criar_cliente_novo_witness :
  exists w',
    criar_cliente sessao_um_cliente
      (mkMundo ["222"; "Bia"; "02-02-2002"; "Rua B, 2"; "q"] []
         (relogio mundo_vazio) 0)
    = Ok tt
        (com_cliente (PessoaFisica.__init__ "Bia" "02-02-2002" "222" "Rua B, 2")
           sessao_um_cliente)
        w'
    /\ stdin w' = ["q"].
Proof.
  destruct (criar_cliente_novo sessao_um_cliente
              (mkMundo ["222"; "Bia"; "02-02-2002"; "Rua B, 2"; "q"] []
                 (relogio mundo_vazio) 0)
              "222" "Bia" "02-02-2002" "Rua B, 2" ["q"])
    as (w' & Hrun & Hin & _).
  - reflexivity.
  - repeat constructor.
  - reflexivity.
  - exists w'. split; assumption.
Defined.

Lemma filtrar_cliente_primeiro_witness :
  exists achado,
    filtrar_cliente "111" (clientes sessao_duas_contas) sessao_duas_contas
      mundo_vazio
    = Ok achado sessao_duas_contas mundo_vazio.
Proof.
  destruct (filtrar_cliente_primeiro "111" (clientes sessao_duas_contas)
              sessao_duas_contas mundo_vazio) as (achado & H & _).
  - repeat constructor.
  - exists achado. exact H.
Defined.

(** X8. A new account.  [criar_conta] reads the CPF only.  When a customer
    of the list has it, the session gains one checking account for the
    first such customer: new, with the number given and the default limits,
    at the end of the list [contas] and of the list of its owner.  When no
    customer has it, the session is as it was. *)
Theorem criar_conta_abre (numero_conta : Z) (st : Sessao) (w : Mundo)
    (cpf : string) (resto : list string) :
  stdin w = cpf :: resto ->
  Forall (fun r => r < length (pessoas st)) (clientes st) ->
  exists w',
    criar_conta numero_conta st w
    = Ok tt
        (match primeiro_com_cpf (pessoas st) cpf (clientes st) with
         | Some r =>
             com_conta r
               (DeContaCorrente (ContaCorrente.nova_conta r numero_conta)) st
         | None => st
         end)
        w'
    /\ stdin w' = resto.
Proof.
  intros Hin Hval.
  unfold criar_conta, mbind, M_bind, input, get. cbn. rewrite Hin.
  rewrite filtrar_cliente_find by exact Hval.
  destruct (primeiro_com_cpf (pessoas st) cpf (clientes st)) as [r|] eqn:Hf.
  - destruct (primeiro_com_cpf_valido st cpf r Hval Hf) as (p & Hp & _).
    unfold nova_instancia, contas_append, na_pessoa, com_conta. cbn.
    rewrite Hp. cbn. eexists. split; reflexivity.
  - cbn. eexists. split; reflexivity.
Qed.

Lemma criar_conta_abre_witness :
  exists w',
    criar_conta 1 sessao_um_cliente
      (mkMundo ["111"; "q"] [] (relogio mundo_vazio) 0)
    = Ok tt
        (mkSessao
           [PessoaFisica.mk (Cliente.mk "Rua A, 1" [0]) "Ana" "01-01-2000"
              "111"]
           [DeContaCorrente (ContaCorrente.nova_conta 0 1)] [0] [0])
        w'
    /\ stdin w' = ["q"].
Proof.
  apply (criar_conta_abre 1 sessao_um_cliente
           (mkMundo ["111"; "q"] [] (relogio mundo_vazio) 0) "111" ["q"]).
  - reflexivity.
  - repeat constructor.
Defined.

(** ** Every state of a session *)

Lemma cpfs_unicos_inicial : cpfs_unicos sessao_inicial.
Proof.
  split; [reflexivity|]. intros i j pi pj Hi. destruct i; discriminate Hi.
Qed.

Lemma posse_das_contas_inicial : posse_das_contas sessao_inicial.
Proof.
  repeat split.
  - intros r p a Hr. destruct r; discriminate Hr.
  - intros a c Ha. destruct a; discriminate Ha.
  - intros r p Hr. destruct r; discriminate Hr.
Qed.

Section Sessoes.
Variable float_of_str : string -> option Float.t.

(** X12. A pass of the loop of [main], from any state of a session: either
    it is stopped by [EOFError], and no other exception, with the session
    as it was; or it returns after doing one of four things to the session:
    nothing, one customer added, one account opened, one transaction
    registered on one account. *)
Theorem passos_da_sessao (st : Sessao) (w : Mundo) :
  alcancavel float_of_str true st w ->
  match iteracao float_of_str st w with
  | Ok _ st' _ => passo st st'
  | Raise e st' _ => e = EOFError /\ st' = st
  end.
Proof.
  intros H. apply iteracao_efeito.
  eapply alcancavel_enderecos_validos, H.
Qed.

Lemma laco_so_eof (n : nat) (st : Sessao) (w : Mundo) :
  alcancavel float_of_str true st w ->
  match laco float_of_str n st w with
  | Raise e _ _ => e = EOFError
  | Ok _ _ _ => True
  end.
Proof.
  revert st w. induction n as [|n IH]; intros st w Hst; cbn [laco].
  - exact I.
  - unfold mbind, M_bind.
    pose proof (iteracao_efeito float_of_str st w
                  (alcancavel_enderecos_validos float_of_str _ _ _ Hst))
      as He.
    destruct (iteracao float_of_str st w) as [continua st' w'|e st' w']
      eqn:Hit.
    + destruct continua; [|exact I].
      apply IH. eapply alcancavel_iteracao; eassumption.
    + apply He.
Qed.

(** X13. [main] is left by the option [q] or by [EOFError], the end of the
    input: no other exception leaves it, whatever is typed. *)
Theorem main_so_eof (n : nat) (w : Mundo) :
  match main float_of_str n w with
  | Raise e _ _ => e = EOFError
  | Ok _ _ _ => True
  end.
Proof. apply laco_so_eof, alcancavel_inicio. Qed.

(** X14. In every state of a session no two customers have the same CPF,
    and the list [clientes] holds every customer ever registered, in the
    order of registration. *)
Theorem cpf_unico_na_sessao (rodando : bool) (st : Sessao) (w : Mundo) :
  alcancavel float_of_str rodando st w -> cpfs_unicos st.
Proof.
  intros H.
  apply (alcancavel_invariante float_of_str cpfs_unicos cpfs_unicos_inicial
           (fun st st' _ HI Hp => passo_cpfs_unicos st st' Hp HI)
           rodando st w H).
Qed.

(** X15. In every state of a session every account is in the list of
    accounts of its owner, once, and in the list of no other customer. *)
Theorem contas_tem_um_dono (rodando : bool) (st : Sessao) (w : Mundo) :
  alcancavel float_of_str rodando st w -> posse_das_contas st.
Proof.
  intros H.
  apply (alcancavel_invariante float_of_str posse_das_contas
           posse_das_contas_inicial
           (fun st st' _ HI Hp => passo_posse_das_contas st st' Hp HI)
           rodando st w H).
Qed.

(** X16. In every state of a session every account is a checking account
    with the limits 500.0 and 3, its history holds at most 3 withdrawals,
    none above 500.0, every amount of the history passed the test
    [valor <= 0], and the balance is the history replayed from [0.0]. *)
Theorem contas_da_sessao (rodando : bool) (st : Sessao) (w : Mundo) :
  alcancavel float_of_str rodando st w ->
  Forall conta_padrao (instancias st).
Proof.
  intros H.
  apply (alcancavel_invariante float_of_str
           (fun st => Forall conta_padrao (instancias st))
           (List.Forall_nil _)
           (fun st st' _ HI Hp => passo_conta_padrao st st' Hp HI)
           rodando st w H).
Qed.

(** X17. Through any number of passes of the loop a session only grows:
    nothing leaves the two lists nor the list of a customer, customers keep
    their data, accounts keep number, branch and owner, and histories only
    grow at the end. *)
Theorem sessao_so_cresce (n : nat) (st : Sessao) (w : Mundo) :
  alcancavel float_of_str true st w ->
  estende st (estado_final (laco float_of_str n st w)).
Proof.
  revert st w. induction n as [|n IH]; intros st w Hst; cbn [laco].
  - apply estende_refl.
  - unfold mbind, M_bind.
    pose proof (iteracao_efeito float_of_str st w
                  (alcancavel_enderecos_validos float_of_str _ _ _ Hst))
      as He.
    destruct (iteracao float_of_str st w) as [continua st' w'|e st' w']
      eqn:Hit.
    + apply passo_estende in He. destruct continua; cbn.
      * eapply estende_trans; [exact He|].
        apply IH. eapply alcancavel_iteracao; eassumption.
      * exact He.
    + cbn. destruct He as [_ ->]. apply estende_refl.
Qed.
End Sessoes.

Lemma passos_da_sessao_witness :
  match iteracao float_exemplo sessao_duas_contas mundo_duas_contas with
  | Ok _ st' _ => passo sessao_duas_contas st'
  | Raise e st' _ => e = EOFError /\ st' = sessao_duas_contas
  end.
Proof.
  apply (passos_da_sessao float_exemplo sessao_duas_contas mundo_duas_contas).
  apply sessao_duas_contas_alcancavel.
Defined.

Lemma cpf_unico_na_sessao_witness : cpfs_unicos sessao_duas_contas.
Proof.
  apply (cpf_unico_na_sessao float_exemplo true sessao_duas_contas
           mundo_duas_contas).
  apply sessao_duas_contas_alcancavel.
Defined.

Lemma contas_tem_um_dono_witness : posse_das_contas sessao_duas_contas.
Proof.
  apply (contas_tem_um_dono float_exemplo true sessao_duas_contas
           mundo_duas_contas).
  apply sessao_duas_contas_alcancavel.
Defined.

Lemma contas_da_sessao_witness :
  Forall conta_padrao (instancias sessao_duas_contas).
Proof.
  apply (contas_da_sessao float_exemplo true sessao_duas_contas
           mundo_duas_contas).
  apply sessao_duas_contas_alcancavel.
Defined.

Lemma sessao_so_cresce_witness :
  estende sessao_duas_contas
    (estado_final
       (laco float_exemplo 1 sessao_duas_contas mundo_duas_contas)).
Proof.
  apply (sessao_so_cresce float_exemplo 1 sessao_duas_contas
           mundo_duas_contas).
  apply sessao_duas_contas_alcancavel.
Defined.

Lemma transacao_no_console_witness :
  efeito_no_console float_exemplo Transacao.Deposito
    (stdin mundo_duas_contas) sessao_duas_contas
    (depositar float_exemplo sessao_duas_contas mundo_duas_contas)
  /\ efeito_no_console float_exemplo Transacao.Saque
       (stdin mundo_duas_contas) sessao_duas_contas
       (sacar float_exemplo sessao_duas_contas mundo_duas_contas).
Proof.
  apply (transacao_no_console float_exemplo sessao_duas_contas
           mundo_duas_contas).
  apply sessao_duas_contas_validos.
Defined.

Lemma listar_contas_mostra_witness :
  listar_contas sessao_duas_contas mundo_vazio
  = Ok tt sessao_duas_contas
       (acrescenta
          [Texto (repete "=" 100); ResumoConta "0001" 1 "Ana";
           Texto (repete "=" 100); ResumoConta "0001" 2 "Ana"]
          mundo_vazio).
Proof.
  apply (listar_contas_mostra sessao_duas_contas mundo_vazio).
  apply sessao_duas_contas_validos.
Defined.

Lemma exibir_extrato_mostra_witness :
  exibir_extrato sessao_com_deposito
    (mkMundo ["111"; "q"] [] (relogio mundo_vazio) 0)
  = Ok tt sessao_com_deposito
       (mkMundo ["q"]
          [Texto "Informe o CPF do cliente: ";
           Texto (nl ++ "================ EXTRATO ================");
           LinhaExtrato "Deposito" (Float.of_Z 1000) "03-11-2026 10:00:00";
           SaldoExtrato (Float.of_Z 1000);
           Texto "=========================================="]
          (relogio mundo_vazio) 0).
Proof.
  apply (exibir_extrato_mostra sessao_com_deposito
           (mkMundo ["111"; "q"] [] (relogio mundo_vazio) 0)
           "111" ["q"] 0
           (PessoaFisica.mk (Cliente.mk "Rua A, 1" [0]) "Ana" "01-01-2000"
              "111")
           0 [] (DeContaCorrente conta_mil)).
  - reflexivity.
  - repeat constructor.
  - reflexivity.
  - reflexivity.
  - reflexivity.
  - reflexivity.
Defined.
